(** * The Eurostat JSON-stat decoder of OpenKIWAS

    A shallow embedding of [jsonstat_to_dataframe]
    (Scipts/Eurostat_Search_Water_Statistics.py) and the properties of the
    cube decoder that the specification states about it.

    Python integers are [Z] ([//] and [%] are floor division and its
    remainder, which is what [Z.div] and [Z.modulo] compute), lists are
    [list]s read with Python's indexing rules, and an uncaught exception is
    the [Raise] result. Dictionaries are [gmap]s, except the [index] of a
    category, whose items are listed in the order of the dictionary because
    the last of two codes with one position wins. A row is the map from
    column name to cell; the order of its keys, which only fixes the order
    of the columns of the data frame, is not kept.

    What the function does to the objects it is given cannot be read off
    such values. For that the function is embedded a second time, on a heap
    of lists and dictionaries that variables refer to and that assignments
    change in place, and its runs there are shown to end as the function on
    values does. *)

From Stdlib Require Import ZArith Lia Ascii.
From stdpp Require Import base option list list_numbers gmap strings pretty fin_maps.

Local Open Scope Z_scope.
#[local] Set Warnings "-clear-no-such-hyp".

(** ** Exceptions and the result of a computation that may raise *)

Inductive PyExc : Type :=
  | KeyError
  | IndexError
  | ZeroDivisionError.

Inductive result (A : Type) : Type :=
  | Ok (a : A)
  | Raise (e : PyExc).
Arguments Ok {A} a.
Arguments Raise {A} e.

#[global] Instance result_ret : MRet result := @Ok.
#[global] Instance result_bind : MBind result := λ A B f m,
  match m with
  | Ok a => f a
  | Raise e => Raise e
  end.

(** A [for] loop whose body may raise and that threads the variables it
    assigns through the iterations. *)
Fixpoint foldM {S A : Type} (body : S → A → result S) (s : S) (l : list A)
    : result S :=
  match l with
  | [] => Ok s
  | x :: l' => s' ← body s x; foldM body s' l'
  end.

(** ** The Python built-ins the decoder uses *)

(** [l[i]]: a negative index counts from the end, anything outside
    [-len(l) .. len(l) - 1] raises [IndexError]. *)
Definition list_getitem {A : Type} (l : list A) (i : Z) : result A :=
  let j := if bool_decide (i < 0) then Z.of_nat (length l) + i else i in
  if bool_decide (j < 0) then Raise IndexError
  else from_option Ok (Raise IndexError) (l !! Z.to_nat j).

(** [d[k]] *)
Definition dict_getitem `{Countable K} {A : Type} (d : gmap K A) (k : K)
    : result A :=
  from_option Ok (Raise KeyError) (d !! k).

(** [a // b] and [a % b] on integers *)
Definition floordiv (a b : Z) : result Z :=
  if bool_decide (b = 0) then Raise ZeroDivisionError else Ok (a / b).
Definition pymod (a b : Z) : result Z :=
  if bool_decide (b = 0) then Raise ZeroDivisionError else Ok (a mod b).

(** [range(n)], [enumerate(l)] and [str(i)] *)
Definition range (n : Z) : list Z := seqZ 0 n.
Definition enumerate {A : Type} (l : list A) : list (Z * A) :=
  zip (seqZ 0 (Z.of_nat (length l))) l.
Definition str (i : Z) : string := pretty i.

(** ** The JSON-stat document *)

(** [cat.get("index", {})]: the items of the [index] object, code first, in
    the order of the dictionary. *)
Record Category : Type := { index : option (list (string * Z)) }.

(** [dim[dim_name]["category"]] *)
Record Dimension : Type := { category : option Category }.

Section decoder.
(** The type of the numbers of the value store: the decoder only tests them
    against [None] and passes them on. *)
Context {V : Type}.

(** [js["value"]]: a list (with [None] for a JSON null), a dictionary keyed
    by the decimal flat position, or any other JSON value. *)
Inductive JValue : Type :=
  | JList (l : list (option V))
  | JDict (d : gmap string (option V))
  | JOther.

Record JsonStat : Type := {
  js_dimension : gmap string Dimension;
  js_value : JValue;
  js_id : list string;
  js_size : list Z
}.

(** The argument of the function: the dataset itself, or an object that
    holds it under the key ["dataset"]. *)
Inductive Json : Type :=
  | Bare (ds : JsonStat)
  | Wrapped (ds : JsonStat).

(** A cell of a row: a category code or the observed value. *)
Inductive Cell : Type :=
  | Code (c : string)
  | Num (v : V).

(** ** jsonstat_to_dataframe *)

Definition unwrap (js : Json) : JsonStat :=
  match js with
  | Bare ds => ds
  | Wrapped ds => ds
  end.

(** [{pos: code for code, pos in index.items()}] *)
Definition pos_to_code_of (index : list (string * Z)) : gmap Z string :=
  foldl (λ m '(code, pos), <[pos := code]> m) ∅ index.

(** The body of the loop over [dim_ids] after [index] is read: the
    placeholder when [pos_to_code] is empty, else the codes at the
    positions [0 .. max_pos]. *)
Definition ordered_codes_of (index : list (string * Z)) : result (list string) :=
  let pos_to_code := pos_to_code_of index in
  match (map_to_list pos_to_code).*1 with
  | [] => Ok ["_missing_"%string]
  | k :: ks =>
      let max_pos := foldl Z.max k ks in
      mapM (λ i, dict_getitem pos_to_code i) (range (max_pos + 1))
  end.

Definition categories_of (dim : gmap string Dimension) (dim_name : string)
    : result (list string) :=
  d ← dict_getitem dim dim_name;
  cat ← from_option Ok (Raise KeyError) (category d);
  ordered_codes_of (default [] (index cat)).

Definition build_dim_categories (dim : gmap string Dimension)
    (dim_ids : list string) : result (gmap string (list string)) :=
  foldM (λ dim_categories dim_name,
           codes ← categories_of dim dim_name;
           Ok (<[dim_name := codes]> dim_categories))
        ∅ dim_ids.

Definition compute_n_obs (dim_sizes : list Z) : Z :=
  foldl (λ n_obs s, n_obs * s) 1 dim_sizes.

Definition compute_strides (dim_sizes : list Z) : list Z :=
  (foldl (λ '(strides, acc) size, (acc :: strides, acc * size))
         ([], 1) (reverse dim_sizes)).1.

Definition get_value_at (value : JValue) (idx : Z) : result (option V) :=
  match value with
  | JList l => list_getitem l idx
  | JDict d => Ok (default None (d !! str idx))
  | JOther => Ok None
  end.

(** The inner loop over [enumerate(dim_sizes)] for one flat index. *)
Definition decode_coords (dim_ids : list string) (dim_sizes : list Z)
    (dim_categories : gmap string (list string)) (strides : list Z)
    (flat_idx : Z) : result (gmap string Cell) :=
  '(_, coord_codes) ←
    foldM (λ '(remaining, coord_codes) '(dim_idx, _),
             stride ← list_getitem strides dim_idx;
             coord_index ← floordiv remaining stride;
             remaining ← pymod remaining stride;
             dim_name ← list_getitem dim_ids dim_idx;
             code_list ← dict_getitem dim_categories dim_name;
             code ← list_getitem code_list coord_index;
             Ok (remaining, <[dim_name := Code code]> coord_codes))
          (flat_idx, ∅) (enumerate dim_sizes);
  Ok coord_codes.

(** The body of the loop over [range(n_obs)]. *)
Definition decode_row (dim_ids : list string) (dim_sizes : list Z)
    (dim_categories : gmap string (list string)) (strides : list Z)
    (value : JValue) (rows : list (gmap string Cell)) (flat_idx : Z)
    : result (list (gmap string Cell)) :=
  coord_codes ← decode_coords dim_ids dim_sizes dim_categories strides flat_idx;
  v ← get_value_at value flat_idx;
  match v with
  | None => Ok rows
  | Some v => Ok (rows ++ [<["value"%string := Num v]> coord_codes])
  end.

(** The rows handed to [pd.DataFrame]. *)
Definition jsonstat_to_dataframe (js : Json) : result (list (gmap string Cell)) :=
  let js := unwrap js in
  let dim := js_dimension js in
  let value := js_value js in
  let dim_ids := js_id js in
  let dim_sizes := js_size js in
  dim_categories ← build_dim_categories dim dim_ids;
  let n_obs := compute_n_obs dim_sizes in
  let strides := compute_strides dim_sizes in
  foldM (decode_row dim_ids dim_sizes dim_categories strides value)
        [] (range n_obs).

End decoder.

Arguments JValue : clear implicits.
Arguments JsonStat : clear implicits.
Arguments Json : clear implicits.
Arguments Cell : clear implicits.

(** ** The decoding as the specification words it *)

Definition product (l : list Z) : Z := foldr Z.mul 1 l.

(** Row-major strides: the stride of a dimension is the product of the
    sizes after it, so the stride of the last one is 1. *)
Definition rowmajor_strides (sizes : list Z) : list Z :=
  (λ k, product (drop (S k) sizes)) <$> seq 0 (length sizes).

(** The coordinates of a flat position: divide by each stride in dimension
    order and carry the remainder on. *)
Fixpoint successive_divmod (remaining : Z) (strides : list Z) : list Z :=
  match strides with
  | [] => []
  | stride :: strides' =>
      remaining / stride :: successive_divmod (remaining mod stride) strides'
  end.

Section spec.
Context {V : Type}.

(** Each coordinate selects a code in the category list of its dimension. *)
Fixpoint label_coords (cats : gmap string (list string)) (ids : list string)
    (coords : list Z) (codes : gmap string (Cell V)) {struct coords}
    : result (gmap string (Cell V)) :=
  match coords with
  | [] => Ok codes
  | c :: coords' =>
      match ids with
      | [] => Raise IndexError
      | name :: ids' =>
          code_list ← dict_getitem cats name;
          code ← list_getitem code_list c;
          label_coords cats ids' coords' (<[name := Code code]> codes)
      end
  end.

(** What a flat position contributes: nothing when its value is absent. *)
Definition observation_at (cats : gmap string (list string)) (ds : JsonStat V)
    (flat : Z) : result (option (gmap string (Cell V))) :=
  codes ← label_coords cats (js_id ds)
             (successive_divmod flat (rowmajor_strides (js_size ds))) ∅;
  v ← get_value_at (js_value ds) flat;
  Ok (match v with
      | None => None
      | Some v => Some (<["value"%string := Num v]> codes)
      end).

(** One observation per flat position with a value, by increasing flat
    position. *)
Definition rowmajor_decode (ds : JsonStat V)
    : result (list (gmap string (Cell V))) :=
  cats ← build_dim_categories (js_dimension ds) (js_id ds);
  observations ← mapM (observation_at cats ds) (seqZ 0 (product (js_size ds)));
  Ok (omap id observations).

End spec.

(** ** Well-formed cubes

    The invariants of the data model: the size vector is parallel to the
    dimension list and each size is the length of the resolved category
    list of its dimension; a dense value store has one entry per flat
    position, a sparse one maps keys that are flat positions to numbers. *)

Definition is_flat_key (total : Z) (k : string) : Prop :=
  k ∈ (str <$> seqZ 0 total).

#[global] Instance is_flat_key_dec total k : Decision (is_flat_key total k).
Proof. unfold is_flat_key. apply _. Defined.

Section well_formed.
Context {V : Type}.

Definition dimension_resolves (dim : gmap string Dimension) (name : string)
    (size : Z) : bool :=
  match categories_of dim name with
  | Ok codes => bool_decide (Z.of_nat (length codes) = size)
  | Raise _ => false
  end.

Definition well_formed_dims (ds : JsonStat V) : bool :=
  bool_decide (length (js_id ds) = length (js_size ds)) &&
  forallb (λ '(name, size), dimension_resolves (js_dimension ds) name size)
          (zip (js_id ds) (js_size ds)).

Definition well_formed_values (ds : JsonStat V) : bool :=
  match js_value ds with
  | JList l => bool_decide (Z.of_nat (length l) = product (js_size ds))
  | JDict d =>
      bool_decide (map_Forall (λ k v, is_Some v ∧
                                      is_flat_key (product (js_size ds)) k) d)
  | JOther => false
  end.

Definition well_formed (ds : JsonStat V) : bool :=
  well_formed_dims ds && well_formed_values ds.

(** The flat positions that have a value, and the number of values a store
    holds: the entries of a list that are not null, the keys of a
    dictionary. *)
Definition present (value : JValue V) (flat : Z) : bool :=
  match get_value_at value flat with
  | Ok (Some _) => true
  | _ => false
  end.

Definition stored_values (value : JValue V) : nat :=
  match value with
  | JList l => length (filter is_Some l)
  | JDict d => size d
  | JOther => 0%nat
  end.

End well_formed.

(** A dimension whose category list has as many codes as its size says. *)
Definition fits (cats : gmap string (list string)) (name : string) (size : Z)
    : Prop :=
  ∃ code_list, cats !! name = Some code_list ∧
               Z.of_nat (length code_list) = size.

(** The sparse store without the entries whose key is not the decimal
    representation of a flat position. *)
Definition flat_keys_only {V : Type} (total : Z) (d : gmap string (option V))
    : gmap string (option V) :=
  filter (λ kv, is_flat_key total kv.1) d.

(** ** Cubes that differ in one part *)

(** The cube with another value store. *)
Definition with_value {V : Type} (ds : JsonStat V) (value : JValue V)
    : JsonStat V :=
  {| js_dimension := js_dimension ds;
     js_value := value;
     js_id := js_id ds;
     js_size := js_size ds |}.

(** The placeholder list of a dimension that has no categories. *)
Definition placeholder : list string := ["_missing_"%string].

(** The dimension is there, and its [index] is absent or empty. *)
Definition no_categories (dim : gmap string Dimension) (name : string) : bool :=
  match dim !! name with
  | Some d =>
      match category d with
      | Some cat =>
          match default [] (index cat) with
          | [] => true
          | _ :: _ => false
          end
      | None => false
      end
  | None => false
  end.

(** The cube without its [k]-th dimension and size. *)
Definition without_dimension {V : Type} (k : nat) (ds : JsonStat V)
    : JsonStat V :=
  {| js_dimension := js_dimension ds;
     js_value := js_value ds;
     js_id := delete k (js_id ds);
     js_size := delete k (js_size ds) |}.

(** Two computations end the same way: they raise the same exception, or
    they return related values. *)
Definition result_rel {A B : Type} (R : A → B → Prop) (x : result A)
    (y : result B) : Prop :=
  match x, y with
  | Ok a, Ok b => R a b
  | Raise e, Raise e' => e = e'
  | _, _ => False
  end.

(** A row of the cube with the placeholder dimension [d] against the row of
    the cube without it. *)
Definition agree_but {V : Type} (d : string) (row row' : gmap string (Cell V))
    : Prop :=
  ∀ name, name ≠ d → row !! name = row' !! name.

(** The codes gathered for a flat position once the placeholder dimension
    [d] is passed, and a finished row, against those of the cube without
    that dimension. *)
Definition agree_with_placeholder {V : Type} (d : string)
    (codes codes' : gmap string (Cell V)) : Prop :=
  agree_but d codes codes' ∧ codes !! d = Some (Code "_missing_"%string).

Definition row_with_placeholder {V : Type} (d : string)
    (row row' : gmap string (Cell V)) : Prop :=
  agree_but d row row' ∧
  (d ≠ "value"%string → row !! d = Some (Code "_missing_"%string)).

(** ** The cubes of the examples *)

Definition index_dimension (idx : list (string * Z)) : Dimension :=
  {| category := Some {| index := Some idx |} |}.

Definition geo_time : gmap string Dimension :=
  {[ "geo"%string := index_dimension [("A"%string, 0); ("B"%string, 1)];
     "time"%string := index_dimension
        [("2020"%string, 0); ("2021"%string, 1); ("2022"%string, 2)] ]}.

Definition dense_cube : JsonStat Z :=
  {| js_dimension := geo_time;
     js_value := JList [Some 1; Some 2; Some 3; Some 4; Some 5; Some 6];
     js_id := ["geo"; "time"]%string;
     js_size := [2; 3] |}.

Definition sparse_cube : JsonStat Z :=
  {| js_dimension := geo_time;
     js_value := JDict {[ "0"%string := Some 1; "3"%string := Some 4;
                          "5"%string := Some 6 ]};
     js_id := ["geo"; "time"]%string;
     js_size := [2; 3] |}.

Definition obs (geo time : string) (v : Z) : gmap string (Cell Z) :=
  {[ "geo"%string := Code geo; "time"%string := Code time;
     "value"%string := Num v ]}.

(** The dense cube with the codes of [geo] listed in the order B, A. *)
Definition unsorted_cube : JsonStat Z :=
  {| js_dimension :=
       {[ "geo"%string := index_dimension [("B"%string, 0); ("A"%string, 1)];
          "time"%string := index_dimension
             [("2021"%string, 0); ("2020"%string, 1)] ]};
     js_value := JList [Some 1; Some 2; Some 3; Some 4];
     js_id := ["geo"; "time"]%string;
     js_size := [2; 2] |}.

(** A cube without dimensions, the 2 x 3 cube with a value store that is
    neither a list nor a dictionary, and the 2 x 3 cube with seven dense
    values. *)
Definition no_dims_cube : JsonStat Z :=
  {| js_dimension := ∅;
     js_value := JList [Some 7];
     js_id := [];
     js_size := [] |}.

Definition other_store_cube : JsonStat Z := with_value dense_cube JOther.

Definition long_dense_cube : JsonStat Z :=
  with_value dense_cube
    (JList [Some 1; Some 2; Some 3; Some 4; Some 5; Some 6; Some 7]).

(** The 2 x 3 cube with the sizes negated: the product of the sizes is
    still 6. *)
Definition negative_sizes_cube : JsonStat Z :=
  {| js_dimension := geo_time;
     js_value := JList [Some 1; Some 2; Some 3; Some 4; Some 5; Some 6];
     js_id := ["geo"; "time"]%string;
     js_size := [-2; -3] |}.

(** The 2 x 3 cube whose [geo] dimension lists one code only. *)
Definition short_geo_cube : JsonStat Z :=
  {| js_dimension :=
       {[ "geo"%string := index_dimension [("A"%string, 0)];
          "time"%string := index_dimension
             [("2020"%string, 0); ("2021"%string, 1); ("2022"%string, 2)] ]};
     js_value := JList [Some 1; Some 2; Some 3; Some 4; Some 5; Some 6];
     js_id := ["geo"; "time"]%string;
     js_size := [2; 3] |}.

(** A cube with the dimensions geo, of two codes, and unit, of no code, for
    a declared size of unit. *)
Definition unit_cube (unit_size : Z) (values : list (option Z)) : JsonStat Z :=
  {| js_dimension :=
       {[ "geo"%string := index_dimension [("A"%string, 0); ("B"%string, 1)];
          "unit"%string := index_dimension [] ]};
     js_value := JList values;
     js_id := ["geo"; "unit"]%string;
     js_size := [2; unit_size] |}.

(** ** Further definitions *)

(** The flat position of a coordinate vector: the sum of the coordinates
    weighted by the strides. *)
Definition ravel (coords strides : list Z) : Z :=
  foldr Z.add 0 (zip_with Z.mul coords strides).

(** The sparse store of a dense one:
    [{str(i): v for i, v in enumerate(l) if v is not None}]. *)
Fixpoint sparse_of_dense_from {V : Type} (i : Z) (l : list (option V))
    : gmap string (option V) :=
  match l with
  | [] => ∅
  | None :: l' => sparse_of_dense_from (i + 1) l'
  | Some v :: l' => <[str i := Some v]> (sparse_of_dense_from (i + 1) l')
  end.

Definition sparse_of_dense {V : Type} (l : list (option V))
    : gmap string (option V) :=
  sparse_of_dense_from 0 l.

(** ** fetch_eurostat_json *)

(** The characters that [str.isspace] accepts, among the characters of one
    byte. *)
Definition isspace (c : ascii) : bool :=
  match c with
  | "009" | "010" | "011" | "012" | "013"
  | "028" | "029" | "030" | "031" | " " | "133" | "160" => true
  | _ => false
  end%char.

(** [s.lstrip()], [s.rstrip()] and [s.strip()] *)
Fixpoint lstrip (s : string) : string :=
  match s with
  | EmptyString => EmptyString
  | String c s' => if isspace c then lstrip s' else s
  end.

Fixpoint rstrip (s : string) : string :=
  match s with
  | EmptyString => EmptyString
  | String c s' =>
      match rstrip s' with
      | EmptyString => if isspace c then EmptyString else String c EmptyString
      | r => String c r
      end
  end.

Definition strip (s : string) : string := rstrip (lstrip s).

(** [s.split(",")] *)
Fixpoint split_comma (s : string) : list string :=
  match s with
  | EmptyString => [EmptyString]
  | String c s' =>
      if bool_decide (c = ","%char) then EmptyString :: split_comma s'
      else match split_comma s' with
           | [] => [String c EmptyString]
           | w :: ws => String c w :: ws
           end
  end.

(** [",".join(l)] *)
Fixpoint join_comma (l : list string) : string :=
  match l with
  | [] => EmptyString
  | [w] => w
  | w :: l' => w +:+ String ","%char (join_comma l')
  end.

(** The values of a filter: one string, or a list of strings. *)
Inductive FilterValues : Type :=
  | Single (values : string)
  | Several (values : list string).

(** The list [vals] of the loop over [filters.items()]. *)
Definition filter_vals (values : FilterValues) : list string :=
  match values with
  | Single values => strip <$> split_comma values
  | Several values => strip <$> values
  end.

(** The query parameters: the language, then one pair per value that is not
    empty, in the order of the filters. *)
Definition build_params (filters : option (list (string * FilterValues)))
    (lang : string) : list (string * string) :=
  let params := [("lang"%string, lang)] in
  match filters with
  | None | Some [] => params
  | Some filters =>
      foldl (λ params '(dim, values),
               foldl (λ params v,
                        if bool_decide (v = EmptyString) then params
                        else params ++ [(dim, v)])
                     params (filter_vals values))
            params filters
  end.

(** The answer of the server, and what the function returns for it: nothing
    for the status 404 and for every status that [raise_for_status]
    refuses, else the body. *)
Record Response {V : Type} : Type := {
  status_code : Z;
  json : Json V
}.
Arguments Response : clear implicits.

Definition fetch_eurostat_json_response {V : Type} (resp : Response V)
    : option (Json V) :=
  if bool_decide (status_code resp = 404) then None
  else if bool_decide (400 ≤ status_code resp < 600) then None
  else Some (json resp).

(** ** crawl_eurostat_datasets *)

(** [s.zfill(width)] *)
Fixpoint zeros (n : nat) : string :=
  match n with
  | O => EmptyString
  | S n' => String "0"%char (zeros n')
  end.

Definition zfill (width : nat) (s : string) : string :=
  if bool_decide (width ≤ String.length s)%nat then s
  else
    let fill := zeros (width - String.length s) in
    match s with
    | String c rest =>
        if bool_decide (c = "+"%char ∨ c = "-"%char)
        then String c (fill +:+ rest)
        else fill +:+ s
    | EmptyString => fill
    end.

(** [f"eurostat-{code}-{str(i+1).zfill(4)}"] *)
Definition openkiwas_id (code : string) (i : Z) : string :=
  "eurostat-" +:+ code +:+ "-" +:+ zfill 4 (str (i + 1)).

Definition desired_order : list string :=
  ["OpenKIWAS_ID"; "dataset_code"; "freq"; "wat_proc"; "unit"; "geo"; "time";
   "value"; "wat_src"]%string.

Section crawl.
Context {V : Type}.

(** A data frame: its columns in order and its rows; a cell that a row
    does not hold is a missing value. *)
Record DataFrame : Type := {
  df_columns : list string;
  df_rows : list (gmap string (Cell V))
}.

(** The frame of one dataset with the columns [dataset_code] and
    [OpenKIWAS_ID] set. *)
Definition with_ids (code : string) (df : list (gmap string (Cell V)))
    : list (gmap string (Cell V)) :=
  (λ '(i, row), <["OpenKIWAS_ID"%string := Code (openkiwas_id code i)]> row)
    <$> enumerate (<["dataset_code"%string := Code code]> <$> df).

(** The body of the loop over the dataset codes, each with the answer that
    the server gave for it. *)
Definition crawl_dataset (all_frames : list (list (gmap string (Cell V))))
    (dataset : string * Response V)
    : result (list (list (gmap string (Cell V)))) :=
  let '(code, resp) := dataset in
  match fetch_eurostat_json_response resp with
  | None => Ok all_frames
  | Some js =>
      df ← jsonstat_to_dataframe js;
      match df with
      | [] => Ok all_frames
      | _ :: _ => Ok (all_frames ++ [with_ids code df])
      end
  end.

(** The frame that is written and returned. *)
Definition crawl_eurostat_datasets (datasets : list (string * Response V))
    : result DataFrame :=
  all_frames ← foldM crawl_dataset [] datasets;
  match all_frames with
  | [] => Ok {| df_columns := []; df_rows := [] |}
  | _ :: _ =>
      let full_df := mjoin all_frames in
      let full_columns : gset string := ⋃ (dom <$> full_df) in
      let existing_columns :=
        filter (λ col, col ∈ full_columns) desired_order in
      Ok {| df_columns := existing_columns;
            df_rows := (λ row, filter (λ kv, kv.1 ∈ existing_columns) row)
                         <$> full_df |}
  end.

End crawl.

Arguments DataFrame : clear implicits.

(** What a dataset contributes to the crawl: the rows decoded from the
    answer, none when there is no answer to decode; and the frames that are
    kept, those with a row. *)
Definition dataset_rows {V : Type} (dataset : string * Response V)
    : result (list (gmap string (Cell V))) :=
  match fetch_eurostat_json_response dataset.2 with
  | None => Ok []
  | Some js => jsonstat_to_dataframe js
  end.

Definition kept_frames {V : Type}
    (decoded : list (string * list (gmap string (Cell V))))
    : list (list (gmap string (Cell V))) :=
  omap (λ '(code, df), match df with
                       | [] => None
                       | _ :: _ => Some (with_ids code df)
                       end) decoded.

(** The identifiers of the rows of the kept frames. *)
Definition frame_ids {V : Type}
    (decoded : list (string * list (gmap string (Cell V)))) : list string :=
  '(code, df) ← decoded;
  openkiwas_id code <$> seqZ 0 (Z.of_nat (length df)).

(** A string of decimal digits. *)
Definition is_digit (c : ascii) : bool :=
  match Ascii.is_nat c with
  | Some _ => true
  | None => false
  end.

Fixpoint all_digits (s : string) : bool :=
  match s with
  | EmptyString => true
  | String c s' => is_digit c && all_digits s'
  end.

(** Two datasets for a crawl: one that the server does not have, and the
    dense cube. *)
Definition two_datasets : list (string * Response Z) :=
  [("b"%string, {| status_code := 404; json := Bare dense_cube |});
   ("a"%string, {| status_code := 200; json := Bare dense_cube |})].

(** A string without a comma. *)
Fixpoint no_comma (s : string) : bool :=
  match s with
  | EmptyString => true
  | String c s' => negb (bool_decide (c = ","%char)) && no_comma s'
  end.

(** The items of the index of a dimension, none when the dimension, its
    category or its index is absent. Python keeps one item per code. *)
Definition index_of (dim : gmap string Dimension) (name : string)
    : list (string * Z) :=
  default [] (d ← dim !! name; cat ← category d; index cat).

(** ** The object the decoder receives

    The cubes above have the four members that the body reads. The object
    that the function is called with may lack any of them: [js["dimension"]],
    [js["value"]], [js["id"]] and [js["size"]] are read in this order, before
    anything else, and each raises [KeyError] when the key is absent. The
    members that are present have the types of the format. *)
Record Members {V : Type} : Type := {
  m_dimension : option (gmap string Dimension);
  m_value : option (JValue V);
  m_id : option (list string);
  m_size : option (list Z)
}.
Arguments Members : clear implicits.

(** The object itself, or an object that holds it under ["dataset"]. *)
Inductive Document {V : Type} : Type :=
  | Plain (m : Members V)
  | Dataset (m : Members V).
Arguments Document : clear implicits.

Definition members {V : Type} (doc : Document V) : Members V :=
  match doc with
  | Plain m => m
  | Dataset m => m
  end.

(** Lines 64 to 71 of the function: the unwrapping and the four reads. *)
Definition read_members {V : Type} (doc : Document V) : result (JsonStat V) :=
  let js := members doc in
  dim ← from_option Ok (Raise KeyError) (m_dimension js);
  value ← from_option Ok (Raise KeyError) (m_value js);
  dim_ids ← from_option Ok (Raise KeyError) (m_id js);
  dim_sizes ← from_option Ok (Raise KeyError) (m_size js);
  Ok {| js_dimension := dim; js_value := value;
        js_id := dim_ids; js_size := dim_sizes |}.

(** The function on such an object. *)
Definition jsonstat_to_dataframe_of {V : Type} (doc : Document V)
    : result (list (gmap string (Cell V))) :=
  ds ← read_members doc;
  jsonstat_to_dataframe (Bare ds).

(** A document without the member [value]. *)
Definition no_value_document : Document Z :=
  Plain {| m_dimension := Some geo_time; m_value := None;
           m_id := Some ["geo"; "time"]%string; m_size := Some [2; 3] |}.

(** ** The function on the objects of the interpreter

    The same function with the lists and dictionaries where Python has
    them: each is an object of a heap, a variable holds a number, a string
    or a reference to an object, and two variables may hold the same
    reference. [js["id"]] is a reference into the object the caller passes;
    [strides.insert], [rows.append] and the assignments [d[k] = v] write to
    the object that their target refers to, whichever it is. An operation
    applied to an object of a type that the format does not give it ends
    the run without a result: Python raises [TypeError] or
    [AttributeError] there, which are not told apart.

    A [for] loop reads the list it runs over when it starts. The lists the
    function runs over are ranges and objects that its body has no
    assignment to. *)

Inductive Key : Type :=
  | KStr (s : string)
  | KInt (n : Z).

#[global] Instance Key_eq_dec : EqDecision Key.
Proof. solve_decision. Defined.

Section heap.
Context {V : Type}.

Inductive Val : Type :=
  | VNone
  | VInt (n : Z)
  | VStr (s : string)
  | VNum (v : V)
  | VRef (l : nat).

(** The items of a dictionary are in the order of their insertion. *)
Inductive Obj : Type :=
  | ODict (items : list (Key * Val))
  | OList (items : list Val).

Fixpoint dict_find (k : Key) (items : list (Key * Val)) : option Val :=
  match items with
  | [] => None
  | (k', v) :: items' =>
      if decide (k = k') then Some v else dict_find k items'
  end.

Fixpoint dict_set (k : Key) (v : Val) (items : list (Key * Val))
    : list (Key * Val) :=
  match items with
  | [] => [(k, v)]
  | (k', v') :: items' =>
      if decide (k = k') then (k', v) :: items'
      else (k', v') :: dict_set k v items'
  end.

(** A run maps the heap to what it returns or raises and to the heap it
    leaves. *)
Definition Heap (A : Type) : Type := list Obj → option (result A * list Obj).

#[global] Instance heap_ret : MRet Heap := λ A a h, Some (Ok a, h).
#[global] Instance heap_bind : MBind Heap := λ A B f m h,
  match m h with
  | Some (Ok a, h') => f a h'
  | Some (Raise e, h') => Some (Raise e, h')
  | None => None
  end.

Definition lift {A : Type} (r : result A) : Heap A := λ h, Some (r, h).
Definition untyped {A : Type} : Heap A := λ _, None.

(** A new object, the object a reference leads to, and the replacement of
    that object: the only operation that changes an object. *)
Definition alloc (o : Obj) : Heap Val :=
  λ h, Some (Ok (VRef (length h)), h ++ [o]).

Definition load (v : Val) : Heap Obj := λ h,
  match v with
  | VRef l => match h !! l with
              | Some o => Some (Ok o, h)
              | None => None
              end
  | _ => None
  end.

Definition store (v : Val) (o : Obj) : Heap unit := λ h,
  match v with
  | VRef l => if decide (l < length h)%nat then Some (Ok tt, <[l := o]> h)
              else None
  | _ => None
  end.

Definition as_dict (v : Val) : Heap (list (Key * Val)) :=
  o ← load v;
  match o with
  | ODict items => mret items
  | OList _ => untyped
  end.

Definition as_list (v : Val) : Heap (list Val) :=
  o ← load v;
  match o with
  | OList items => mret items
  | ODict _ => untyped
  end.

Definition as_key (v : Val) : Heap Key :=
  match v with
  | VStr s => mret (KStr s)
  | VInt n => mret (KInt n)
  | _ => untyped
  end.

Definition as_int (v : Val) : Heap Z :=
  match v with
  | VInt n => mret n
  | _ => untyped
  end.

Definition key_val (k : Key) : Val :=
  match k with
  | KStr s => VStr s
  | KInt n => VInt n
  end.

(** [k in d], [d[k]], [d.get(k, default)], [d[k] = v] and [d.copy()] *)
Definition dict_contains (d k : Val) : Heap bool :=
  items ← as_dict d;
  key ← as_key k;
  mret (bool_decide (is_Some (dict_find key items))).

Definition dict_getitem_h (d k : Val) : Heap Val :=
  items ← as_dict d;
  key ← as_key k;
  lift (from_option Ok (Raise KeyError) (dict_find key items)).

Definition dict_get (d k default : Val) : Heap Val :=
  items ← as_dict d;
  key ← as_key k;
  mret (from_option id default (dict_find key items)).

Definition dict_setitem (d k v : Val) : Heap unit :=
  items ← as_dict d;
  key ← as_key k;
  store d (ODict (dict_set key v items)).

Definition dict_copy (d : Val) : Heap Val :=
  items ← as_dict d;
  alloc (ODict items).

(** [l[i]], [l.insert(0, x)] and [l.append(x)] *)
Definition list_getitem_h (l i : Val) : Heap Val :=
  items ← as_list l;
  n ← as_int i;
  lift (list_getitem items n).

Definition list_insert0 (l x : Val) : Heap unit :=
  items ← as_list l;
  store l (OList (x :: items)).

Definition list_append (l x : Val) : Heap unit :=
  items ← as_list l;
  store l (OList (items ++ [x])).

(** [isinstance(v, list)] and [isinstance(v, dict)] *)
Definition isinstance_list (v : Val) : Heap bool :=
  match v with
  | VRef _ => o ← load v;
              mret (match o with OList _ => true | ODict _ => false end)
  | _ => mret false
  end.

Definition isinstance_dict (v : Val) : Heap bool :=
  match v with
  | VRef _ => o ← load v;
              mret (match o with ODict _ => true | OList _ => false end)
  | _ => mret false
  end.

(** [max] of the keys of a dictionary whose keys are integers *)
Definition max_key (k : Key) (ks : list Key) : Heap Z :=
  match k, mapM (λ k, match k with KInt n => Some n | KStr _ => None end) ks with
  | KInt n, Some ns => mret (foldl Z.max n ns)
  | _, _ => untyped
  end.

(** A [for] loop: [s] stands for the variables that hold numbers and that
    the body assigns. *)
Fixpoint for_each {S A : Type} (body : S → A → Heap S) (s : S) (l : list A)
    : Heap S :=
  match l with
  | [] => mret s
  | x :: l' => s' ← body s x; for_each body s' l'
  end.

(** [{pos: code for code, pos in index.items()}] *)
Definition h_pos_to_code_of (index : Val) : Heap Val :=
  pos_to_code ← alloc (ODict []);
  items ← as_dict index;
  for_each (λ _ '(code, pos), dict_setitem pos_to_code pos (key_val code))
           tt items;;
  mret pos_to_code.

(** Lines 80 to 87: the list that is assigned to
    [dim_categories[dim_name]]. *)
Definition h_ordered_codes_of (index : Val) : Heap Val :=
  pos_to_code ← h_pos_to_code_of index;
  items ← as_dict pos_to_code;
  match items.*1 with
  | [] => alloc (OList [VStr "_missing_"])
  | k :: ks =>
      max_pos ← max_key k ks;
      ordered_codes ← alloc (OList []);
      for_each (λ _ i, code ← dict_getitem_h pos_to_code (VInt i);
                       list_append ordered_codes code)
               tt (range (max_pos + 1));;
      mret ordered_codes
  end.

(** Lines 76 and 77, then the list of the codes: the default [{}] of
    [cat.get] is built before the call. *)
Definition h_categories_of (dim dim_name : Val) : Heap Val :=
  d ← dict_getitem_h dim dim_name;
  cat ← dict_getitem_h d (VStr "category");
  default ← alloc (ODict []);
  index ← dict_get cat (VStr "index") default;
  h_ordered_codes_of index.

Definition h_build_dim_categories (dim dim_ids : Val) : Heap Val :=
  dim_categories ← alloc (ODict []);
  ids ← as_list dim_ids;
  for_each (λ _ dim_name,
              codes ← h_categories_of dim dim_name;
              dict_setitem dim_categories dim_name codes)
           tt ids;;
  mret dim_categories.

Definition h_compute_n_obs (dim_sizes : Val) : Heap Z :=
  sizes ← as_list dim_sizes;
  for_each (λ n_obs s, s ← as_int s; mret (n_obs * s)) 1 sizes.

Definition h_compute_strides (dim_sizes : Val) : Heap Val :=
  strides ← alloc (OList []);
  sizes ← as_list dim_sizes;
  for_each (λ acc size,
              list_insert0 strides (VInt acc);;
              size ← as_int size;
              mret (acc * size))
           1 (reverse sizes);;
  mret strides.

Definition h_get_value_at (value : Val) (idx : Z) : Heap Val :=
  is_list ← isinstance_list value;
  if is_list : bool then list_getitem_h value (VInt idx)
  else
    is_dict ← isinstance_dict value;
    if is_dict : bool then dict_get value (VStr (str idx)) VNone
    else mret VNone.

(** Lines 117 to 124: the body of the loop over [enumerate(dim_sizes)],
    which returns the new value of [remaining]. *)
Definition h_decode_coord (dim_ids dim_categories strides coord_codes : Val)
    (remaining dim_idx : Z) : Heap Z :=
  stride ← list_getitem_h strides (VInt dim_idx);
  stride ← as_int stride;
  coord_index ← lift (floordiv remaining stride);
  remaining ← lift (pymod remaining stride);
  dim_name ← list_getitem_h dim_ids (VInt dim_idx);
  code_list ← dict_getitem_h dim_categories dim_name;
  code ← list_getitem_h code_list (VInt coord_index);
  dict_setitem coord_codes dim_name code;;
  mret remaining.

(** Lines 114 to 124: [coord_codes] of one flat index. *)
Definition h_decode_coords (dim_ids dim_sizes dim_categories strides : Val)
    (flat_idx : Z) : Heap Val :=
  coord_codes ← alloc (ODict []);
  sizes ← as_list dim_sizes;
  for_each (λ remaining '(dim_idx, _),
              h_decode_coord dim_ids dim_categories strides coord_codes
                remaining dim_idx)
           flat_idx (enumerate sizes);;
  mret coord_codes.

(** The body of the loop over [range(n_obs)]. *)
Definition h_decode_row (dim_ids dim_sizes dim_categories strides value
    rows : Val) (flat_idx : Z) : Heap unit :=
  coord_codes ← h_decode_coords dim_ids dim_sizes dim_categories strides
                  flat_idx;
  v ← h_get_value_at value flat_idx;
  match v with
  | VNone => mret tt
  | _ =>
      row ← dict_copy coord_codes;
      dict_setitem row (VStr "value") v;;
      list_append rows row
  end.

(** The function: it returns the list [rows], of which pandas makes the
    frame. *)
Definition h_jsonstat_to_dataframe (js : Val) : Heap Val :=
  wrapped ← dict_contains js (VStr "dataset");
  js ← (if wrapped : bool then dict_getitem_h js (VStr "dataset") else mret js);
  dim ← dict_getitem_h js (VStr "dimension");
  value ← dict_getitem_h js (VStr "value");
  dim_ids ← dict_getitem_h js (VStr "id");
  dim_sizes ← dict_getitem_h js (VStr "size");
  dim_categories ← h_build_dim_categories dim dim_ids;
  n_obs ← h_compute_n_obs dim_sizes;
  rows ← alloc (OList []);
  strides ← h_compute_strides dim_sizes;
  for_each (λ _ flat_idx,
              h_decode_row dim_ids dim_sizes dim_categories strides value rows
                flat_idx)
           tt (range n_obs);;
  mret rows.

(** *** The cube that a heap holds *)

Definition opt_val (o : option V) : Val :=
  match o with
  | Some v => VNum v
  | None => VNone
  end.

Definition index_items (idx : list (string * Z)) : list (Key * Val) :=
  (λ '(code, pos), (KStr code, VInt pos)) <$> idx.

Definition is_category (h : list Obj) (v : Val) (cat : Category) : Prop :=
  ∃ l items, v = VRef l ∧ h !! l = Some (ODict items) ∧
    match index cat with
    | None => dict_find (KStr "index") items = None
    | Some idx =>
        ∃ li, dict_find (KStr "index") items = Some (VRef li) ∧
              h !! li = Some (ODict (index_items idx))
    end.

Definition is_dimension (h : list Obj) (v : Val) (d : Dimension) : Prop :=
  ∃ l items, v = VRef l ∧ h !! l = Some (ODict items) ∧
    match category d with
    | None => dict_find (KStr "category") items = None
    | Some cat =>
        ∃ vc, dict_find (KStr "category") items = Some vc ∧
              is_category h vc cat
    end.

Definition is_dimensions (h : list Obj) (v : Val)
    (dim : gmap string Dimension) : Prop :=
  ∃ l items, v = VRef l ∧ h !! l = Some (ODict items) ∧
    ∀ name, match dim !! name with
            | None => dict_find (KStr name) items = None
            | Some d =>
                ∃ vd, dict_find (KStr name) items = Some vd ∧
                      is_dimension h vd d
            end.

Definition is_value (h : list Obj) (v : Val) (value : JValue V) : Prop :=
  match value with
  | JList l => ∃ lv, v = VRef lv ∧ h !! lv = Some (OList (opt_val <$> l))
  | JDict d =>
      ∃ lv items, v = VRef lv ∧ h !! lv = Some (ODict items) ∧
        ∀ k, dict_find (KStr k) items = opt_val <$> d !! k
  | JOther => ∀ lv, v ≠ VRef lv
  end.

Definition has_members (h : list Obj) (items : list (Key * Val))
    (ds : JsonStat V) : Prop :=
  ∃ vd vv li ls,
    dict_find (KStr "dimension") items = Some vd ∧
    is_dimensions h vd (js_dimension ds) ∧
    dict_find (KStr "value") items = Some vv ∧
    is_value h vv (js_value ds) ∧
    dict_find (KStr "id") items = Some (VRef li) ∧
    h !! li = Some (OList (VStr <$> js_id ds)) ∧
    dict_find (KStr "size") items = Some (VRef ls) ∧
    h !! ls = Some (OList (VInt <$> js_size ds)).

(** The reference [v] leads, in the heap [h], to the cube [js]. *)
Definition represents (h : list Obj) (v : Val) (js : Json V) : Prop :=
  ∃ l items, v = VRef l ∧ h !! l = Some (ODict items) ∧
    match js with
    | Bare ds =>
        dict_find (KStr "dataset") items = None ∧ has_members h items ds
    | Wrapped ds =>
        ∃ l' items', dict_find (KStr "dataset") items = Some (VRef l') ∧
                     h !! l' = Some (ODict items') ∧
                     has_members h items' ds
    end.

(** *** The rows that a run leaves *)

Definition cell_val (c : Cell V) : Val :=
  match c with
  | Code s => VStr s
  | Num v => VNum v
  end.

(** The items of a dictionary are the cells of a row: its keys are the
    names of the columns. *)
Definition holds_codes (items : list (Key * Val))
    (row : gmap string (Cell V)) : Prop :=
  (∀ k, k ∈ items.*1 → ∃ name, k = KStr name) ∧
  ∀ name, dict_find (KStr name) items = cell_val <$> row !! name.

Definition holds_row (h : list Obj) (v : Val) (row : gmap string (Cell V))
    : Prop :=
  ∃ l items, v = VRef l ∧ h !! l = Some (ODict items) ∧ holds_codes items row.

Definition holds_rows (h : list Obj) (v : Val)
    (rows : list (gmap string (Cell V))) : Prop :=
  ∃ l vs, v = VRef l ∧ h !! l = Some (OList vs) ∧
          Forall2 (holds_row h) vs rows.

(** What a run ends with is what the function gives for the cube: the same
    exception, or a list that holds these rows. *)
Definition ends_as (h : list Obj) (r : result Val)
    (res : result (list (gmap string (Cell V)))) : Prop :=
  match res with
  | Ok rows => ∃ v, r = Ok v ∧ holds_rows h v rows
  | Raise e => r = Raise e
  end.

(** *** What the variables of the function hold during a run *)

(** [pos_to_code]: integer keys, each with its code. *)
Definition holds_positions (items : list (Key * Val)) (m : gmap Z string)
    : Prop :=
  (∀ k, k ∈ items.*1 → ∃ p, k = KInt p) ∧
  ∀ p, dict_find (KInt p) items = VStr <$> m !! p.

(** [dim_categories]: each name with a reference to the list of its
    codes. *)
Definition holds_categories (h : list Obj) (items : list (Key * Val))
    (cats : gmap string (list string)) : Prop :=
  ∀ name, match cats !! name with
          | None => dict_find (KStr name) items = None
          | Some codes =>
              ∃ l, dict_find (KStr name) items = Some (VRef l) ∧
                   h !! l = Some (OList (VStr <$> codes))
          end.

End heap.

Arguments Val : clear implicits.
Arguments Obj : clear implicits.
Arguments Heap : clear implicits.

(** The dense cube of the examples as the objects of a heap, after an
    object that is not part of it. *)
Definition dense_heap : list (Obj Z) :=
  [ OList [VStr "other"];
    ODict [(KStr "A", VInt 0); (KStr "B", VInt 1)];
    ODict [(KStr "index", VRef 1%nat)];
    ODict [(KStr "category", VRef 2%nat)];
    ODict [(KStr "2020", VInt 0); (KStr "2021", VInt 1); (KStr "2022", VInt 2)];
    ODict [(KStr "index", VRef 4%nat)];
    ODict [(KStr "category", VRef 5%nat)];
    ODict [(KStr "geo", VRef 3%nat); (KStr "time", VRef 6%nat)];
    OList [VNum 1; VNum 2; VNum 3; VNum 4; VNum 5; VNum 6];
    OList [VStr "geo"; VStr "time"];
    OList [VInt 2; VInt 3];
    ODict [(KStr "dimension", VRef 7%nat); (KStr "value", VRef 8%nat);
           (KStr "id", VRef 9%nat); (KStr "size", VRef 10%nat)] ].

(** A run from [h] to [h'] keeps the objects of [h], but for those at the
    places [W], as they are; [h'] may hold new objects after them. *)
Definition preserves {V : Type} (W : list nat) (h h' : list (Obj V)) : Prop :=
  (length h ≤ length h')%nat ∧
  ∀ l, (l < length h)%nat → l ∉ W → h' !! l = h !! l.

(** * Properties *)

(** ** Loops and built-ins *)

Lemma foldM_app {S A : Type} (f : S → A → result S) (s : S) (l1 l2 : list A) :
  foldM f s (l1 ++ l2) = foldM f s l1 ≫= λ s', foldM f s' l2.
Proof.
  revert s. induction l1 as [|x l1 IH]; intros s; simpl; [done|].
  destruct (f s x) as [s'|e]; simpl; [apply IH | done].
Qed.

Lemma foldM_ext {S A : Type} (f g : S → A → result S) (s : S) (l : list A) :
  (∀ s x, x ∈ l → f s x = g s x) → foldM f s l = foldM g s l.
Proof.
  revert s. induction l as [|x l IH]; intros s Hfg; simpl; [done|].
  rewrite Hfg by left. destruct (g s x) as [s'|e]; simpl; [|done].
  apply IH. intros. apply Hfg. by right.
Qed.

Lemma list_getitem_nat {A : Type} (l : list A) (k : nat) :
  list_getitem l (Z.of_nat k) = from_option Ok (Raise IndexError) (l !! k).
Proof.
  unfold list_getitem. repeat case_bool_decide; try lia.
  by rewrite Nat2Z.id.
Qed.

Lemma list_getitem_raise {A : Type} (l : list A) (i : Z) (e : PyExc) :
  list_getitem l i = Raise e → e = IndexError.
Proof.
  unfold list_getitem. repeat case_bool_decide; try congruence.
  all: destruct (l !! _); simpl; congruence.
Qed.

Lemma list_getitem_outside {A : Type} (l : list A) (i : Z) :
  Z.of_nat (length l) ≤ i ∨ i < - Z.of_nat (length l) →
  list_getitem l i = Raise IndexError.
Proof.
  intros Hi. unfold list_getitem. repeat case_bool_decide; try done; try lia.
  all: rewrite lookup_ge_None_2 by lia; done.
Qed.

Lemma list_getitem_inside {A : Type} (l : list A) (i : Z) :
  0 ≤ i < Z.of_nat (length l) →
  ∃ a, l !! Z.to_nat i = Some a ∧ list_getitem l i = Ok a.
Proof.
  intros Hi. destruct (lookup_lt_is_Some_2 l (Z.to_nat i)) as [a Ha]; [lia|].
  exists a. split; [done|]. unfold list_getitem.
  repeat case_bool_decide; try lia. by rewrite Ha.
Qed.

(** ** Totals and strides *)

Lemma compute_n_obs_product (sizes : list Z) :
  compute_n_obs sizes = product sizes.
Proof.
  unfold compute_n_obs.
  assert (∀ a, foldl (λ n_obs s, n_obs * s) a sizes = a * product sizes) as H.
  { induction sizes as [|s sizes IH]; intros a; simpl; [lia|].
    rewrite IH. lia. }
  rewrite H. lia.
Qed.

Lemma rowmajor_strides_cons (s : Z) (sizes : list Z) :
  rowmajor_strides (s :: sizes) = product sizes :: rowmajor_strides sizes.
Proof.
  unfold rowmajor_strides. simpl. f_equal.
  rewrite <- fmap_S_seq, <- list_fmap_compose. done.
Qed.

Lemma length_rowmajor_strides (sizes : list Z) :
  length (rowmajor_strides sizes) = length sizes.
Proof. unfold rowmajor_strides. by rewrite length_fmap, length_seq. Qed.

Lemma compute_strides_rowmajor (sizes : list Z) :
  compute_strides sizes = rowmajor_strides sizes.
Proof.
  unfold compute_strides.
  enough (foldl (λ '(strides, acc) size, (acc :: strides, acc * size))
            ([], 1) (reverse sizes) = (rowmajor_strides sizes, product sizes))
    as -> by done.
  induction sizes as [|s sizes IH]; [done|].
  rewrite reverse_cons, foldl_app, IH, rowmajor_strides_cons. simpl.
  f_equal. lia.
Qed.

Lemma product_nonzero (sizes : list Z) :
  product sizes ≠ 0 → Forall (λ s, s ≠ 0) (rowmajor_strides sizes).
Proof.
  induction sizes as [|s sizes IH]; intros Hp; [constructor|].
  rewrite rowmajor_strides_cons. simpl in Hp.
  constructor; [lia|]. apply IH. lia.
Qed.

(** ** The inner loop computes the successive quotients *)

Section coords.
Context {V : Type}.
Implicit Types (cats : gmap string (list string)) (codes : gmap string (Cell V)).

Lemma decode_coords_from ids cats strides (sz : list Z) (k : nat) r codes :
  (k + length sz = length strides)%nat →
  Forall (λ s, s ≠ 0) strides →
  foldM (λ '(remaining, coord_codes) '(dim_idx, _),
           stride ← list_getitem strides dim_idx;
           coord_index ← floordiv remaining stride;
           remaining ← pymod remaining stride;
           dim_name ← list_getitem ids dim_idx;
           code_list ← dict_getitem cats dim_name;
           code ← list_getitem code_list coord_index;
           Ok (remaining, <[dim_name := Code code]> coord_codes))
        (r, codes) (zip (seqZ (Z.of_nat k) (Z.of_nat (length sz))) sz)
    ≫= (λ '(_, coord_codes), Ok coord_codes)
  = label_coords cats (drop k ids) (successive_divmod r (drop k strides)) codes.
Proof.
  intros Hlen Hnz. revert k r codes Hlen.
  induction sz as [|s sz IH]; intros k r codes Hlen; simpl in Hlen.
  - rewrite (drop_ge strides) by lia. rewrite seqZ_nil by done. reflexivity.
  - rewrite seqZ_cons by (simpl; lia).
    replace (Z.succ (Z.of_nat k)) with (Z.of_nat (S k)) by lia.
    replace (Z.pred (Z.of_nat (length (s :: sz)))) with (Z.of_nat (length sz))
      by (simpl; lia).
    destruct (lookup_lt_is_Some_2 strides k) as [stride Hs]; [lia|].
    rewrite (drop_S _ _ _ Hs). simpl.
    rewrite !list_getitem_nat, Hs. simpl.
    assert (stride ≠ 0) as Hs0.
    { eapply (proj1 (Forall_lookup _ _) Hnz); done. }
    unfold floordiv, pymod. rewrite !bool_decide_eq_false_2 by done. simpl.
    destruct (ids !! k) as [name|] eqn:Hid; simpl.
    + rewrite (drop_S _ _ _ Hid).
      destruct (dict_getitem cats name) as [code_list|e]; simpl; [|done].
      destruct (list_getitem code_list (r / stride)) as [code|e]; simpl; [|done].
      apply IH. lia.
    + apply lookup_ge_None_1 in Hid. by rewrite (drop_ge ids) by lia.
Qed.

Lemma decode_coords_label ids sizes cats flat :
  product sizes ≠ 0 →
  decode_coords (V:=V) ids sizes cats (compute_strides sizes) flat =
  label_coords cats ids (successive_divmod flat (rowmajor_strides sizes)) ∅.
Proof.
  intros Hp. unfold decode_coords, enumerate.
  rewrite compute_strides_rowmajor.
  apply (decode_coords_from ids cats (rowmajor_strides sizes) sizes 0).
  - by rewrite length_rowmajor_strides.
  - by apply product_nonzero.
Qed.

End coords.

(** ** The outer loop collects the observations in flat-position order *)

Lemma foldM_collect {A B : Type} (O : A → result (option B)) (l : list A)
    (acc : list B) :
  foldM (λ acc x, o ← O x;
                  Ok (match o with None => acc | Some b => acc ++ [b] end))
        acc l
  = mapM O l ≫= λ os, Ok (acc ++ omap id os).
Proof.
  revert acc. induction l as [|x l IH]; intros acc; simpl.
  - by rewrite app_nil_r.
  - destruct (O x) as [o|e]; simpl; [|done].
    rewrite IH. destruct (mapM O l) as [os|e]; simpl; [|done].
    destruct o as [b|]; simpl; [|done]. by rewrite <- app_assoc.
Qed.

Section decode.
Context {V : Type}.
Implicit Types (ds : JsonStat V) (js : Json V).

Lemma decode_row_observation cats ds rows flat :
  product (js_size ds) ≠ 0 →
  decode_row (js_id ds) (js_size ds) cats (compute_strides (js_size ds))
             (js_value ds) rows flat
  = observation_at cats ds flat ≫= λ o,
      Ok (match o with None => rows | Some row => rows ++ [row] end).
Proof.
  intros Hp. unfold decode_row, observation_at.
  rewrite decode_coords_label by done.
  destruct (label_coords _ _ _ _) as [codes|e]; simpl; [|done].
  destruct (get_value_at _ _) as [[v|]|e]; done.
Qed.

Lemma decode_loop_observations cats ds :
  foldM (decode_row (js_id ds) (js_size ds) cats (compute_strides (js_size ds))
                    (js_value ds))
        [] (range (compute_n_obs (js_size ds)))
  = mapM (observation_at cats ds) (seqZ 0 (product (js_size ds))) ≫= λ os,
      Ok (omap id os).
Proof.
  rewrite compute_n_obs_product. unfold range.
  destruct (decide (product (js_size ds) = 0)) as [->|Hp]; [done|].
  rewrite <- (foldM_collect (observation_at cats ds) _ []).
  apply foldM_ext. intros rows flat _. by apply decode_row_observation.
Qed.

Lemma jsonstat_to_dataframe_rowmajor js :
  jsonstat_to_dataframe js = rowmajor_decode (unwrap js).
Proof.
  unfold jsonstat_to_dataframe, rowmajor_decode.
  destruct (build_dim_categories _ _) as [cats|e]; simpl; [|done].
  apply decode_loop_observations.
Qed.

Lemma compute_strides_lookup (sizes : list Z) (k : nat) :
  compute_strides sizes !! k = (λ _, product (drop (S k) sizes)) <$> sizes !! k.
Proof.
  rewrite compute_strides_rowmajor. unfold rowmajor_strides.
  rewrite list_lookup_fmap.
  destruct (decide (k < length sizes)%nat) as [Hk|Hk].
  - rewrite lookup_seq_lt by done.
    destruct (lookup_lt_is_Some_2 sizes k Hk) as [s ->]. done.
  - rewrite lookup_seq_ge by lia. rewrite lookup_ge_None_2 by lia. done.
Qed.

Lemma compute_strides_last (sizes : list Z) (s : Z) :
  last (compute_strides (sizes ++ [s])) = Some 1.
Proof.
  rewrite last_lookup, compute_strides_rowmajor, length_rowmajor_strides.
  rewrite <- compute_strides_rowmajor, compute_strides_lookup.
  rewrite length_app, Nat.add_1_r. simpl.
  rewrite lookup_app_r by lia. rewrite Nat.sub_diag. simpl.
  rewrite drop_ge by (rewrite length_app; simpl; lia). done.
Qed.

End decode.

(** ** The category lists of the dimensions *)

Lemma build_from_lookup (dim : gmap string Dimension) (ids : list string)
    (acc cats : gmap string (list string)) :
  foldM (λ dim_categories dim_name,
           codes ← categories_of dim dim_name;
           Ok (<[dim_name := codes]> dim_categories)) acc ids = Ok cats →
  ∀ name,
    (name ∈ ids → ∃ codes, categories_of dim name = Ok codes ∧
                           cats !! name = Some codes) ∧
    (name ∉ ids → cats !! name = acc !! name).
Proof.
  revert acc. induction ids as [|x ids IH]; intros acc Hrun name; simpl in Hrun.
  - injection Hrun as <-. split; [by intros ?%elem_of_nil | done].
  - destruct (categories_of dim x) as [codes|e] eqn:Hx; simpl in Hrun; [|done].
    destruct (IH _ Hrun name) as [Hin Hout].
    destruct (decide (name ∈ ids)) as [Hm|Hm].
    + split; [by intros _; apply Hin|].
      intros []. by right.
    + split.
      * intros [->|?]%elem_of_cons; [|done].
        exists codes. split; [done|]. by rewrite Hout, lookup_insert_eq.
      * intros Hn. rewrite Hout by done. apply lookup_insert_ne.
        intros ->. apply Hn. by left.
Qed.

Lemma build_dim_categories_lookup dim ids cats name :
  build_dim_categories dim ids = Ok cats → name ∈ ids →
  ∃ codes, categories_of dim name = Ok codes ∧ cats !! name = Some codes.
Proof. intros Hb. by apply (build_from_lookup _ _ _ _ Hb name). Qed.

Lemma build_dim_categories_ok dim ids :
  Forall (λ name, ∃ codes, categories_of dim name = Ok codes) ids →
  ∃ cats, build_dim_categories dim ids = Ok cats.
Proof.
  intros Hall. unfold build_dim_categories.
  generalize (∅ : gmap string (list string)).
  induction Hall as [|x ids [codes Hx] _ IH]; intros acc; simpl; [by eexists|].
  rewrite Hx. simpl. apply IH.
Qed.

(** ** Coordinates stay inside the category lists of a well-formed cube *)

Section in_bounds.
Context {V : Type}.
Implicit Types (cats : gmap string (list string)) (codes : gmap string (Cell V)).

Lemma fits_product_nonneg cats ids sizes :
  Forall2 (fits cats) ids sizes → 0 ≤ product sizes.
Proof.
  induction 1 as [|name s ids sizes (? & _ & <-) _ IH]; simpl; lia.
Qed.

Lemma label_coords_in_bounds cats ids sizes r codes :
  Forall2 (fits cats) ids sizes → 0 ≤ r < product sizes →
  ∃ codes', label_coords cats ids
              (successive_divmod r (rowmajor_strides sizes)) codes = Ok codes'.
Proof.
  intros Hfit. revert r codes.
  induction Hfit as [|name s ids sizes (cl & Hcl & Hlen) Hfit IH];
    intros r codes Hr.
  - by eexists.
  - rewrite rowmajor_strides_cons. simpl in *.
    pose proof (fits_product_nonneg _ _ _ Hfit) as Hp.
    assert (0 < product sizes) as Hp' by nia.
    unfold dict_getitem. rewrite Hcl. simpl.
    destruct (list_getitem_inside cl (r / product sizes)) as (code & _ & ->).
    { split; [apply Z.div_pos; lia|].
      apply Z.div_lt_upper_bound; lia. }
    simpl. apply IH. by apply Z.mod_pos_bound.
Qed.

End in_bounds.

(** ** Counting the flat positions that have a value *)

Lemma length_filter_extra {A : Type} `{EqDecision A} (P P' : A → Prop)
    `{∀ x, Decision (P x)} `{∀ x, Decision (P' x)} (i : A) (l : list A) :
  NoDup l → (∀ x, x ∈ l → (P' x ↔ P x ∨ x = i)) → ¬ P i →
  length (filter P' l) =
  if decide (i ∈ l) then S (length (filter P l)) else length (filter P l).
Proof.
  intros Hnd Hiff HPi. induction Hnd as [|x l Hx Hnd IH].
  - done.
  - assert (∀ y, y ∈ l → (P' y ↔ P y ∨ y = i)) as Hiff'.
    { intros y Hy. apply Hiff. by right. }
    specialize (IH Hiff'). rewrite !filter_cons.
    pose proof (Hiff x (list_elem_of_here x l)) as Hx'.
    assert (i ∈ x :: l ↔ x = i ∨ i ∈ l) as Hin.
    { rewrite elem_of_cons. naive_solver. }
    repeat case_decide; simpl; rewrite ?IH; try done; exfalso; naive_solver.
Qed.

Section counting.
Context {V : Type}.

Lemma present_dense_from (pre l : list (option V)) :
  length (filter (λ flat, present (JList (pre ++ l)) flat)
                 (seqZ (Z.of_nat (length pre)) (Z.of_nat (length l))))
  = length (filter is_Some l).
Proof.
  revert pre. induction l as [|x l IH]; intros pre.
  - by rewrite seqZ_nil.
  - rewrite seqZ_cons by (simpl; lia).
    replace (Z.succ (Z.of_nat (length pre)))
      with (Z.of_nat (length (pre ++ [x]))) by (rewrite length_app; simpl; lia).
    replace (Z.pred (Z.of_nat (length (x :: l)))) with (Z.of_nat (length l))
      by (simpl; lia).
    rewrite !filter_cons. specialize (IH (pre ++ [x])).
    rewrite <- app_assoc in IH. simpl in IH.
    assert (present (JList (pre ++ x :: l)) (Z.of_nat (length pre))
            = bool_decide (is_Some x)) as Hx.
    { unfold present. simpl. rewrite list_getitem_nat, list_lookup_middle by done.
      by destruct x. }
    rewrite Hx. destruct (decide (is_Some x)).
    + rewrite decide_True by by apply bool_decide_pack. simpl. by rewrite IH.
    + rewrite decide_False by by intros ?%bool_decide_unpack. done.
Qed.

Lemma present_dense (l : list (option V)) :
  length (filter (λ flat, present (JList l) flat)
                 (seqZ 0 (Z.of_nat (length l))))
  = length (filter is_Some l).
Proof. apply (present_dense_from [] l). Qed.

Lemma present_sparse (d : gmap string (option V)) (total : Z) :
  map_Forall (λ k v, is_Some v ∧ is_flat_key total k) d →
  length (filter (λ flat, present (JDict d) flat) (seqZ 0 total)) = size d.
Proof.
  induction d as [|k v d Hk IH] using map_ind; intros Hall.
  - rewrite map_size_empty.
    induction (seqZ 0 total) as [|flat l IHl]; [done|].
    rewrite filter_cons_False; [done|].
    unfold present. simpl. rewrite lookup_empty. simpl. tauto.
  - apply map_Forall_insert in Hall as [[[v0 ->] Hkey] Hall]; [|done].
    apply list_elem_of_fmap in Hkey as (i & -> & Hi).
    rewrite map_size_insert_None by done. rewrite <- IH by done.
    rewrite (length_filter_extra (λ flat, present (JDict d) flat) _ i).
    + by rewrite decide_True.
    + apply NoDup_seqZ.
    + intros flat _. unfold present. simpl.
      destruct (decide (flat = i)) as [->|Hne].
      * rewrite lookup_insert_eq. simpl. split; [by right | done].
      * rewrite lookup_insert_ne; [split; [by left | by intros [|]]|].
        unfold str. intros ?%(inj pretty). done.
    + unfold present. simpl. rewrite Hk. simpl. tauto.
Qed.

End counting.

(** ** Decoding a well-formed cube *)

Section well_formed_decode.
Context {V : Type}.
Implicit Types (ds : JsonStat V) (js : Json V).

Lemma well_formed_dims_fits ds :
  well_formed_dims ds = true →
  ∃ cats, build_dim_categories (js_dimension ds) (js_id ds) = Ok cats ∧
          Forall2 (fits cats) (js_id ds) (js_size ds).
Proof.
  unfold well_formed_dims. intros [Hlen Hall]%andb_prop.
  apply bool_decide_eq_true_1 in Hlen.
  assert (∀ i name size, js_id ds !! i = Some name →
            js_size ds !! i = Some size →
            dimension_resolves (js_dimension ds) name size = true) as Hres.
  { intros i name size Hn Hs.
    rewrite forallb_forall in Hall. apply (Hall (name, size)).
    apply list_elem_of_In, (list_elem_of_lookup_2 _ i).
    apply lookup_zip_with_Some. eauto. }
  destruct (build_dim_categories_ok (js_dimension ds) (js_id ds)) as [cats Hb].
  { apply Forall_lookup. intros i name Hn.
    destruct (lookup_lt_is_Some_2 (js_size ds) i) as [size Hs].
    { rewrite <- Hlen. by eapply lookup_lt_Some. }
    specialize (Hres i name size Hn Hs). unfold dimension_resolves in Hres.
    destruct (categories_of _ name); [by eexists | done]. }
  exists cats. split; [done|].
  apply Forall2_same_length_lookup. split; [done|].
  intros i name size Hn Hs. specialize (Hres i name size Hn Hs).
  destruct (build_dim_categories_lookup _ _ _ name Hb) as (codes & Hc & Hl).
  { by eapply list_elem_of_lookup_2. }
  unfold dimension_resolves in Hres. rewrite Hc in Hres.
  exists codes. split; [done|]. by apply bool_decide_eq_true_1 in Hres.
Qed.

Lemma observations_total cats ds (l : list Z) :
  Forall2 (fits cats) (js_id ds) (js_size ds) →
  (∀ flat, flat ∈ l → 0 ≤ flat < product (js_size ds)) →
  (∀ flat, flat ∈ l → ∃ v, get_value_at (js_value ds) flat = Ok v) →
  ∃ os, mapM (observation_at cats ds) l = Ok os ∧
        length (omap id os)
        = length (filter (λ flat, present (js_value ds) flat) l) ∧
        Forall (λ row, ∃ v, row !! "value"%string = Some (Num v)) (omap id os).
Proof.
  intros Hfit. induction l as [|flat l IH]; intros Hrange Hval.
  - exists []. by repeat split.
  - destruct IH as (os & Hos & Hlen & Hrows).
    { intros. apply Hrange. by right. }
    { intros. apply Hval. by right. }
    destruct (label_coords_in_bounds (V:=V) cats _ _ flat ∅ Hfit)
      as [codes Hcodes]; [apply Hrange; by left|].
    destruct (Hval flat) as [v Hv]; [by left|].
    simpl. rewrite Hos. unfold observation_at at 1. rewrite Hcodes, Hv. simpl.
    eexists. split; [done|].
    assert (present (js_value ds) flat = bool_decide (is_Some v)) as Hp.
    { unfold present. rewrite Hv. by destruct v. }
    destruct v as [v|]; simpl.
    + rewrite filter_cons_True by by rewrite Hp.
      simpl. rewrite <- Hlen. split; [done|]. constructor; [|done].
      exists v. apply lookup_insert_eq.
    + rewrite filter_cons_False by (rewrite Hp; simpl; tauto). done.
Qed.

Lemma well_formed_values_ok ds flat :
  well_formed_values ds = true → 0 ≤ flat < product (js_size ds) →
  ∃ v, get_value_at (js_value ds) flat = Ok v.
Proof.
  unfold well_formed_values, get_value_at. intros Hwf Hflat.
  destruct (js_value ds) as [l|d|]; [|by eexists|done].
  apply bool_decide_eq_true_1 in Hwf.
  destruct (list_getitem_inside l flat) as (v & _ & ->); [lia|by eexists].
Qed.

Lemma well_formed_values_count ds :
  well_formed_values ds = true →
  length (filter (λ flat, present (js_value ds) flat)
                 (seqZ 0 (product (js_size ds))))
  = stored_values (js_value ds).
Proof.
  unfold well_formed_values, stored_values. intros Hwf.
  destruct (js_value ds) as [l|d|]; [| |done];
    apply bool_decide_eq_true_1 in Hwf.
  - rewrite <- Hwf. apply present_dense.
  - by apply present_sparse.
Qed.

End well_formed_decode.

(** ** Failing positions and value stores that do not match the sizes *)

Lemma mapM_ext_in {A B : Type} (f g : A → result B) (l : list A) :
  (∀ x, x ∈ l → f x = g x) → mapM f l = mapM g l.
Proof.
  induction l as [|x l IH]; intros Hfg; simpl; [done|].
  rewrite (Hfg x) by left. rewrite IH; [done|].
  intros. apply Hfg. by right.
Qed.

Lemma mapM_raise {A B : Type} (f : A → result B) (l1 l2 : list A) (x : A)
    (e : PyExc) :
  Forall (λ y, ∃ b, f y = Ok b) l1 → f x = Raise e →
  mapM f (l1 ++ x :: l2) = Raise e.
Proof.
  intros Hl1 Hx. induction Hl1 as [|y l1 [b Hy] _ IH]; simpl.
  - by rewrite Hx.
  - by rewrite Hy, IH.
Qed.

Section mismatch.
Context {V : Type}.
Implicit Types (ds : JsonStat V) (js : Json V).

Lemma observation_at_value cats ds flat :
  Forall2 (fits cats) (js_id ds) (js_size ds) →
  0 ≤ flat < product (js_size ds) →
  observation_at cats ds flat = Raise IndexError ∧
    get_value_at (js_value ds) flat = Raise IndexError ∨
  ∃ codes v, get_value_at (js_value ds) flat = Ok v ∧
    observation_at cats ds flat =
    Ok (match v with
        | None => None
        | Some v => Some (<["value"%string := Num v]> codes)
        end).
Proof.
  intros Hfit Hflat. unfold observation_at.
  destruct (label_coords_in_bounds (V:=V) cats _ _ flat ∅ Hfit Hflat)
    as [codes ->].
  simpl. destruct (get_value_at _ _) as [v|e] eqn:Hv; simpl.
  - right. by exists codes, v.
  - left. destruct (js_value ds); simpl in Hv; try done.
    by apply list_getitem_raise in Hv as ->.
Qed.

Lemma decode_other_store js :
  well_formed_dims (unwrap js) = true → js_value (unwrap js) = JOther →
  jsonstat_to_dataframe js = Ok [].
Proof.
  intros Hdims Hother.
  destruct (well_formed_dims_fits _ Hdims) as (cats & Hcats & Hfit).
  destruct (observations_total cats (unwrap js)
              (seqZ 0 (product (js_size (unwrap js)))) Hfit)
    as (os & Hos & Hlen & _).
  { intros flat Hin%elem_of_seqZ. lia. }
  { intros flat _. rewrite Hother. by eexists. }
  rewrite jsonstat_to_dataframe_rowmajor. unfold rowmajor_decode.
  rewrite Hcats. simpl. rewrite Hos. simpl. f_equal.
  apply length_zero_iff_nil. rewrite Hlen, Hother. clear.
  induction (seqZ 0 _) as [|flat l IH]; [done|].
  by rewrite filter_cons_False by (unfold present; simpl; tauto).
Qed.

Lemma decode_short_dense js (l : list (option V)) :
  well_formed_dims (unwrap js) = true → js_value (unwrap js) = JList l →
  Z.of_nat (length l) < product (js_size (unwrap js)) →
  jsonstat_to_dataframe js = Raise IndexError.
Proof.
  intros Hdims Hl Hshort.
  destruct (well_formed_dims_fits _ Hdims) as (cats & Hcats & Hfit).
  rewrite jsonstat_to_dataframe_rowmajor. unfold rowmajor_decode.
  rewrite Hcats. simpl.
  replace (product (js_size (unwrap js)))
    with (Z.of_nat (length l) +
          (product (js_size (unwrap js)) - Z.of_nat (length l))) by lia.
  rewrite seqZ_app, (seqZ_cons (0 + _)) by lia.
  rewrite (mapM_raise _ _ _ _ IndexError); [done| |].
  - apply Forall_seqZ. intros flat Hflat.
    destruct (observation_at_value cats (unwrap js) flat Hfit)
      as [[_ Hv]|(codes & v & _ & ->)]; [lia| |by eexists].
    rewrite Hl in Hv. simpl in Hv.
    destruct (list_getitem_inside l flat) as (? & _ & ?); [lia|congruence].
  - destruct (observation_at_value cats (unwrap js)
                (0 + Z.of_nat (length l)) Hfit)
      as [[-> _]|(codes & v & Hv & _)]; [lia|done|].
    rewrite Hl in Hv. simpl in Hv.
    rewrite list_getitem_outside in Hv by lia. done.
Qed.

Lemma decode_long_dense ds (l : list (option V)) :
  js_value ds = JList l →
  product (js_size ds) ≤ Z.of_nat (length l) →
  jsonstat_to_dataframe (Bare ds) =
  jsonstat_to_dataframe
    (Bare (with_value ds (JList (take (Z.to_nat (product (js_size ds))) l)))).
Proof.
  intros Hl Hlong. rewrite !jsonstat_to_dataframe_rowmajor.
  unfold rowmajor_decode. simpl.
  destruct (build_dim_categories _ _) as [cats|e]; simpl; [|done].
  f_equal. apply mapM_ext_in. intros flat Hflat%elem_of_seqZ.
  unfold observation_at. simpl. rewrite Hl. simpl.
  destruct (label_coords _ _ _ _) as [codes|e]; simpl; [|done].
  unfold list_getitem. rewrite length_take.
  repeat case_bool_decide; try lia.
  by rewrite lookup_take_lt by lia.
Qed.

End mismatch.

(** ** The keys of a sparse store that the decoder reads *)

Lemma is_flat_key_str (total : Z) (k : string) :
  is_flat_key total k ↔ ∃ i, 0 ≤ i < total ∧ k = str i.
Proof.
  unfold is_flat_key. rewrite list_elem_of_fmap.
  setoid_rewrite elem_of_seqZ. split.
  - intros (i & -> & Hi). exists i. split; [lia|done].
  - intros (i & Hi & ->). exists i. split; [done|lia].
Qed.

Lemma get_value_at_flat_keys_only {V : Type} (d : gmap string (option V))
    (total flat : Z) :
  0 ≤ flat < total →
  get_value_at (JDict (flat_keys_only total d)) flat =
  get_value_at (JDict d) flat.
Proof.
  intros Hflat. simpl. f_equal. f_equal. unfold flat_keys_only.
  rewrite map_lookup_filter. destruct (d !! str flat) as [v|]; simpl; [|done].
  rewrite option_guard_True; [done|].
  simpl. apply is_flat_key_str. by exists flat.
Qed.

Lemma decode_flat_keys_only {V : Type} (ds : JsonStat V)
    (d : gmap string (option V)) :
  jsonstat_to_dataframe
    (Bare (with_value ds (JDict (flat_keys_only (product (js_size ds)) d)))) =
  jsonstat_to_dataframe (Bare (with_value ds (JDict d))).
Proof.
  rewrite !jsonstat_to_dataframe_rowmajor. unfold rowmajor_decode. simpl.
  destruct (build_dim_categories _ _) as [cats|e]; simpl; [|done].
  f_equal. apply mapM_ext_in. intros flat Hflat%elem_of_seqZ.
  unfold observation_at.
  change (js_id (with_value ds ?v)) with (js_id ds).
  change (js_size (with_value ds ?v)) with (js_size ds).
  change (js_value (with_value ds ?v)) with v.
  rewrite get_value_at_flat_keys_only by lia. done.
Qed.

(** ** Coordinates outside a category list *)

Lemma mapM_raise_all {A B : Type} (f : A → result B) (l : list A) (x : A)
    (e : PyExc) :
  (∀ y e', y ∈ l → f y = Raise e' → e' = e) →
  x ∈ l → f x = Raise e → mapM f l = Raise e.
Proof.
  intros Hall Hx Hfx. induction l as [|y l IH]; [by apply elem_of_nil in Hx|].
  simpl. destruct (f y) as [b|e'] eqn:Hy; simpl.
  - rewrite IH; [done| |].
    + intros z e' Hz. apply Hall. by right.
    + apply elem_of_cons in Hx as [->|Hx]; [congruence|done].
  - f_equal. apply (Hall y); [by left|done].
Qed.

Section outside.
Context {V : Type}.
Implicit Types (cats : gmap string (list string)) (codes : gmap string (Cell V)).

Lemma label_coords_raise cats ids coords codes e :
  (∀ name, name ∈ ids → is_Some (cats !! name)) →
  label_coords cats ids coords codes = Raise e → e = IndexError.
Proof.
  revert ids codes. induction coords as [|c coords IH]; intros ids codes Hcats;
    simpl; [done|].
  destruct ids as [|name ids]; [congruence|].
  destruct (Hcats name) as [cl Hcl]; [by left|].
  unfold dict_getitem. rewrite Hcl. simpl.
  destruct (list_getitem cl c) as [code|e'] eqn:Hc; simpl.
  - apply IH. intros. apply Hcats. by right.
  - intros [= <-]. by apply list_getitem_raise in Hc.
Qed.

Lemma label_coords_outside cats ids coords codes (k : nat) name c cl :
  (∀ name, name ∈ ids → is_Some (cats !! name)) →
  ids !! k = Some name → coords !! k = Some c → cats !! name = Some cl →
  Z.of_nat (length cl) ≤ c ∨ c < - Z.of_nat (length cl) →
  label_coords cats ids coords codes = Raise IndexError.
Proof.
  intros Hcats Hid Hc Hcl Hout. revert ids coords codes Hcats Hid Hc.
  induction k as [|k IH]; intros [|n0 ids] [|c0 coords] codes Hcats Hid Hc;
    simplify_eq/=.
  - unfold dict_getitem. rewrite Hcl. simpl.
    by rewrite list_getitem_outside.
  - destruct (Hcats n0) as [cl0 Hcl0]; [by left|].
    unfold dict_getitem. rewrite Hcl0. simpl.
    destruct (list_getitem cl0 c0) as [code|e] eqn:Hc0; simpl.
    + apply IH; [|done..]. intros. apply Hcats. by right.
    + by apply list_getitem_raise in Hc0 as ->.
Qed.

Lemma observation_at_raise cats (ds : JsonStat V) flat e :
  (∀ name, name ∈ js_id ds → is_Some (cats !! name)) →
  observation_at cats ds flat = Raise e → e = IndexError.
Proof.
  intros Hcats. unfold observation_at.
  destruct (label_coords _ _ _ _) as [codes|e'] eqn:Hl; simpl.
  - destruct (get_value_at _ _) as [v|e'] eqn:Hv; simpl; [done|].
    intros [= <-]. destruct (js_value ds); simpl in Hv; try done.
    by apply list_getitem_raise in Hv.
  - intros [= <-]. by apply label_coords_raise in Hl.
Qed.

Lemma decode_coordinate_outside (js : Json V) cats flat (k : nat) name c cl :
  build_dim_categories (js_dimension (unwrap js)) (js_id (unwrap js)) = Ok cats →
  0 ≤ flat < compute_n_obs (js_size (unwrap js)) →
  successive_divmod flat (compute_strides (js_size (unwrap js))) !! k = Some c →
  js_id (unwrap js) !! k = Some name →
  cats !! name = Some cl →
  Z.of_nat (length cl) ≤ c ∨ c < - Z.of_nat (length cl) →
  jsonstat_to_dataframe js = Raise IndexError.
Proof.
  intros Hb Hflat Hc Hid Hcl Hout.
  rewrite compute_n_obs_product in Hflat.
  rewrite compute_strides_rowmajor in Hc.
  assert (∀ name, name ∈ js_id (unwrap js) → is_Some (cats !! name)) as Hcats.
  { intros n Hn.
    destruct (build_dim_categories_lookup _ _ _ n Hb Hn) as (? & _ & ->).
    by eexists. }
  rewrite jsonstat_to_dataframe_rowmajor. unfold rowmajor_decode.
  rewrite Hb. simpl.
  rewrite (mapM_raise_all _ _ flat IndexError); [done| | |].
  - intros y e _. by apply observation_at_raise.
  - apply elem_of_seqZ. lia.
  - unfold observation_at.
    by erewrite label_coords_outside.
Qed.

End outside.

Lemma successive_divmod_nonneg (sizes : list Z) (flat : Z) :
  Forall (λ s, 0 ≤ s) sizes → 0 ≤ flat < product sizes →
  Forall (λ c, 0 ≤ c) (successive_divmod flat (rowmajor_strides sizes)).
Proof.
  intros Hs. revert flat. induction Hs as [|s sizes Hs0 Hs IH]; intros flat Hf.
  - constructor.
  - rewrite rowmajor_strides_cons. simpl in *.
    assert (0 ≤ product sizes) as Hp.
    { clear -Hs. induction Hs; simpl; lia. }
    assert (0 < product sizes) as Hp' by nia.
    constructor; [apply Z.div_pos; lia|].
    apply IH. by apply Z.mod_pos_bound.
Qed.

(** ** A dimension without categories and of size 1 *)

Lemma result_rel_bind {A A' B B' : Type} (R : A → A' → Prop)
    (S : B → B' → Prop) (m : result A) (m' : result A')
    (k : A → result B) (k' : A' → result B') :
  result_rel R m m' → (∀ a a', R a a' → result_rel S (k a) (k' a')) →
  result_rel S (m ≫= k) (m' ≫= k').
Proof.
  destruct m as [a|e], m' as [a'|e']; simpl; try done.
  intros HR Hk. by apply Hk.
Qed.

Lemma result_rel_mapM {A B B' : Type} (R : B → B' → Prop)
    (f : A → result B) (g : A → result B') (l : list A) :
  (∀ x, x ∈ l → result_rel R (f x) (g x)) →
  result_rel (Forall2 R) (mapM f l) (mapM g l).
Proof.
  induction l as [|x l IH]; intros Hfg; simpl; [constructor|].
  apply (result_rel_bind R); [apply Hfg; by left|].
  intros b b' Hb. apply (result_rel_bind (Forall2 R)).
  - apply IH. intros. apply Hfg. by right.
  - intros bs bs' Hbs. simpl. by constructor.
Qed.

Lemma Forall2_omap_id {B B' : Type} (R : B → B' → Prop)
    (os : list (option B)) (os' : list (option B')) :
  Forall2 (option_Forall2 R) os os' → Forall2 R (omap id os) (omap id os').
Proof.
  induction 1 as [|o o' os os' Ho _ IH]; simpl; [constructor|].
  destruct Ho; simpl; [by constructor | done].
Qed.

Lemma no_categories_placeholder dim name :
  no_categories dim name = true → categories_of dim name = Ok placeholder.
Proof.
  unfold no_categories, categories_of, dict_getitem.
  destruct (dim !! name) as [d|]; simpl; [|done].
  destruct (category d) as [cat|]; simpl; [|done].
  destruct (default [] (index cat)); [|done]. intros _.
  unfold ordered_codes_of, pos_to_code_of. simpl.
  by rewrite map_to_list_empty.
Qed.

Lemma list_getitem_placeholder (c : Z) (code : string) :
  list_getitem placeholder c = Ok code → code = "_missing_"%string.
Proof.
  unfold list_getitem, placeholder. simpl.
  repeat case_bool_decide; try done.
  all: destruct (Z.to_nat _) as [|[|n]]; simpl; congruence.
Qed.

Lemma product_app (l1 l2 : list Z) :
  product (l1 ++ l2) = product l1 * product l2.
Proof. induction l1 as [|s l1 IH]; simpl; [lia|]. rewrite IH. lia. Qed.

Lemma product_skip_one (l1 l2 : list Z) :
  product (l1 ++ 1 :: l2) = product (l1 ++ l2).
Proof. rewrite !product_app. simpl. lia. Qed.

Section placeholder_dimension.
Context {V : Type} (d : string).
Implicit Types (cats : gmap string (list string)) (codes : gmap string (Cell V)).

Lemma build_from_skip dim (ids : list string)
    (acc acc' : gmap string (list string)) :
  categories_of dim d = Ok placeholder →
  (∀ name, name ≠ d → acc !! name = acc' !! name) →
  acc !! d = Some placeholder →
  result_rel (λ cats cats', (∀ name, name ≠ d → cats !! name = cats' !! name) ∧
                            cats !! d = Some placeholder)
    (foldM (λ dim_categories dim_name,
              codes ← categories_of dim dim_name;
              Ok (<[dim_name := codes]> dim_categories)) acc ids)
    (foldM (λ dim_categories dim_name,
              codes ← categories_of dim dim_name;
              Ok (<[dim_name := codes]> dim_categories)) acc' ids).
Proof.
  intros Hd. revert acc acc'.
  induction ids as [|x ids IH]; intros acc acc' Hagree Hacc; simpl;
    [by split|].
  destruct (categories_of dim x) as [codes|e] eqn:Hx; simpl; [|done].
  apply IH.
  - intros name Hne. destruct (decide (x = name)) as [->|Hxn].
    + by rewrite !lookup_insert_eq.
    + rewrite !lookup_insert_ne by done. by apply Hagree.
  - destruct (decide (x = d)) as [->|Hxd].
    + rewrite lookup_insert_eq. congruence.
    + by rewrite lookup_insert_ne.
Qed.

Lemma build_dim_categories_skip dim (ids1 ids2 : list string) :
  categories_of dim d = Ok placeholder →
  result_rel (λ cats cats',
                (∀ name, name ∈ ids1 ++ ids2 → cats !! name = cats' !! name) ∧
                cats !! d = Some placeholder)
    (build_dim_categories dim (ids1 ++ d :: ids2))
    (build_dim_categories dim (ids1 ++ ids2)).
Proof.
  intros Hd.
  assert (result_rel
            (λ cats cats', (∀ name, name ≠ d → cats !! name = cats' !! name) ∧
                           cats !! d = Some placeholder)
            (build_dim_categories dim (ids1 ++ d :: ids2))
            (build_dim_categories dim (ids1 ++ ids2))) as Hrel.
  { unfold build_dim_categories. rewrite !foldM_app.
    destruct (foldM _ ∅ ids1) as [c1|e1]; simpl; [|done].
    rewrite Hd. simpl. apply build_from_skip; [done| |].
    - intros. by apply lookup_insert_ne.
    - apply lookup_insert_eq. }
  destruct (build_dim_categories dim (ids1 ++ ids2)) as [cats'|e'] eqn:Hb';
    destruct (build_dim_categories dim (ids1 ++ d :: ids2)) as [cats|e];
    simpl in *; try done.
  destruct Hrel as [Hagree Hcd]. split; [|done]. intros name Hin.
  destruct (decide (name = d)) as [->|Hne]; [|by apply Hagree].
  destruct (build_dim_categories_lookup dim _ _ d Hb' Hin) as (codes & Hc & ->).
  congruence.
Qed.

Lemma label_coords_after cats cats' (ids : list string) (coords : list Z)
    codes codes' :
  (∀ name, name ∈ ids → cats !! name = cats' !! name) →
  cats !! d = Some placeholder →
  agree_with_placeholder d codes codes' →
  result_rel (agree_with_placeholder d)
    (label_coords cats ids coords codes) (label_coords cats' ids coords codes').
Proof.
  intros Hcats Hd. revert ids codes codes' Hcats.
  induction coords as [|c coords IH]; intros ids codes codes' Hcats Hcodes;
    simpl; [done|].
  destruct ids as [|name ids]; [done|].
  unfold dict_getitem. rewrite <- (Hcats name) by left.
  destruct (cats !! name) as [cl|] eqn:Hcl; simpl; [|done].
  destruct (list_getitem cl c) as [code|e] eqn:Hc; simpl; [|done].
  apply IH; [intros; apply Hcats; by right|].
  destruct Hcodes as [Hagree Hcd]. split.
  - intros n Hn. destruct (decide (name = n)) as [->|Hne].
    + by rewrite !lookup_insert_eq.
    + rewrite !lookup_insert_ne by done. by apply Hagree.
  - destruct (decide (name = d)) as [->|Hne].
    + rewrite lookup_insert_eq. do 2 f_equal.
      apply (list_getitem_placeholder c). congruence.
    + by rewrite lookup_insert_ne.
Qed.

Lemma label_coords_skip cats cats' (sz1 sz2 : list Z) (ids1 ids2 : list string)
    (r : Z) codes codes' :
  length ids1 = length sz1 →
  (∀ name, name ∈ ids1 ++ ids2 → cats !! name = cats' !! name) →
  cats !! d = Some placeholder →
  product (sz1 ++ sz2) ≠ 0 →
  0 ≤ r < product (sz1 ++ sz2) ∨ product (sz1 ++ sz2) < r ≤ 0 →
  agree_but d codes codes' →
  result_rel (agree_with_placeholder d)
    (label_coords cats (ids1 ++ d :: ids2)
       (successive_divmod r (rowmajor_strides (sz1 ++ 1 :: sz2))) codes)
    (label_coords cats' (ids1 ++ ids2)
       (successive_divmod r (rowmajor_strides (sz1 ++ sz2))) codes').
Proof.
  intros Hlen Hcats Hd. revert ids1 r codes codes' Hlen Hcats.
  induction sz1 as [|s sz1 IH];
    intros [|name ids1] r codes codes' Hlen Hcats Hp Hr Hagree;
    try discriminate Hlen.
  - rewrite !app_nil_l in *. rewrite rowmajor_strides_cons. simpl.
    rewrite (proj2 (Z.div_small_iff r _ Hp) Hr).
    rewrite (proj2 (Z.mod_small_iff r _ Hp) Hr).
    unfold dict_getitem. rewrite Hd. simpl.
    apply label_coords_after; [done..|]. split.
    + intros n Hn. rewrite lookup_insert_ne by done. by apply Hagree.
    + apply lookup_insert_eq.
  - rewrite <- !app_comm_cons in *.
    rewrite !rowmajor_strides_cons, product_skip_one. simpl in *.
    unfold dict_getitem. rewrite <- (Hcats name) by left.
    destruct (cats !! name) as [cl|] eqn:Hcl; simpl; [|done].
    destruct (list_getitem cl _) as [code|e] eqn:Hc; simpl; [|done].
    assert (product (sz1 ++ sz2) ≠ 0) as Hp' by lia.
    apply IH; [lia| |done| |].
    + intros. apply Hcats. by right.
    + destruct (Z.lt_total 0 (product (sz1 ++ sz2))) as [?|[?|?]]; [|lia|].
      * left. by apply Z.mod_pos_bound.
      * right. by apply Z.mod_neg_bound.
    + intros n Hn. destruct (decide (name = n)) as [->|Hne].
      * by rewrite !lookup_insert_eq.
      * rewrite !lookup_insert_ne by done. by apply Hagree.
Qed.

End placeholder_dimension.

Section placeholder_decode.
Context {V : Type} (d : string).

Lemma decode_skip_placeholder dim (value : JValue V) (ids1 ids2 : list string)
    (sz1 sz2 : list Z) :
  length ids1 = length sz1 →
  categories_of dim d = Ok placeholder →
  result_rel (Forall2 (row_with_placeholder d))
    (jsonstat_to_dataframe
       (Bare {| js_dimension := dim; js_value := value;
                js_id := ids1 ++ d :: ids2; js_size := sz1 ++ 1 :: sz2 |}))
    (jsonstat_to_dataframe
       (Bare {| js_dimension := dim; js_value := value;
                js_id := ids1 ++ ids2; js_size := sz1 ++ sz2 |})).
Proof.
  intros Hlen Hd. rewrite !jsonstat_to_dataframe_rowmajor.
  unfold rowmajor_decode. simpl.
  eapply result_rel_bind; [by apply build_dim_categories_skip|].
  intros cats cats' [Hcats Hcd]. rewrite product_skip_one.
  eapply result_rel_bind.
  2: { intros os os' Hos. simpl. apply Forall2_omap_id, Hos. }
  apply result_rel_mapM. intros flat Hflat%elem_of_seqZ.
  unfold observation_at. simpl.
  eapply result_rel_bind.
  { apply (label_coords_skip d); try done; [lia | left; lia]. }
  intros codes codes' [Hagree Hcodes].
  destruct (get_value_at value flat) as [[v|]|e]; simpl; [|constructor|done].
  constructor. split.
  - intros name Hne. destruct (decide (name = "value"%string)) as [->|Hv].
    + by rewrite !lookup_insert_eq.
    + rewrite !lookup_insert_ne by done. by apply Hagree.
  - intros Hv. by rewrite lookup_insert_ne.
Qed.

Lemma decode_without_placeholder (ds : JsonStat V) (k : nat) :
  js_id ds !! k = Some d → js_size ds !! k = Some 1 →
  no_categories (js_dimension ds) d = true →
  result_rel (Forall2 (row_with_placeholder d))
    (jsonstat_to_dataframe (Bare ds))
    (jsonstat_to_dataframe (Bare (without_dimension k ds))).
Proof.
  intros Hid Hsize Hno. apply no_categories_placeholder in Hno.
  destruct ds as [dim value ids sizes]. unfold without_dimension. simpl in *.
  rewrite !delete_take_drop.
  replace {| js_dimension := dim; js_value := value;
             js_id := ids; js_size := sizes |}
    with {| js_dimension := dim; js_value := value;
            js_id := take k ids ++ d :: drop (S k) ids;
            js_size := take k sizes ++ 1 :: drop (S k) sizes |}
    by (f_equal; by apply take_drop_middle).
  apply decode_skip_placeholder; [|done].
  apply lookup_lt_Some in Hid, Hsize. rewrite !length_take. lia.
Qed.

End placeholder_decode.

(** ** The largest of a list of integers *)

Lemma foldl_max_bound (k : Z) (ks : list Z) :
  (∀ x, x ∈ k :: ks → x ≤ foldl Z.max k ks) ∧ foldl Z.max k ks ∈ k :: ks.
Proof.
  revert k. induction ks as [|y ks IH]; intros k; simpl.
  - split; [|by left]. intros x ->%list_elem_of_singleton. lia.
  - destruct (IH (Z.max k y)) as [Hle Hin]. split.
    + intros x Hx. pose proof (Hle (Z.max k y) (list_elem_of_here _ _)).
      apply elem_of_cons in Hx as [->|Hx]; [lia|].
      apply elem_of_cons in Hx as [->|Hx]; [lia|].
      apply Hle. by right.
    + apply elem_of_cons in Hin as [->|Hin].
      * destruct (Z.max_spec k y) as [[_ ->]|[_ ->]];
          [right; by left | by left].
      * right. by right.
Qed.

(** ** Runs on the heap *)

Section heap_run.
Context {V : Type}.
Implicit Types (h : list (Obj V)) (v : Val V) (items : list (Key * Val V)).

Lemma preserves_refl W h : preserves W h h.
Proof. by split. Qed.

Lemma preserves_trans W h h1 h2 :
  preserves W h h1 → preserves W h1 h2 → preserves W h h2.
Proof.
  intros [Hl1 H1] [Hl2 H2]. split; [lia|].
  intros l Hl HW. rewrite H2 by (done || lia). by apply H1.
Qed.

(** The places that a later part of a run writes to may be places that
    the earlier part made. *)
Lemma preserves_fresh W W1 h h1 h2 :
  preserves W h h1 → preserves W1 h1 h2 →
  (∀ l, l ∈ W1 → l ∈ W ∨ (length h ≤ l)%nat) →
  preserves W h h2.
Proof.
  intros [Hl1 H1] [Hl2 H2] HW. split; [lia|].
  intros l Hl Hn. rewrite H2; [by apply H1 | lia |].
  intros Hin. destruct (HW l Hin); [done | lia].
Qed.

Lemma preserves_alloc W h (o : Obj V) : preserves W h (h ++ [o]).
Proof.
  split; [rewrite length_app; lia|]. intros l Hl _. by apply lookup_app_l.
Qed.

Lemma preserves_store W h (l : nat) (o : Obj V) :
  l ∈ W → preserves W h (<[l := o]> h).
Proof.
  intros Hin. split; [by rewrite length_insert|].
  intros l' _ Hn. apply list_lookup_insert_ne. by intros ->.
Qed.

Lemma preserves_lookup W h h' (l : nat) (o : Obj V) :
  preserves W h h' → h !! l = Some o → l ∉ W → h' !! l = Some o.
Proof.
  intros [_ Hp] Hl Hn. rewrite Hp; [done| |done].
  by eapply lookup_lt_Some.
Qed.

Lemma preserves_weaken W W' h h' :
  preserves W h h' → (∀ l, l ∈ W → l ∈ W') → preserves W' h h'.
Proof. intros [Hl Hp] HW. split; [done|]. intros l ? Hn. apply Hp; auto. Qed.

(** When nothing that existed is written, the heap is the old one and new
    objects after it. *)
Lemma preserves_nil_app h h' : preserves [] h h' → ∃ new, h' = h ++ new.
Proof.
  intros [Hlen Hp]. exists (drop (length h) h').
  rewrite <- (take_drop (length h) h') at 1. f_equal.
  apply list_eq. intros i. destruct (decide (i < length h)%nat) as [Hi|Hi].
  - rewrite lookup_take_lt by done. apply Hp; [done|]. apply not_elem_of_nil.
  - rewrite lookup_take_ge by lia. symmetry. apply lookup_ge_None. lia.
Qed.

Lemma heap_bind_Ok {A B : Type} (m : Heap V A) (f : A → Heap V B) h a h' :
  m h = Some (Ok a, h') → (m ≫= f) h = f a h'.
Proof. intros Hm. unfold mbind, heap_bind. by rewrite Hm. Qed.

Lemma heap_bind_Raise {A B : Type} (m : Heap V A) (f : A → Heap V B) h e h' :
  m h = Some (Raise e, h') → (m ≫= f) h = Some (Raise e, h').
Proof. intros Hm. unfold mbind, heap_bind. by rewrite Hm. Qed.

Lemma as_dict_run h (l : nat) items :
  h !! l = Some (ODict items) → as_dict (VRef l) h = Some (Ok items, h).
Proof.
  intros Hl. unfold as_dict, load, mbind, heap_bind. by rewrite Hl.
Qed.

Lemma as_list_run h (l : nat) (vs : list (Val V)) :
  h !! l = Some (OList vs) → as_list (VRef l) h = Some (Ok vs, h).
Proof.
  intros Hl. unfold as_list, load, mbind, heap_bind. by rewrite Hl.
Qed.

Lemma as_key_run h (k : Key) : as_key (key_val (V:=V) k) h = Some (Ok k, h).
Proof. by destruct k. Qed.

Lemma dict_getitem_h_run h (l : nat) items (k : Key) :
  h !! l = Some (ODict items) →
  dict_getitem_h (VRef l) (key_val k) h
  = Some (from_option Ok (Raise KeyError) (dict_find k items), h).
Proof.
  intros Hl. unfold dict_getitem_h.
  rewrite (heap_bind_Ok _ _ _ _ _ (as_dict_run _ _ _ Hl)).
  by rewrite (heap_bind_Ok _ _ _ _ _ (as_key_run _ _)).
Qed.

Lemma dict_get_run h (l : nat) items (k : Key) (default : Val V) :
  h !! l = Some (ODict items) →
  dict_get (VRef l) (key_val k) default h
  = Some (Ok (from_option id default (dict_find k items)), h).
Proof.
  intros Hl. unfold dict_get.
  rewrite (heap_bind_Ok _ _ _ _ _ (as_dict_run _ _ _ Hl)).
  by rewrite (heap_bind_Ok _ _ _ _ _ (as_key_run _ _)).
Qed.

Lemma dict_contains_run h (l : nat) items (k : Key) :
  h !! l = Some (ODict items) →
  dict_contains (VRef l) (key_val k) h
  = Some (Ok (bool_decide (is_Some (dict_find k items))), h).
Proof.
  intros Hl. unfold dict_contains.
  rewrite (heap_bind_Ok _ _ _ _ _ (as_dict_run _ _ _ Hl)).
  by rewrite (heap_bind_Ok _ _ _ _ _ (as_key_run _ _)).
Qed.

Lemma dict_setitem_run h (l : nat) items (k : Key) (x : Val V) :
  h !! l = Some (ODict items) →
  dict_setitem (VRef l) (key_val k) x h
  = Some (Ok tt, <[l := ODict (dict_set k x items)]> h).
Proof.
  intros Hl. unfold dict_setitem.
  rewrite (heap_bind_Ok _ _ _ _ _ (as_dict_run _ _ _ Hl)).
  rewrite (heap_bind_Ok _ _ _ _ _ (as_key_run _ _)).
  unfold store. rewrite decide_True; [done|]. by eapply lookup_lt_Some.
Qed.

Lemma dict_getitem_h_str h (l : nat) items (s : string) :
  h !! l = Some (ODict items) →
  dict_getitem_h (VRef l) (VStr s) h
  = Some (from_option Ok (Raise KeyError) (dict_find (KStr s) items), h).
Proof. apply (dict_getitem_h_run h l items (KStr s)). Qed.

Lemma dict_getitem_h_int h (l : nat) items (n : Z) :
  h !! l = Some (ODict items) →
  dict_getitem_h (VRef l) (VInt n) h
  = Some (from_option Ok (Raise KeyError) (dict_find (KInt n) items), h).
Proof. apply (dict_getitem_h_run h l items (KInt n)). Qed.

Lemma dict_get_str h (l : nat) items (s : string) (default : Val V) :
  h !! l = Some (ODict items) →
  dict_get (VRef l) (VStr s) default h
  = Some (Ok (from_option id default (dict_find (KStr s) items)), h).
Proof. apply (dict_get_run h l items (KStr s)). Qed.

Lemma dict_contains_str h (l : nat) items (s : string) :
  h !! l = Some (ODict items) →
  dict_contains (VRef l) (VStr s) h
  = Some (Ok (bool_decide (is_Some (dict_find (KStr s) items))), h).
Proof. apply (dict_contains_run h l items (KStr s)). Qed.

Lemma dict_setitem_str h (l : nat) items (s : string) (x : Val V) :
  h !! l = Some (ODict items) →
  dict_setitem (VRef l) (VStr s) x h
  = Some (Ok tt, <[l := ODict (dict_set (KStr s) x items)]> h).
Proof. apply (dict_setitem_run h l items (KStr s)). Qed.

Lemma dict_setitem_int h (l : nat) items (n : Z) (x : Val V) :
  h !! l = Some (ODict items) →
  dict_setitem (VRef l) (VInt n) x h
  = Some (Ok tt, <[l := ODict (dict_set (KInt n) x items)]> h).
Proof. apply (dict_setitem_run h l items (KInt n)). Qed.

Lemma dict_copy_run h (l : nat) items :
  h !! l = Some (ODict items) →
  dict_copy (VRef l) h = Some (Ok (VRef (length h)), h ++ [ODict items]).
Proof.
  intros Hl. unfold dict_copy.
  by rewrite (heap_bind_Ok _ _ _ _ _ (as_dict_run _ _ _ Hl)).
Qed.

Lemma list_getitem_h_run h (l : nat) (vs : list (Val V)) (i : Z) :
  h !! l = Some (OList vs) →
  list_getitem_h (VRef l) (VInt i) h = Some (list_getitem vs i, h).
Proof.
  intros Hl. unfold list_getitem_h.
  by rewrite (heap_bind_Ok _ _ _ _ _ (as_list_run _ _ _ Hl)).
Qed.

Lemma list_insert0_run h (l : nat) (vs : list (Val V)) (x : Val V) :
  h !! l = Some (OList vs) →
  list_insert0 (VRef l) x h = Some (Ok tt, <[l := OList (x :: vs)]> h).
Proof.
  intros Hl. unfold list_insert0.
  rewrite (heap_bind_Ok _ _ _ _ _ (as_list_run _ _ _ Hl)).
  unfold store. rewrite decide_True; [done|]. by eapply lookup_lt_Some.
Qed.

Lemma list_append_run h (l : nat) (vs : list (Val V)) (x : Val V) :
  h !! l = Some (OList vs) →
  list_append (VRef l) x h = Some (Ok tt, <[l := OList (vs ++ [x])]> h).
Proof.
  intros Hl. unfold list_append.
  rewrite (heap_bind_Ok _ _ _ _ _ (as_list_run _ _ _ Hl)).
  unfold store. rewrite decide_True; [done|]. by eapply lookup_lt_Some.
Qed.

Lemma lookup_alloc h (o : Obj V) : (h ++ [o]) !! length h = Some o.
Proof. by apply list_lookup_middle. Qed.

(** *** Dictionaries *)

Lemma dict_find_set_eq (k : Key) (x : Val V) items :
  dict_find k (dict_set k x items) = Some x.
Proof.
  induction items as [|[k' x'] items IH]; simpl.
  - by rewrite decide_True.
  - destruct (decide (k = k')) as [->|Hne]; simpl.
    + by rewrite decide_True.
    + by rewrite decide_False.
Qed.

Lemma dict_find_set_ne (k k' : Key) (x : Val V) items :
  k ≠ k' → dict_find k' (dict_set k x items) = dict_find k' items.
Proof.
  intros Hne. induction items as [|[k0 x0] items IH]; simpl.
  - by rewrite decide_False.
  - destruct (decide (k = k0)) as [->|Hne0]; simpl.
    + by rewrite !decide_False.
    + destruct (decide (k' = k0)); [done|]. apply IH.
Qed.

Lemma dict_set_keys (k k' : Key) (x : Val V) items :
  k' ∈ (dict_set k x items).*1 ↔ k' = k ∨ k' ∈ items.*1.
Proof.
  induction items as [|[k0 x0] items IH]; simpl.
  - rewrite list_elem_of_singleton, elem_of_nil. tauto.
  - destruct (decide (k = k0)) as [->|Hne]; simpl.
    + rewrite !elem_of_cons. tauto.
    + rewrite !elem_of_cons, IH. tauto.
Qed.

Lemma dict_find_None (k : Key) items :
  dict_find k items = None ↔ k ∉ items.*1.
Proof.
  induction items as [|[k0 x0] items IH]; simpl.
  - split; [intros _; apply not_elem_of_nil | done].
  - rewrite not_elem_of_cons. destruct (decide (k = k0)) as [->|Hne].
    + split; [done | by intros [? _]].
    + rewrite IH. tauto.
Qed.

(** *** The category list of a dimension *)

Lemma holds_positions_empty : holds_positions (V:=V) [] ∅.
Proof. split; [by intros k ?%elem_of_nil | done]. Qed.

Lemma holds_positions_set items (m : gmap Z string) (p : Z) (code : string) :
  holds_positions items m →
  holds_positions (dict_set (KInt p) (VStr code) items) (<[p := code]> m).
Proof.
  intros [Hkeys Hfind]. split.
  - intros k [->|Hk]%dict_set_keys; [by eexists | by apply Hkeys].
  - intros q. destruct (decide (p = q)) as [->|Hne].
    + by rewrite dict_find_set_eq, lookup_insert_eq.
    + rewrite dict_find_set_ne by congruence.
      by rewrite lookup_insert_ne.
Qed.

Lemma pos_to_code_loop (idx : list (string * Z)) h (lp : nat) items
    (m : gmap Z string) :
  h !! lp = Some (ODict items) → holds_positions items m →
  ∃ h' items',
    for_each (λ _ '(code, pos), dict_setitem (VRef lp) pos (key_val code))
             tt (index_items idx) h = Some (Ok tt, h') ∧
    preserves [lp] h h' ∧
    h' !! lp = Some (ODict items') ∧
    holds_positions items'
      (foldl (λ m '(code, pos), <[pos := code]> m) m idx).
Proof.
  revert h items m. induction idx as [|[code p] idx IH]; intros h items m Hl Hm.
  - exists h, items. split; [done|]. split; [apply preserves_refl | done].
  - cbn [index_items fmap list_fmap for_each foldl].
    rewrite (heap_bind_Ok _ _ _ _ _ (dict_setitem_int _ _ _ _ _ Hl)).
    destruct (IH (<[lp := ODict (dict_set (KInt p) (VStr code) items)]> h)
                 (dict_set (KInt p) (VStr code) items) (<[p := code]> m))
      as (h' & items' & Hrun & Hpres & Hl' & Hm').
    { apply list_lookup_insert_eq. by eapply lookup_lt_Some. }
    { by apply holds_positions_set. }
    exists h', items'. split; [exact Hrun|]. split; [|done].
    eapply preserves_trans; [|exact Hpres].
    apply preserves_store. by left.
Qed.

Lemma h_pos_to_code_of_run h (li : nat) (idx : list (string * Z)) :
  h !! li = Some (ODict (index_items idx)) →
  ∃ h' items,
    h_pos_to_code_of (VRef li) h = Some (Ok (VRef (length h)), h') ∧
    preserves [] h h' ∧
    h' !! length h = Some (ODict items) ∧
    holds_positions items (pos_to_code_of idx).
Proof.
  intros Hli. unfold h_pos_to_code_of.
  rewrite (heap_bind_Ok _ _ _ (VRef (length h)) (h ++ [ODict []]) eq_refl).
  rewrite (heap_bind_Ok _ _ _ _ _
             (as_dict_run _ _ _ (lookup_app_l_Some _ _ _ _ Hli))).
  destruct (pos_to_code_loop idx (h ++ [ODict []]) (length h) [] ∅)
    as (h' & items & Hrun & Hpres & Hl & Hm).
  { apply lookup_alloc. }
  { apply holds_positions_empty. }
  exists h', items. rewrite (heap_bind_Ok _ _ _ _ _ Hrun).
  split; [done|]. split; [|done].
  eapply preserves_fresh; [apply preserves_alloc | exact Hpres |].
  intros l ->%list_elem_of_singleton. by right.
Qed.

(** The two cases of the pure function, by the map of the positions. *)
Lemma ordered_codes_of_cases (idx : list (string * Z)) :
  (pos_to_code_of idx = ∅ ∧ ordered_codes_of idx = Ok ["_missing_"%string]) ∨
  ∃ max_pos,
    is_Some (pos_to_code_of idx !! max_pos) ∧
    (∀ p, is_Some (pos_to_code_of idx !! p) → p ≤ max_pos) ∧
    ordered_codes_of idx =
    mapM (λ i, dict_getitem (pos_to_code_of idx) i) (range (max_pos + 1)).
Proof.
  unfold ordered_codes_of.
  destruct ((map_to_list (pos_to_code_of idx)).*1) as [|k ks] eqn:Hkeys.
  - left. split; [|done]. apply fmap_nil_inv in Hkeys.
    by apply map_to_list_empty_iff.
  - right. exists (foldl Z.max k ks).
    assert (∀ p, p ∈ k :: ks ↔ is_Some (pos_to_code_of idx !! p)) as Hin.
    { intros p. rewrite <- Hkeys, list_elem_of_fmap. split.
      - intros ([p' c] & -> & Hp%elem_of_map_to_list). by exists c.
      - intros [c Hc]. exists (p, c). split; [done|].
        by apply elem_of_map_to_list. }
    destruct (foldl_max_bound k ks) as [Hle Hmax].
    split; [by apply Hin|]. split; [|done].
    intros p Hp. by apply Hle, Hin.
Qed.

Lemma ordered_codes_loop (l : list Z) h (lp lo : nat) items
    (m : gmap Z string) (acc : list string) :
  h !! lp = Some (ODict items) → holds_positions items m → lp ≠ lo →
  h !! lo = Some (OList (VStr <$> acc)) →
  ∃ r h',
    for_each (λ _ i, code ← dict_getitem_h (VRef lp) (VInt i);
                     list_append (VRef lo) code) tt l h = Some (r, h') ∧
    preserves [lo] h h' ∧
    match mapM (λ i, dict_getitem m i) l with
    | Ok cs => r = Ok tt ∧ h' !! lo = Some (OList (VStr <$> (acc ++ cs)))
    | Raise e => r = Raise e
    end.
Proof.
  intros Hlp [Hkeys Hfind] Hne. revert h acc Hlp. unfold dict_getitem.
  induction l as [|i l IH]; intros h acc Hlp Hlo.
  - exists (Ok tt), h. split; [done|]. split; [apply preserves_refl|].
    simpl. by rewrite app_nil_r.
  - cbn [for_each mapM].
    unfold mbind at 1, heap_bind at 1.
    unfold mbind at 1, heap_bind at 1.
    rewrite (dict_getitem_h_int _ _ _ _ Hlp), Hfind.
    destruct (m !! i) as [code|] eqn:Hi; simpl.
    + rewrite (list_append_run _ _ _ _ Hlo).
      destruct (IH (<[lo := OList ((VStr <$> acc) ++ [VStr code])]> h)
                   (acc ++ [code])) as (r & h' & Hrun & Hpres & Hres).
      { by rewrite list_lookup_insert_ne. }
      { rewrite fmap_app. apply list_lookup_insert_eq.
        by eapply lookup_lt_Some. }
      exists r, h'. split; [exact Hrun|]. split.
      { eapply preserves_trans; [|exact Hpres]. apply preserves_store.
        by left. }
      destruct (mapM _ l) as [cs|e]; simpl in *; [|done].
      by rewrite <- app_assoc in Hres.
    + exists (Raise KeyError), h. split; [done|].
      split; [apply preserves_refl | done].
Qed.

Lemma max_key_run h (k : Key) (ks : list Key) :
  (∀ k', k' ∈ k :: ks → ∃ p, k' = KInt p) →
  ∃ n ns, k :: ks = KInt <$> (n :: ns) ∧
          max_key (V:=V) k ks h = Some (Ok (foldl Z.max n ns), h).
Proof.
  intros Hints. destruct (Hints k) as [n ->]; [by left|].
  assert (∃ ns, ks = KInt <$> ns ∧
            mapM (λ k, match k with KInt n => Some n | KStr _ => None end) ks
            = Some ns) as (ns & -> & Hns).
  { assert (∀ k', k' ∈ ks → ∃ p, k' = KInt p) as Hks.
    { intros k' Hk'. apply Hints. by right. }
    clear Hints. induction ks as [|k' ks IH].
    - by exists [].
    - destruct (Hks k') as [p ->]; [by left|].
      destruct IH as (ns & -> & Hns); [intros; apply Hks; by right|].
      exists (p :: ns). split; [done|]. simpl. by rewrite Hns. }
  exists n, ns. split; [done|]. unfold max_key. by rewrite Hns.
Qed.

Lemma h_ordered_codes_of_run h (li : nat) (idx : list (string * Z)) :
  h !! li = Some (ODict (index_items idx)) →
  ∃ r h',
    h_ordered_codes_of (VRef li) h = Some (r, h') ∧
    preserves [] h h' ∧
    match ordered_codes_of idx with
    | Ok codes =>
        ∃ l, r = Ok (VRef l) ∧ (length h ≤ l)%nat ∧
             h' !! l = Some (OList (VStr <$> codes))
    | Raise e => r = Raise e
    end.
Proof.
  intros Hli.
  destruct (h_pos_to_code_of_run h li idx Hli)
    as (h1 & items & Hrun1 & Hp1 & Hlp & Hpos).
  pose proof Hpos as [Hkeys Hfind].
  unfold h_ordered_codes_of.
  rewrite (heap_bind_Ok _ _ _ _ _ Hrun1).
  rewrite (heap_bind_Ok _ _ _ _ _ (as_dict_run _ _ _ Hlp)).
  assert (length h < length h1)%nat as Hlt by by eapply lookup_lt_Some.
  assert (∀ p, KInt p ∈ items.*1 ↔ is_Some (pos_to_code_of idx !! p)) as Hin.
  { intros p. specialize (Hfind p). split.
    - intros Hp. destruct (pos_to_code_of idx !! p) eqn:E; [by eexists|].
      simpl in Hfind. by apply dict_find_None in Hfind.
    - intros [c Hc]. destruct (decide (KInt p ∈ items.*1)) as [|Hn]; [done|].
      apply dict_find_None in Hn. by rewrite Hfind, Hc in Hn. }
  destruct (ordered_codes_of_cases idx)
    as [[Hempty ->]|(max_pos & Hmax & Hle & ->)].
  - assert (items.*1 = []) as ->.
    { destruct (items.*1) as [|k ks] eqn:Hk; [done|]. exfalso.
      destruct (Hkeys k) as [p ->]; [by left|].
      assert (is_Some (pos_to_code_of idx !! p)) as [c Hc].
      { apply Hin. by left. }
      by rewrite Hempty in Hc. }
    eexists _, _. split; [reflexivity|]. split.
    + eapply preserves_trans; [exact Hp1 | apply preserves_alloc].
    + exists (length h1). split; [done|]. split; [lia|]. apply lookup_alloc.
  - destruct (items.*1) as [|k ks] eqn:Hk.
    { exfalso. apply Hin in Hmax. by apply elem_of_nil in Hmax. }
    destruct (max_key_run h1 k ks Hkeys) as (n & ns & Heq & Hmaxrun).
    rewrite (heap_bind_Ok _ _ _ _ _ Hmaxrun).
    assert (foldl Z.max n ns = max_pos) as ->.
    { assert (∀ p, p ∈ n :: ns ↔ is_Some (pos_to_code_of idx !! p)) as Hin'.
      { intros p. rewrite <- Hin, Heq. split.
        - intros Hp. apply list_elem_of_fmap. by exists p.
        - intros (q & [= ->] & Hq)%list_elem_of_fmap. done. }
      destruct (foldl_max_bound n ns) as [Hub Hel].
      apply Z.le_antisymm; [by apply Hle, Hin' | by apply Hub, Hin']. }
    rewrite (heap_bind_Ok _ _ _ (VRef (length h1)) (h1 ++ [OList []]) eq_refl).
    destruct (ordered_codes_loop (range (max_pos + 1)) (h1 ++ [OList []])
                (length h) (length h1) items (pos_to_code_of idx) [])
      as (r & h2 & Hrun2 & Hp2 & Hres).
    { by apply lookup_app_l_Some. }
    { exact Hpos. }
    { lia. }
    { apply lookup_alloc. }
    assert (preserves [] h h2) as Hp.
    { eapply preserves_fresh; [|exact Hp2|].
      - eapply preserves_trans; [exact Hp1 | apply preserves_alloc].
      - intros l ->%list_elem_of_singleton. right. lia. }
    destruct (mapM _ _) as [cs|e].
    + destruct Hres as [-> Hlo]. rewrite (heap_bind_Ok _ _ _ _ _ Hrun2).
      eexists _, _. split; [reflexivity|]. split; [done|].
      exists (length h1). split; [done|]. split; [lia | done].
    + subst r. rewrite (heap_bind_Raise _ _ _ _ _ Hrun2).
      eexists _, _. split; [reflexivity|]. by split.
Qed.

Lemma h_categories_of_run h0 h (dimv : Val V) (dim : gmap string Dimension)
    (name : string) :
  is_dimensions h0 dimv dim → preserves [] h0 h →
  ∃ r h',
    h_categories_of dimv (VStr name) h = Some (r, h') ∧
    preserves [] h h' ∧
    match categories_of dim name with
    | Ok codes =>
        ∃ l, r = Ok (VRef l) ∧ (length h ≤ l)%nat ∧
             h' !! l = Some (OList (VStr <$> codes))
    | Raise e => r = Raise e
    end.
Proof.
  intros (ld & ditems & -> & Hld & Hnames) Hbase.
  assert (∀ l o, h0 !! l = Some o → h !! l = Some o) as Hold.
  { intros l o Hl. eapply preserves_lookup; [exact Hbase | exact Hl |].
    apply not_elem_of_nil. }
  unfold h_categories_of, categories_of, dict_getitem.
  specialize (Hnames name).
  destruct (dim !! name) as [d|]; simpl.
  2: { rewrite (heap_bind_Raise _ _ _ KeyError h); [|
         by rewrite (dict_getitem_h_str _ _ _ _ (Hold _ _ Hld)), Hnames].
       eexists _, _. split; [reflexivity|]. split; [apply preserves_refl|done]. }
  destruct Hnames as (vd & Hvd & l2 & items2 & -> & Hl2 & Hcat).
  rewrite (heap_bind_Ok _ _ _ (VRef l2) h);
    [|by rewrite (dict_getitem_h_str _ _ _ _ (Hold _ _ Hld)), Hvd].
  destruct (category d) as [cat|]; simpl.
  2: { rewrite (heap_bind_Raise _ _ _ KeyError h); [|
         by rewrite (dict_getitem_h_str _ _ _ _ (Hold _ _ Hl2)), Hcat].
       eexists _, _. split; [reflexivity|]. split; [apply preserves_refl|done]. }
  destruct Hcat as (vc & Hvc & l3 & items3 & -> & Hl3 & Hidx).
  rewrite (heap_bind_Ok _ _ _ (VRef l3) h);
    [|by rewrite (dict_getitem_h_str _ _ _ _ (Hold _ _ Hl2)), Hvc].
  rewrite (heap_bind_Ok _ _ _ (VRef (length h)) (h ++ [ODict []]) eq_refl).
  assert (∃ li, dict_get (VRef l3) (VStr "index") (VRef (length h))
                  (h ++ [ODict []]) = Some (Ok (VRef li), h ++ [ODict []]) ∧
                (h ++ [ODict []]) !! li
                = Some (ODict (index_items (default [] (index cat)))))
    as (li & Hget & Hli).
  { rewrite (dict_get_str _ _ _ _ _ (lookup_app_l_Some _ _ _ _ (Hold _ _ Hl3))).
    destruct (index cat) as [idx|]; simpl.
    - destruct Hidx as (li & -> & Hli). exists li. split; [done|].
      by apply lookup_app_l_Some, Hold.
    - rewrite Hidx. exists (length h). split; [done|]. apply lookup_alloc. }
  rewrite (heap_bind_Ok _ _ _ _ _ Hget).
  destruct (h_ordered_codes_of_run _ _ _ Hli) as (r & h' & Hrun & Hp & Hres).
  exists r, h'. split; [exact Hrun|]. split.
  - eapply preserves_trans; [apply preserves_alloc | exact Hp].
  - destruct (ordered_codes_of _) as [codes|e]; [|done].
    destruct Hres as (l & -> & Hlen & Hl). exists l. split; [done|].
    split; [|done]. rewrite length_app in Hlen. lia.
Qed.

Lemma holds_categories_set h h' items (cats : gmap string (list string))
    (lc l : nat) (name : string) (codes : list string) :
  holds_categories h items cats →
  h !! lc = Some (ODict items) →
  (∀ l' o, l' ≠ lc → h !! l' = Some o → h' !! l' = Some o) →
  l ≠ lc → h' !! l = Some (OList (VStr <$> codes)) →
  holds_categories h' (dict_set (KStr name) (VRef l) items)
    (<[name := codes]> cats).
Proof.
  intros Hcats Hlc Hkeep Hne Hl name'. specialize (Hcats name').
  destruct (decide (name = name')) as [<-|Hn].
  - rewrite lookup_insert_eq, dict_find_set_eq. by exists l.
  - rewrite lookup_insert_ne by done.
    rewrite dict_find_set_ne by congruence.
    destruct (cats !! name') as [codes'|]; [|done].
    destruct Hcats as (l' & Hfind & Hl'). exists l'. split; [done|].
    apply Hkeep; [|done]. intros ->. congruence.
Qed.

Lemma build_dim_categories_loop h0 (dimv : Val V)
    (dim : gmap string Dimension) (lc : nat) (ids : list string) h items
    (cats : gmap string (list string)) :
  is_dimensions h0 dimv dim → preserves [] h0 h → (length h0 ≤ lc)%nat →
  h !! lc = Some (ODict items) → holds_categories h items cats →
  ∃ r h',
    for_each (λ _ dim_name,
                codes ← h_categories_of dimv dim_name;
                dict_setitem (VRef lc) dim_name codes)
             tt (VStr <$> ids) h = Some (r, h') ∧
    preserves [lc] h h' ∧
    match foldM (λ dim_categories dim_name,
                   codes ← categories_of dim dim_name;
                   Ok (<[dim_name := codes]> dim_categories)) cats ids with
    | Ok cats' =>
        r = Ok tt ∧
        ∃ items', h' !! lc = Some (ODict items') ∧
                  holds_categories h' items' cats'
    | Raise e => r = Raise e
    end.
Proof.
  intros Hdim. revert h items cats.
  induction ids as [|name ids IH]; intros h items cats Hbase Hlc0 Hlc Hcats.
  - exists (Ok tt), h. split; [done|]. split; [apply preserves_refl|].
    simpl. split; [done|]. by exists items.
  - cbn [fmap list_fmap for_each foldM].
    destruct (h_categories_of_run h0 h dimv dim name Hdim Hbase)
      as (r1 & h1 & Hrun1 & Hp1 & Hres1).
    unfold mbind at 1, heap_bind at 1. unfold mbind at 1, heap_bind at 1.
    rewrite Hrun1.
    destruct (categories_of dim name) as [codes|e]; simpl.
    2: { subst r1. exists (Raise e), h1. split; [done|]. split; [|done].
         eapply preserves_weaken; [exact Hp1|]. by intros l ?%elem_of_nil. }
    destruct Hres1 as (l & -> & Hlen & Hl).
    assert (h1 !! lc = Some (ODict items)) as Hlc1.
    { eapply preserves_lookup; [exact Hp1 | exact Hlc | apply not_elem_of_nil]. }
    assert (lc < length h)%nat as Hlt by by eapply lookup_lt_Some.
    rewrite (dict_setitem_str _ _ _ _ _ Hlc1).
    set (h2 := <[lc := ODict (dict_set (KStr name) (VRef l) items)]> h1).
    assert (preserves [lc] h h2) as Hp2.
    { eapply preserves_trans; [|apply preserves_store; by left].
      eapply preserves_weaken; [exact Hp1|]. by intros l' ?%elem_of_nil. }
    destruct (IH h2 (dict_set (KStr name) (VRef l) items)
                 (<[name := codes]> cats)) as (r & h' & Hrun & Hp & Hres).
    + eapply preserves_fresh; [exact Hbase | exact Hp2 |].
      intros l' ->%list_elem_of_singleton. by right.
    + done.
    + apply list_lookup_insert_eq. by eapply lookup_lt_Some.
    + eapply holds_categories_set; [exact Hcats | exact Hlc | | |].
      * intros l' o Hne Hl'. unfold h2.
        rewrite list_lookup_insert_ne by done.
        eapply preserves_lookup; [exact Hp1 | exact Hl' | apply not_elem_of_nil].
      * lia.
      * unfold h2. rewrite list_lookup_insert_ne by lia. done.
    + exists r, h'. split; [exact Hrun|]. split; [|done].
      eapply preserves_trans; [exact Hp2 | exact Hp].
Qed.

Lemma h_build_dim_categories_run h0 h (dimv : Val V)
    (dim : gmap string Dimension) (li : nat) (ids : list string) :
  is_dimensions h0 dimv dim → h0 !! li = Some (OList (VStr <$> ids)) →
  preserves [] h0 h →
  ∃ r h',
    h_build_dim_categories dimv (VRef li) h = Some (r, h') ∧
    preserves [] h h' ∧
    match build_dim_categories dim ids with
    | Ok cats =>
        ∃ lc items, r = Ok (VRef lc) ∧ h' !! lc = Some (ODict items) ∧
                    holds_categories h' items cats
    | Raise e => r = Raise e
    end.
Proof.
  intros Hdim Hli Hbase. unfold h_build_dim_categories, build_dim_categories.
  rewrite (heap_bind_Ok _ _ _ (VRef (length h)) (h ++ [ODict []]) eq_refl).
  assert ((h ++ [ODict []]) !! li = Some (OList (VStr <$> ids))) as Hli'.
  { apply lookup_app_l_Some.
    eapply preserves_lookup; [exact Hbase | exact Hli | apply not_elem_of_nil]. }
  rewrite (heap_bind_Ok _ _ _ _ _ (as_list_run _ _ _ Hli')).
  destruct (build_dim_categories_loop h0 dimv dim (length h) ids
              (h ++ [ODict []]) [] ∅) as (r & h' & Hrun & Hp & Hres).
  - done.
  - eapply preserves_trans; [exact Hbase | apply preserves_alloc].
  - by destruct Hbase.
  - apply lookup_alloc.
  - intros name. by rewrite lookup_empty.
  - assert (preserves [] h h') as Hp'.
    { eapply preserves_fresh; [apply preserves_alloc | exact Hp |].
      intros l ->%list_elem_of_singleton. by right. }
    destruct (foldM _ _ _) as [cats|e].
    + destruct Hres as (-> & items & Hlc & Hcats).
      rewrite (heap_bind_Ok _ _ _ _ _ Hrun).
      eexists _, _. split; [reflexivity|]. split; [done|]. by eexists _, _.
    + subst r. rewrite (heap_bind_Raise _ _ _ _ _ Hrun).
      eexists _, _. split; [reflexivity|]. by split.
Qed.

(** *** The number of observations, the strides and the values *)

Lemma h_compute_n_obs_run h (ls : nat) (sizes : list Z) :
  h !! ls = Some (OList (VInt <$> sizes)) →
  h_compute_n_obs (VRef ls) h = Some (Ok (compute_n_obs sizes), h).
Proof.
  intros Hls. unfold h_compute_n_obs, compute_n_obs.
  rewrite (heap_bind_Ok _ _ _ _ _ (as_list_run _ _ _ Hls)).
  assert (∀ n : Z,
            for_each (λ n_obs s, s ← as_int s; mret (n_obs * s)) n
                     (VInt <$> sizes) h
            = Some (Ok (foldl (λ n_obs s, n_obs * s) n sizes), h)) as Hloop.
  { clear Hls. induction sizes as [|s sizes IH]; intros n; [done|].
    cbn [fmap list_fmap for_each foldl].
    rewrite (heap_bind_Ok _ _ _ (n * s) h eq_refl). apply IH. }
  apply Hloop.
Qed.

Lemma compute_strides_loop (l : list Z) h (lst : nat) (strides : list Z)
    (acc : Z) :
  h !! lst = Some (OList (VInt <$> strides)) →
  ∃ h',
    for_each (λ acc size,
                list_insert0 (VRef lst) (VInt acc);;
                size ← as_int size;
                mret (acc * size)) acc (VInt <$> l) h
    = Some (Ok (foldl (λ '(strides, acc) size, (acc :: strides, acc * size))
                      (strides, acc) l).2, h') ∧
    preserves [lst] h h' ∧
    h' !! lst
    = Some (OList (VInt <$>
              (foldl (λ '(strides, acc) size, (acc :: strides, acc * size))
                     (strides, acc) l).1)).
Proof.
  revert h strides acc. induction l as [|s l IH]; intros h strides acc Hst.
  - exists h. split; [done|]. split; [apply preserves_refl | done].
  - cbn [fmap list_fmap for_each foldl].
    unfold mbind at 1, heap_bind at 1. unfold mbind at 1, heap_bind at 1.
    rewrite (list_insert0_run _ _ _ _ Hst).
    unfold mbind at 1, heap_bind at 1. cbn [as_int mret heap_ret].
    destruct (IH (<[lst := OList (VInt acc :: (VInt <$> strides))]> h)
                 (acc :: strides) (acc * s)) as (h' & Hrun & Hp & Hst').
    { apply list_lookup_insert_eq. by eapply lookup_lt_Some. }
    exists h'. split; [exact Hrun|]. split; [|done].
    eapply preserves_trans; [|exact Hp]. apply preserves_store. by left.
Qed.

Lemma h_compute_strides_run h (ls : nat) (sizes : list Z) :
  h !! ls = Some (OList (VInt <$> sizes)) →
  ∃ h',
    h_compute_strides (VRef ls) h = Some (Ok (VRef (length h)), h') ∧
    preserves [] h h' ∧
    h' !! length h = Some (OList (VInt <$> compute_strides sizes)).
Proof.
  intros Hls. unfold h_compute_strides, compute_strides.
  rewrite (heap_bind_Ok _ _ _ (VRef (length h)) (h ++ [OList []]) eq_refl).
  rewrite (heap_bind_Ok _ _ _ _ _
             (as_list_run _ _ _ (lookup_app_l_Some _ _ _ _ Hls))).
  rewrite <- fmap_reverse.
  destruct (compute_strides_loop (reverse sizes) (h ++ [OList []]) (length h)
              [] 1) as (h' & Hrun & Hp & Hst).
  { apply lookup_alloc. }
  rewrite (heap_bind_Ok _ _ _ _ _ Hrun).
  exists h'. split; [done|]. split; [|done].
  eapply preserves_fresh; [apply preserves_alloc | exact Hp |].
  intros l ->%list_elem_of_singleton. by right.
Qed.

Lemma list_getitem_fmap {A B : Type} (f : A → B) (l : list A) (i : Z) :
  list_getitem (f <$> l) i
  = match list_getitem l i with
    | Ok a => Ok (f a)
    | Raise e => Raise e
    end.
Proof.
  unfold list_getitem. rewrite length_fmap.
  case_bool_decide; [done|]. rewrite list_lookup_fmap.
  by destruct (l !! _).
Qed.

Lemma isinstance_list_run h (l : nat) (o : Obj V) :
  h !! l = Some o →
  isinstance_list (VRef l) h
  = Some (Ok (match o with OList _ => true | ODict _ => false end), h).
Proof.
  intros Hl. unfold isinstance_list, load, mbind, heap_bind. by rewrite Hl.
Qed.

Lemma isinstance_dict_run h (l : nat) (o : Obj V) :
  h !! l = Some o →
  isinstance_dict (VRef l) h
  = Some (Ok (match o with ODict _ => true | OList _ => false end), h).
Proof.
  intros Hl. unfold isinstance_dict, load, mbind, heap_bind. by rewrite Hl.
Qed.

Lemma h_get_value_at_run h0 h (v : Val V) (value : JValue V) (idx : Z) :
  is_value h0 v value → preserves [] h0 h →
  h_get_value_at v idx h
  = Some (match get_value_at value idx with
          | Ok o => Ok (opt_val o)
          | Raise e => Raise e
          end, h).
Proof.
  intros Hv Hbase.
  assert (∀ l o, h0 !! l = Some o → h !! l = Some o) as Hold.
  { intros l o Hl. eapply preserves_lookup; [exact Hbase | exact Hl |].
    apply not_elem_of_nil. }
  unfold h_get_value_at, get_value_at.
  destruct value as [l|d|]; simpl in Hv.
  - destruct Hv as (lv & -> & Hlv). apply Hold in Hlv.
    rewrite (heap_bind_Ok _ _ _ _ _ (isinstance_list_run _ _ _ Hlv)).
    by rewrite (list_getitem_h_run _ _ _ _ Hlv), list_getitem_fmap.
  - destruct Hv as (lv & items & -> & Hlv & Hd). apply Hold in Hlv.
    rewrite (heap_bind_Ok _ _ _ _ _ (isinstance_list_run _ _ _ Hlv)).
    rewrite (heap_bind_Ok _ _ _ _ _ (isinstance_dict_run _ _ _ Hlv)).
    rewrite (dict_get_str _ _ _ _ _ Hlv), Hd.
    by destruct (d !! str idx).
  - destruct v as [| | | |lv]; try done. by destruct (Hv lv).
Qed.

(** *** The codes of a flat position *)

Lemma enumerate_fmap {A B : Type} (f : A → B) (l : list A) :
  enumerate (f <$> l) = (λ '(i, a), (i, f a)) <$> enumerate l.
Proof.
  unfold enumerate. rewrite length_fmap.
  generalize (seqZ 0 (Z.of_nat (length l))). intros ks. revert ks.
  induction l as [|a l IH]; intros [|k ks]; simpl; try done.
  by rewrite IH.
Qed.

Lemma holds_codes_empty : holds_codes (V:=V) [] ∅.
Proof. split; [by intros k ?%elem_of_nil | done]. Qed.

Lemma holds_codes_set items (row : gmap string (Cell V)) (name : string)
    (c : Cell V) :
  holds_codes items row →
  holds_codes (dict_set (KStr name) (cell_val c) items) (<[name := c]> row).
Proof.
  intros [Hkeys Hfind]. split.
  - intros k [->|Hk]%dict_set_keys; [by eexists | by apply Hkeys].
  - intros name'. destruct (decide (name = name')) as [<-|Hne].
    + by rewrite dict_find_set_eq, lookup_insert_eq.
    + rewrite dict_find_set_ne by congruence. by rewrite lookup_insert_ne.
Qed.

Lemma h_decode_coord_run hb h (li lc lst lcc : nat) (ids : list string)
    citems (cats : gmap string (list string)) (strides : list Z)
    items (m : gmap string (Cell V)) (remaining dim_idx : Z) :
  preserves [] hb h →
  hb !! li = Some (OList (VStr <$> ids)) →
  hb !! lc = Some (ODict citems) → holds_categories hb citems cats →
  h !! lst = Some (OList (VInt <$> strides)) →
  h !! lcc = Some (ODict items) → holds_codes items m →
  ∃ r h',
    h_decode_coord (VRef li) (VRef lc) (VRef lst) (VRef lcc) remaining dim_idx h
    = Some (r, h') ∧
    preserves [lcc] h h' ∧
    match
      stride ← list_getitem strides dim_idx;
      coord_index ← floordiv remaining stride;
      remaining ← pymod remaining stride;
      dim_name ← list_getitem ids dim_idx;
      code_list ← dict_getitem cats dim_name;
      code ← list_getitem code_list coord_index;
      Ok (remaining, <[dim_name := Code code]> m)
    with
    | Ok (remaining', m') =>
        r = Ok remaining' ∧
        ∃ items', h' !! lcc = Some (ODict items') ∧ holds_codes items' m'
    | Raise e => r = Raise e
    end.
Proof.
  intros Hbase Hli Hlc Hcats Hst Hcc Hm.
  assert (∀ l o, hb !! l = Some o → h !! l = Some o) as Hold.
  { intros l o Hl. eapply preserves_lookup; [exact Hbase | exact Hl |].
    apply not_elem_of_nil. }
  assert (∀ e, ∃ r h',
            Some (Raise e, h) = Some (r, h') ∧ preserves [lcc] h h' ∧
            r = Raise (A:=Z) e) as Hraise.
  { intros e. exists (Raise e), h. split; [done|].
    split; [apply preserves_refl | done]. }
  unfold h_decode_coord.
  pose proof (list_getitem_h_run _ _ _ dim_idx Hst) as Hrun.
  rewrite list_getitem_fmap in Hrun.
  destruct (list_getitem strides dim_idx) as [stride|e]; simpl.
  2: { rewrite (heap_bind_Raise _ _ _ _ _ Hrun). apply Hraise. }
  rewrite (heap_bind_Ok _ _ _ _ _ Hrun). clear Hrun.
  rewrite (heap_bind_Ok _ _ _ stride h eq_refl).
  destruct (floordiv remaining stride) as [coord_index|e] eqn:Hdiv; simpl.
  2: { rewrite (heap_bind_Raise _ _ _ e h eq_refl). apply Hraise. }
  rewrite (heap_bind_Ok _ _ _ coord_index h eq_refl).
  destruct (pymod remaining stride) as [remaining'|e] eqn:Hmod; simpl.
  2: { rewrite (heap_bind_Raise _ _ _ e h eq_refl). apply Hraise. }
  rewrite (heap_bind_Ok _ _ _ remaining' h eq_refl).
  pose proof (list_getitem_h_run _ _ _ dim_idx (Hold _ _ Hli)) as Hrun.
  rewrite list_getitem_fmap in Hrun.
  destruct (list_getitem ids dim_idx) as [dim_name|e]; simpl.
  2: { rewrite (heap_bind_Raise _ _ _ _ _ Hrun). apply Hraise. }
  rewrite (heap_bind_Ok _ _ _ _ _ Hrun). clear Hrun.
  pose proof (dict_getitem_h_str _ _ _ dim_name (Hold _ _ Hlc)) as Hrun.
  specialize (Hcats dim_name). unfold dict_getitem.
  destruct (cats !! dim_name) as [code_list|]; simpl.
  2: { rewrite Hcats in Hrun. rewrite (heap_bind_Raise _ _ _ _ _ Hrun).
       apply Hraise. }
  destruct Hcats as (lcl & Hfind & Hlcl). rewrite Hfind in Hrun.
  rewrite (heap_bind_Ok _ _ _ _ _ Hrun). clear Hrun.
  pose proof (list_getitem_h_run _ _ _ coord_index (Hold _ _ Hlcl)) as Hrun.
  rewrite list_getitem_fmap in Hrun.
  destruct (list_getitem code_list coord_index) as [code|e]; simpl.
  2: { rewrite (heap_bind_Raise _ _ _ _ _ Hrun). apply Hraise. }
  rewrite (heap_bind_Ok _ _ _ _ _ Hrun). clear Hrun.
  rewrite (heap_bind_Ok _ _ _ _ _ (dict_setitem_str _ _ _ _ _ Hcc)).
  eexists _, _. split; [reflexivity|]. split.
  { apply preserves_store. by left. }
  split; [done|]. eexists. split.
  { apply list_lookup_insert_eq. by eapply lookup_lt_Some. }
  apply (holds_codes_set _ _ _ (Code code) Hm).
Qed.

Lemma decode_coords_loop hb (li lc lst lcc : nat) (ids : list string)
    citems (cats : gmap string (list string)) (strides : list Z)
    (l : list (Z * Z)) h items (m : gmap string (Cell V)) (remaining : Z) :
  hb !! li = Some (OList (VStr <$> ids)) →
  hb !! lc = Some (ODict citems) → holds_categories hb citems cats →
  (length hb ≤ lcc)%nat →
  preserves [] hb h →
  h !! lst = Some (OList (VInt <$> strides)) →
  h !! lcc = Some (ODict items) → holds_codes items m →
  ∃ r h',
    for_each (λ remaining '(dim_idx, _),
                h_decode_coord (VRef li) (VRef lc) (VRef lst) (VRef lcc)
                  remaining dim_idx)
             remaining ((λ '(i, s), (i, VInt (V:=V) s)) <$> l) h = Some (r, h') ∧
    preserves [lcc] h h' ∧
    match
      foldM (λ '(remaining, coord_codes) '(dim_idx, _),
               stride ← list_getitem strides dim_idx;
               coord_index ← floordiv remaining stride;
               remaining ← pymod remaining stride;
               dim_name ← list_getitem ids dim_idx;
               code_list ← dict_getitem cats dim_name;
               code ← list_getitem code_list coord_index;
               Ok (remaining, <[dim_name := Code code]> coord_codes))
            (remaining, m) l
    with
    | Ok (_, m') =>
        (∃ remaining', r = Ok remaining') ∧
        ∃ items', h' !! lcc = Some (ODict items') ∧ holds_codes items' m'
    | Raise e => r = Raise e
    end.
Proof.
  intros Hli Hlc Hcats Hlcc. revert h items m remaining.
  induction l as [|[dim_idx s] l IH]; intros h items m remaining Hbase Hst Hcc Hm.
  - exists (Ok remaining), h. split; [done|]. split; [apply preserves_refl|].
    simpl. split; [by eexists | by eexists].
  - cbn [fmap list_fmap for_each foldM].
    destruct (h_decode_coord_run hb h li lc lst lcc ids citems cats strides
                items m remaining dim_idx Hbase Hli Hlc Hcats Hst Hcc Hm)
      as (r1 & h1 & Hrun1 & Hp1 & Hres1).
    destruct (_ ≫= _) as [[remaining' m']|e] in Hres1 |- *.
    2: { subst r1. rewrite (heap_bind_Raise _ _ _ _ _ Hrun1).
         exists (Raise e), h1. by split. }
    destruct Hres1 as (-> & items' & Hcc1 & Hm').
    rewrite (heap_bind_Ok _ _ _ _ _ Hrun1).
    assert (lst ≠ lcc) as Hne by (intros ->; congruence).
    destruct (IH h1 items' m' remaining') as (r & h' & Hrun & Hp & Hres).
    + eapply preserves_fresh; [exact Hbase | exact Hp1 |].
      intros l' ->%list_elem_of_singleton. by right.
    + eapply preserves_lookup; [exact Hp1 | exact Hst |].
      by intros ->%list_elem_of_singleton.
    + done.
    + done.
    + exists r, h'. split; [exact Hrun|]. split; [|exact Hres].
      eapply preserves_trans; [exact Hp1 | exact Hp].
Qed.

Lemma h_decode_coords_run hb h (li ls lc lst : nat) (ids : list string)
    (sizes : list Z) citems (cats : gmap string (list string))
    (strides : list Z) (flat_idx : Z) :
  hb !! li = Some (OList (VStr <$> ids)) →
  hb !! ls = Some (OList (VInt <$> sizes)) →
  hb !! lc = Some (ODict citems) → holds_categories hb citems cats →
  preserves [] hb h →
  h !! lst = Some (OList (VInt <$> strides)) →
  ∃ r h',
    h_decode_coords (VRef li) (VRef ls) (VRef lc) (VRef lst) flat_idx h
    = Some (r, h') ∧
    preserves [] h h' ∧
    match decode_coords ids sizes cats strides flat_idx with
    | Ok codes =>
        r = Ok (VRef (length h)) ∧
        ∃ items, h' !! length h = Some (ODict items) ∧ holds_codes items codes
    | Raise e => r = Raise e
    end.
Proof.
  intros Hli Hls Hlc Hcats Hbase Hst. unfold h_decode_coords, decode_coords.
  rewrite (heap_bind_Ok _ _ _ (VRef (length h)) (h ++ [ODict []]) eq_refl).
  assert ((h ++ [ODict []]) !! ls = Some (OList (VInt <$> sizes))) as Hls'.
  { apply lookup_app_l_Some.
    eapply preserves_lookup; [exact Hbase | exact Hls | apply not_elem_of_nil]. }
  rewrite (heap_bind_Ok _ _ _ _ _ (as_list_run _ _ _ Hls')).
  rewrite enumerate_fmap.
  destruct (decode_coords_loop hb li lc lst (length h) ids citems cats strides
              (enumerate sizes) (h ++ [ODict []]) [] ∅ flat_idx)
    as (r & h' & Hrun & Hp & Hres); try done.
  - by destruct Hbase.
  - eapply preserves_trans; [exact Hbase | apply preserves_alloc].
  - by apply lookup_app_l_Some.
  - apply lookup_alloc.
  - apply holds_codes_empty.
  - assert (preserves [] h h') as Hp'.
    { eapply preserves_fresh; [apply preserves_alloc | exact Hp |].
      intros l ->%list_elem_of_singleton. by right. }
    destruct (foldM _ _ _) as [[remaining' m']|e]; simpl.
    + destruct Hres as ([rem' ->] & items' & Hcc & Hm').
      rewrite (heap_bind_Ok _ _ _ _ _ Hrun).
      eexists _, _. split; [reflexivity|]. split; [done|].
      split; [done|]. by exists items'.
    + subst r. rewrite (heap_bind_Raise _ _ _ _ _ Hrun).
      eexists _, _. split; [reflexivity|]. by split.
Qed.

(** *** The rows *)

Lemma preserves_dicts W h h' :
  preserves W h h' →
  (∀ l, l ∈ W → ∃ vs, h !! l = Some (OList (V:=V) vs)) →
  ∀ l items, h !! l = Some (ODict items) → h' !! l = Some (ODict items).
Proof.
  intros Hp HW l items Hl. eapply preserves_lookup; [exact Hp | exact Hl |].
  intros [vs Hvs]%HW. congruence.
Qed.

Lemma holds_row_keep h h' (v : Val V) (row : gmap string (Cell V)) :
  (∀ l items, h !! l = Some (ODict items) → h' !! l = Some (ODict items)) →
  holds_row h v row → holds_row h' v row.
Proof.
  intros Hkeep (l & items & -> & Hl & Hrow). exists l, items. auto.
Qed.

Lemma h_decode_row_run h0 hb h (li ls lc lst lr : nat) (vv : Val V)
    (ids : list string) (sizes : list Z) citems
    (cats : gmap string (list string)) (strides : list Z) (value : JValue V)
    (rvs : list (Val V)) (rows : list (gmap string (Cell V))) (flat_idx : Z) :
  is_value h0 vv value → preserves [] h0 hb →
  hb !! li = Some (OList (VStr <$> ids)) →
  hb !! ls = Some (OList (VInt <$> sizes)) →
  hb !! lc = Some (ODict citems) → holds_categories hb citems cats →
  preserves [] hb h →
  h !! lst = Some (OList (VInt <$> strides)) →
  h !! lr = Some (OList rvs) → Forall2 (holds_row h) rvs rows →
  ∃ r h',
    h_decode_row (VRef li) (VRef ls) (VRef lc) (VRef lst) vv (VRef lr)
      flat_idx h = Some (r, h') ∧
    preserves [lr] h h' ∧
    match decode_row ids sizes cats strides value rows flat_idx with
    | Ok rows' =>
        r = Ok tt ∧
        ∃ rvs', h' !! lr = Some (OList rvs') ∧
                Forall2 (holds_row h') rvs' rows'
    | Raise e => r = Raise e
    end.
Proof.
  intros Hvalue Hb0 Hli Hls Hlc Hcats Hbase Hst Hlr Hrows.
  unfold h_decode_row, decode_row.
  destruct (h_decode_coords_run hb h li ls lc lst ids sizes citems cats strides
              flat_idx Hli Hls Hlc Hcats Hbase Hst)
    as (r1 & h1 & Hrun1 & Hp1 & Hres1).
  assert (preserves [lr] h h1) as Hp1'.
  { eapply preserves_weaken; [exact Hp1|]. by intros l ?%elem_of_nil. }
  destruct (decode_coords _ _ _ _ _) as [codes|e]; simpl.
  2: { subst r1. rewrite (heap_bind_Raise _ _ _ _ _ Hrun1).
       exists (Raise e), h1. by split. }
  destruct Hres1 as (-> & items & Hcc & Hcodes).
  rewrite (heap_bind_Ok _ _ _ _ _ Hrun1).
  assert (preserves [] h0 h1) as Hb1.
  { eapply preserves_trans; [|exact Hp1].
    eapply preserves_trans; [exact Hb0 | exact Hbase]. }
  pose proof (h_get_value_at_run h0 h1 vv value flat_idx Hvalue Hb1) as Hrun2.
  assert (h1 !! lr = Some (OList rvs)) as Hlr1.
  { eapply preserves_lookup; [exact Hp1 | exact Hlr | apply not_elem_of_nil]. }
  destruct (get_value_at value flat_idx) as [[x|]|e]; simpl.
  - rewrite (heap_bind_Ok _ _ _ _ _ Hrun2). cbn [opt_val].
    rewrite (heap_bind_Ok _ _ _ _ _ (dict_copy_run _ _ _ Hcc)).
    set (h2 := h1 ++ [ODict items]).
    assert (h2 !! length h1 = Some (ODict items)) as Hrow by apply lookup_alloc.
    rewrite (heap_bind_Ok _ _ _ _ _ (dict_setitem_str _ _ _ "value" (VNum x) Hrow)).
    set (h3 := <[length h1 := ODict (dict_set (KStr "value") (VNum x) items)]> h2).
    assert (lr < length h1)%nat as Hlt by by eapply lookup_lt_Some.
    assert (h3 !! lr = Some (OList rvs)) as Hlr3.
    { unfold h3, h2. rewrite list_lookup_insert_ne by lia.
      by apply lookup_app_l_Some. }
    rewrite (list_append_run _ _ _ _ Hlr3).
    set (h4 := <[lr := OList (rvs ++ [VRef (length h1)])]> h3).
    assert (preserves [lr] h h4) as Hp4.
    { eapply preserves_trans; [exact Hp1'|].
      eapply preserves_fresh with (W1 := [length h1; lr]) (h1 := h2).
      - apply preserves_alloc.
      - eapply preserves_trans with (h1 := h3).
        + apply preserves_store. by left.
        + apply preserves_store. right. by left.
      - intros l [->|[->|[]%elem_of_nil]%elem_of_cons]%elem_of_cons.
        + by right.
        + left. by left. }
    exists (Ok tt), h4. split; [done|]. split; [exact Hp4|].
    split; [done|]. exists (rvs ++ [VRef (length h1)]). split.
    { apply list_lookup_insert_eq. unfold h3, h2.
      rewrite length_insert, length_app. lia. }
    apply Forall2_app.
    + eapply Forall2_impl; [exact Hrows|]. intros v row.
      apply holds_row_keep. apply (preserves_dicts [lr] h h4 Hp4).
      intros l ->%list_elem_of_singleton. by exists rvs.
    + constructor; [|constructor].
      exists (length h1), (dict_set (KStr "value") (VNum x) items).
      split; [done|]. split.
      * unfold h4. rewrite list_lookup_insert_ne by lia.
        apply list_lookup_insert_eq. unfold h2. rewrite length_app. simpl. lia.
      * apply (holds_codes_set _ _ _ (Num x) Hcodes).
  - rewrite (heap_bind_Ok _ _ _ _ _ Hrun2). cbn [opt_val].
    exists (Ok tt), h1. split; [done|]. split; [exact Hp1'|].
    split; [done|]. exists rvs. split; [done|].
    eapply Forall2_impl; [exact Hrows|]. intros v row.
    apply holds_row_keep. apply (preserves_dicts [] h h1 Hp1).
    by intros l ?%elem_of_nil.
  - rewrite (heap_bind_Raise _ _ _ _ _ Hrun2).
    exists (Raise e), h1. by split.
Qed.

Lemma decode_rows_loop h0 hb (li ls lc lst lr : nat) (vv : Val V)
    (ids : list string) (sizes : list Z) citems
    (cats : gmap string (list string)) (strides : list Z) (value : JValue V)
    (l : list Z) h (rvs : list (Val V)) (rows : list (gmap string (Cell V))) :
  is_value h0 vv value → preserves [] h0 hb →
  hb !! li = Some (OList (VStr <$> ids)) →
  hb !! ls = Some (OList (VInt <$> sizes)) →
  hb !! lc = Some (ODict citems) → holds_categories hb citems cats →
  (length hb ≤ lr)%nat → lst ≠ lr →
  preserves [] hb h →
  h !! lst = Some (OList (VInt <$> strides)) →
  h !! lr = Some (OList rvs) → Forall2 (holds_row h) rvs rows →
  ∃ r h',
    for_each (λ _ flat_idx,
                h_decode_row (VRef li) (VRef ls) (VRef lc) (VRef lst) vv
                  (VRef lr) flat_idx) tt l h = Some (r, h') ∧
    preserves [lr] h h' ∧
    match foldM (decode_row ids sizes cats strides value) rows l with
    | Ok rows' =>
        r = Ok tt ∧
        ∃ rvs', h' !! lr = Some (OList rvs') ∧
                Forall2 (holds_row h') rvs' rows'
    | Raise e => r = Raise e
    end.
Proof.
  intros Hvalue Hb0 Hli Hls Hlc Hcats Hlen Hne. revert h rvs rows.
  induction l as [|flat_idx l IH]; intros h rvs rows Hbase Hst Hlr Hrows.
  - exists (Ok tt), h. split; [done|]. split; [apply preserves_refl|].
    simpl. split; [done|]. by exists rvs.
  - cbn [for_each foldM].
    destruct (h_decode_row_run h0 hb h li ls lc lst lr vv ids sizes citems cats
                strides value rvs rows flat_idx Hvalue Hb0 Hli Hls Hlc Hcats
                Hbase Hst Hlr Hrows) as (r1 & h1 & Hrun1 & Hp1 & Hres1).
    destruct (decode_row _ _ _ _ _ _ _) as [rows1|e]; simpl.
    2: { subst r1. rewrite (heap_bind_Raise _ _ _ _ _ Hrun1).
         exists (Raise e), h1. by split. }
    destruct Hres1 as (-> & rvs1 & Hlr1 & Hrows1).
    rewrite (heap_bind_Ok _ _ _ _ _ Hrun1).
    destruct (IH h1 rvs1 rows1) as (r & h' & Hrun & Hp & Hres); try done.
    + eapply preserves_fresh; [exact Hbase | exact Hp1 |].
      intros l' ->%list_elem_of_singleton. by right.
    + eapply preserves_lookup; [exact Hp1 | exact Hst |].
      by intros ->%list_elem_of_singleton.
    + exists r, h'. split; [exact Hrun|]. split; [|exact Hres].
      eapply preserves_trans; [exact Hp1 | exact Hp].
Qed.

(** *** The whole function *)

Lemma h_jsonstat_to_dataframe_run h0 h (a : Val V) (js : Json V) :
  represents h0 a js → preserves [] h0 h →
  ∃ r h',
    h_jsonstat_to_dataframe a h = Some (r, h') ∧
    preserves [] h h' ∧
    ends_as h' r (jsonstat_to_dataframe js).
Proof.
  intros (l & items & -> & Hl & Hjs) Hbase.
  assert (∀ l o, h0 !! l = Some o → h !! l = Some o) as Hold.
  { intros l' o Hl'. eapply preserves_lookup; [exact Hbase | exact Hl' |].
    apply not_elem_of_nil. }
  unfold h_jsonstat_to_dataframe.
  rewrite (heap_bind_Ok _ _ _ _ _ (dict_contains_str _ _ _ "dataset" (Hold _ _ Hl))).
  assert (∃ l2 items2,
            (if bool_decide (is_Some (dict_find (KStr "dataset") items))
             then dict_getitem_h (VRef l) (VStr "dataset")
             else mret (VRef l)) h = Some (Ok (VRef l2), h) ∧
            h0 !! l2 = Some (ODict items2) ∧
            has_members h0 items2 (unwrap js)) as (l2 & items2 & Hun & Hl2 & Hmem).
  { destruct js as [ds|ds].
    - destruct Hjs as [Hno Hmem]. exists l, items. rewrite Hno.
      rewrite bool_decide_false by by intros [? ?]. done.
    - destruct Hjs as (l' & items' & Hds & Hl' & Hmem). exists l', items'.
      rewrite Hds. rewrite bool_decide_true by by eexists.
      by rewrite (dict_getitem_h_str _ _ _ _ (Hold _ _ Hl)), Hds. }
  rewrite (heap_bind_Ok _ _ _ _ _ Hun). clear Hun Hjs Hl.
  destruct Hmem as (vd & vv & li & ls & Hfd & Hdim & Hfv & Hvalue & Hfi & Hli
                    & Hfs & Hls).
  pose proof (Hold _ _ Hl2) as Hl2'.
  rewrite (heap_bind_Ok _ _ _ vd h);
    [|by rewrite (dict_getitem_h_str _ _ _ _ Hl2'), Hfd].
  rewrite (heap_bind_Ok _ _ _ vv h);
    [|by rewrite (dict_getitem_h_str _ _ _ _ Hl2'), Hfv].
  rewrite (heap_bind_Ok _ _ _ (VRef li) h);
    [|by rewrite (dict_getitem_h_str _ _ _ _ Hl2'), Hfi].
  rewrite (heap_bind_Ok _ _ _ (VRef ls) h);
    [|by rewrite (dict_getitem_h_str _ _ _ _ Hl2'), Hfs].
  unfold jsonstat_to_dataframe.
  set (ds := unwrap js) in *.
  cbn zeta.
  destruct (h_build_dim_categories_run h0 h vd (js_dimension ds) li (js_id ds)
              Hdim Hli Hbase) as (r1 & h1 & Hrun1 & Hp1 & Hres1).
  destruct (build_dim_categories _ _) as [cats|e]; simpl.
  2: { subst r1. rewrite (heap_bind_Raise _ _ _ _ _ Hrun1).
       exists (Raise e), h1. by split. }
  destruct Hres1 as (lc & citems & -> & Hlc & Hcats).
  rewrite (heap_bind_Ok _ _ _ _ _ Hrun1).
  assert (preserves [] h0 h1) as Hb1.
  { eapply preserves_trans; [exact Hbase | exact Hp1]. }
  assert (∀ l o, h0 !! l = Some o → h1 !! l = Some o) as Hold1.
  { intros l' o Hl'. eapply preserves_lookup; [exact Hb1 | exact Hl' |].
    apply not_elem_of_nil. }
  rewrite (heap_bind_Ok _ _ _ _ _ (h_compute_n_obs_run _ _ _ (Hold1 _ _ Hls))).
  rewrite (heap_bind_Ok _ _ _ (VRef (length h1)) (h1 ++ [OList []]) eq_refl).
  set (h2 := h1 ++ [OList []]).
  destruct (h_compute_strides_run h2 ls (js_size ds))
    as (h3 & Hrun3 & Hp3 & Hst).
  { by apply lookup_app_l_Some, Hold1. }
  rewrite (heap_bind_Ok _ _ _ _ _ Hrun3).
  assert (preserves [] h1 h3) as Hp13.
  { eapply preserves_trans; [apply preserves_alloc | exact Hp3]. }
  destruct (decode_rows_loop h0 h1 li ls lc (length h2) (length h1) vv
              (js_id ds) (js_size ds) citems cats
              (compute_strides (js_size ds)) (js_value ds)
              (range (compute_n_obs (js_size ds))) h3 [] [])
    as (r & h' & Hrun & Hp & Hres); try done.
  - by apply Hold1.
  - by apply Hold1.
  - unfold h2. rewrite length_app. simpl. lia.
  - eapply preserves_lookup; [exact Hp3 | apply lookup_alloc |].
    apply not_elem_of_nil.
  - assert (preserves [] h h') as Hp'.
    { eapply preserves_trans; [exact Hp1|].
      eapply preserves_fresh; [exact Hp13 | exact Hp |].
      intros l' ->%list_elem_of_singleton. by right. }
    destruct (foldM _ _ _) as [rows|e].
    + destruct Hres as (-> & rvs & Hlr & Hrows).
      rewrite (heap_bind_Ok _ _ _ _ _ Hrun).
      eexists _, _. split; [reflexivity|]. split; [done|].
      exists (VRef (length h1)). split; [done|]. by exists (length h1), rvs.
    + subst r. rewrite (heap_bind_Raise _ _ _ _ _ Hrun).
      eexists _, _. split; [reflexivity|]. by split.
Qed.

(** *** The cube stays where it is, and a list holds one sequence of rows *)

Lemma represents_keep h h' (a : Val V) (js : Json V) :
  (∀ l o, h !! l = Some o → h' !! l = Some o) →
  represents h a js → represents h' a js.
Proof.
  intros Hkeep.
  assert (∀ v cat, is_category h v cat → is_category h' v cat) as Hcat.
  { intros v cat (l & items & -> & Hl & Hidx). exists l, items.
    split; [done|]. split; [auto|].
    destruct (index cat) as [idx|]; [|done].
    destruct Hidx as (li & ? & ?). exists li. auto. }
  assert (∀ v d, is_dimension h v d → is_dimension h' v d) as Hdim.
  { intros v d (l & items & -> & Hl & Hc). exists l, items.
    split; [done|]. split; [auto|].
    destruct (category d) as [cat|]; [|done].
    destruct Hc as (vc & ? & ?). exists vc. auto. }
  assert (∀ v dim, is_dimensions h v dim → is_dimensions h' v dim) as Hdims.
  { intros v dim (l & items & -> & Hl & Hnames). exists l, items.
    split; [done|]. split; [auto|]. intros name. specialize (Hnames name).
    destruct (dim !! name) as [d|]; [|done].
    destruct Hnames as (vd & ? & ?). exists vd. auto. }
  assert (∀ v value, is_value h v value → is_value h' v value) as Hvalue.
  { intros v [l|d|]; simpl; [| |done].
    - intros (lv & -> & Hl). exists lv. auto.
    - intros (lv & items & -> & Hl & Hd). exists lv, items. auto. }
  assert (∀ items ds, has_members h items ds → has_members h' items ds)
    as Hmem.
  { intros items ds (vd & vv & li & ls & ? & ? & ? & ? & ? & ? & ? & ?).
    exists vd, vv, li, ls. repeat split; auto. }
  intros (l & items & -> & Hl & Hjs). exists l, items.
  split; [done|]. split; [auto|]. destruct js as [ds|ds].
  - destruct Hjs as [? ?]. auto.
  - destruct Hjs as (l' & items' & ? & ? & ?). exists l', items'. auto.
Qed.

Lemma holds_codes_inj items (row row' : gmap string (Cell V)) :
  holds_codes items row → holds_codes items row' → row = row'.
Proof.
  intros [_ Hrow] [_ Hrow']. apply map_eq. intros name.
  specialize (Hrow name). rewrite Hrow' in Hrow.
  destruct (row !! name) as [[c|x]|], (row' !! name) as [[c'|x']|];
    simpl in Hrow; congruence.
Qed.

Lemma holds_rows_inj h (v : Val V) (rows rows' : list (gmap string (Cell V))) :
  holds_rows h v rows → holds_rows h v rows' → rows = rows'.
Proof.
  intros (l & vs & -> & Hl & Hrows) (l' & vs' & [= <-] & Hl' & Hrows').
  rewrite Hl in Hl'. injection Hl' as <-. clear Hl.
  revert rows' Hrows'. induction Hrows as [|v row vs rows Hrow _ IH];
    intros rows' Hrows'; inversion Hrows' as [|? row' ? rows'' Hrow' Hrest];
    subst; [done|].
  f_equal; [|by apply IH].
  destruct Hrow as (lr & items & -> & Hlr & Hc).
  destruct Hrow' as (lr' & items' & [= <-] & Hlr' & Hc').
  rewrite Hlr in Hlr'. injection Hlr' as <-. by eapply holds_codes_inj.
Qed.

Lemma ends_as_rows h (v : Val V)
    (res : result (list (gmap string (Cell V))))
    (rows : list (gmap string (Cell V))) :
  ends_as h (Ok v) res → holds_rows h v rows → res = Ok rows.
Proof.
  destruct res as [rows'|e]; simpl; [|done].
  intros (v' & [= <-] & Hrows') Hrows. f_equal. by eapply holds_rows_inj.
Qed.

(** A run of the function from a heap in which [a] leads to a cube. *)
Lemma h_jsonstat_to_dataframe_cube h (a : Val V) (js : Json V) :
  represents h a js →
  ∃ r new,
    h_jsonstat_to_dataframe a h = Some (r, h ++ new) ∧
    ends_as (h ++ new) r (jsonstat_to_dataframe js) ∧
    represents (h ++ new) a js.
Proof.
  intros Hjs.
  destruct (h_jsonstat_to_dataframe_run h h a js Hjs (preserves_refl _ _))
    as (r & h' & Hrun & Hp & Hres).
  destruct (preserves_nil_app _ _ Hp) as [new ->].
  exists r, new. split; [done|]. split; [done|].
  eapply represents_keep; [|exact Hjs].
  intros l o. apply lookup_app_l_Some.
Qed.

End heap_run.

Lemma dense_heap_represents :
  represents dense_heap (VRef 11%nat) (Bare dense_cube).
Proof.
  exists 11%nat, [(KStr "dimension", VRef 7%nat); (KStr "value", VRef 8%nat);
                  (KStr "id", VRef 9%nat); (KStr "size", VRef 10%nat)].
  split; [done|]. split; [done|]. split; [done|].
  exists (VRef 7%nat), (VRef 8%nat), 9%nat, 10%nat.
  repeat split; try done; [|by exists 8%nat].
  exists 7%nat, [(KStr "geo", VRef 3%nat); (KStr "time", VRef 6%nat)].
  split; [done|]. split; [done|]. intros name. simpl. unfold geo_time.
  destruct (decide (name = "geo"%string)) as [->|Hgeo].
  { rewrite lookup_insert_eq. exists (VRef 3%nat). split; [done|].
    exists 3%nat, [(KStr "category", VRef 2%nat)]. repeat split; try done.
    exists (VRef 2%nat). split; [done|].
    exists 2%nat, [(KStr "index", VRef 1%nat)]. repeat split; try done.
    by exists 1%nat. }
  rewrite lookup_insert_ne by done.
  rewrite decide_False by congruence.
  destruct (decide (name = "time"%string)) as [->|Htime].
  { rewrite lookup_singleton_eq. exists (VRef 6%nat). split; [done|].
    exists 6%nat, [(KStr "category", VRef 5%nat)]. repeat split; try done.
    exists (VRef 5%nat). split; [done|].
    exists 5%nat, [(KStr "index", VRef 4%nat)]. repeat split; try done.
    by exists 4%nat. }
  rewrite lookup_singleton_ne by done. by rewrite decide_False by congruence.
Qed.

(** ** A declared size of 0 *)

Lemma product_zero (sizes : list Z) (k : nat) :
  sizes !! k = Some 0 → product sizes = 0.
Proof.
  revert k. induction sizes as [|s sizes IH]; intros [|k] Hk; simplify_eq/=.
  - done.
  - rewrite (IH k Hk). lia.
Qed.

Lemma decode_size_zero {V : Type} (ds : JsonStat V) (k : nat) :
  js_size ds !! k = Some 0 →
  jsonstat_to_dataframe (Bare ds) =
  build_dim_categories (js_dimension ds) (js_id ds) ≫= λ _, Ok [].
Proof.
  intros Hk. rewrite jsonstat_to_dataframe_rowmajor. unfold rowmajor_decode.
  simpl. by rewrite (product_zero _ k Hk).
Qed.

(** * The properties the specification states *)

(** C1. For every cube the strides are row-major: the stride of a dimension
    is the product of the sizes after it, so the stride of the last
    dimension is 1. The decoder returns, or raises, what the decoding by
    successive division and remainder over these strides does, with one
    observation per flat position that has a value, in increasing
    flat-position order; the codes of the cube [unsorted_cube] come out in
    that order and not sorted. *)
Theorem C1_rowmajor_flat_order {V : Type} (js : Json V) :
  (∀ k : nat,
     compute_strides (js_size (unwrap js)) !! k =
     (λ _, product (drop (S k) (js_size (unwrap js)))) <$>
       js_size (unwrap js) !! k) ∧
  (∀ sizes s, last (compute_strides (sizes ++ [s])) = Some 1) ∧
  jsonstat_to_dataframe js = rowmajor_decode (unwrap js) ∧
  jsonstat_to_dataframe (Bare unsorted_cube) =
    Ok [obs "B" "2021" 1; obs "B" "2020" 2; obs "A" "2021" 3; obs "A" "2020" 4].
Proof.
  split; [|split; [|split]].
  - intros k. apply compute_strides_lookup.
  - apply compute_strides_last.
  - apply jsonstat_to_dataframe_rowmajor.
  - vm_compute. reflexivity.
Qed.

(** C2. For every well-formed cube the decoder returns, the number of
    observations is the number of flat positions whose value is present,
    which is the number of non-null entries of a dense store and the number
    of keys of a sparse one, it is at most the product of the sizes, and
    every observation carries a value: a position without one contributes
    no row. *)
Theorem C2_observation_count {V : Type} (js : Json V) :
  well_formed (unwrap js) = true →
  ∃ rows,
    jsonstat_to_dataframe js = Ok rows ∧
    length rows =
      length (filter (λ flat, present (js_value (unwrap js)) flat)
                     (seqZ 0 (product (js_size (unwrap js))))) ∧
    length rows = stored_values (js_value (unwrap js)) ∧
    Z.of_nat (length rows) ≤ product (js_size (unwrap js)) ∧
    Forall (λ row, ∃ v, row !! "value"%string = Some (Num v)) rows.
Proof.
  intros [Hdims Hvals]%andb_prop.
  destruct (well_formed_dims_fits _ Hdims) as (cats & Hcats & Hfit).
  destruct (observations_total cats (unwrap js)
              (seqZ 0 (product (js_size (unwrap js)))) Hfit)
    as (os & Hos & Hlen & Hrows).
  { intros flat Hin%elem_of_seqZ. lia. }
  { intros flat Hin%elem_of_seqZ. apply well_formed_values_ok; [done|lia]. }
  exists (omap id os). split; [|split; [|split; [|split]]]; try done.
  - rewrite jsonstat_to_dataframe_rowmajor. unfold rowmajor_decode.
    rewrite Hcats. simpl. by rewrite Hos.
  - rewrite Hlen. by apply well_formed_values_count.
  - rewrite Hlen.
    pose proof (length_filter (λ flat, present (js_value (unwrap js)) flat)
                  (seqZ 0 (product (js_size (unwrap js))))) as Hle.
    rewrite length_seqZ in Hle.
    pose proof (fits_product_nonneg _ _ _ Hfit). lia.
Qed.

Lemma C2_observation_count_witness :
  well_formed (unwrap (Bare sparse_cube)) = true ∧
  ∃ rows,
    jsonstat_to_dataframe (Bare sparse_cube) = Ok rows ∧
    length rows =
      length (filter (λ flat, present (js_value sparse_cube) flat)
                     (seqZ 0 (product (js_size sparse_cube)))) ∧
    length rows = stored_values (js_value sparse_cube) ∧
    Z.of_nat (length rows) ≤ product (js_size sparse_cube) ∧
    Forall (λ row, ∃ v, row !! "value"%string = Some (Num v)) rows.
Proof.
  split; [vm_compute; reflexivity|].
  apply (C2_observation_count (Bare sparse_cube)). vm_compute. reflexivity.
Defined.

(** C3. The dense 2 x 3 cube over geo and time with the values 1 to 6
    decodes to exactly six observations, in row-major order. *)
Theorem C3_dense_round_trip :
  jsonstat_to_dataframe (Bare dense_cube) =
  Ok [obs "A" "2020" 1; obs "A" "2021" 2; obs "A" "2022" 3;
      obs "B" "2020" 4; obs "B" "2021" 5; obs "B" "2022" 6].
Proof. vm_compute. reflexivity. Qed.

(** C4. The same cube with the sparse store that holds only the keys "0",
    "3" and "5" decodes to exactly the three observations of these
    positions, in that order. *)
Theorem C4_sparse_store :
  jsonstat_to_dataframe (Bare sparse_cube) =
  Ok [obs "A" "2020" 1; obs "B" "2020" 4; obs "B" "2022" 6].
Proof. vm_compute. reflexivity. Qed.

(** C5 (counterexample). The cube without dimensions and with the dense
    store [7] does not fail: it decodes to one observation that holds only
    the value. *)
Lemma C5_no_dims_counterexample :
  js_id no_dims_cube = [] ∧
  jsonstat_to_dataframe (Bare no_dims_cube) =
    Ok [ {[ "value"%string := Num 7 ]} ].
Proof. split; [reflexivity | vm_compute; reflexivity]. Qed.

(** C5 (amended). For every cube whose dimension list and size vector are
    empty the decoder visits the single flat position 0: it returns one
    observation that holds only the value when that position has one,
    returns no observation when it has none, and raises only what reading
    the value store at 0 raises. *)
Theorem C5_no_dims_single_position {V : Type} (js : Json V) :
  js_id (unwrap js) = [] → js_size (unwrap js) = [] →
  jsonstat_to_dataframe js =
  match get_value_at (js_value (unwrap js)) 0 with
  | Ok (Some v) => Ok [ {[ "value"%string := Num v ]} ]
  | Ok None => Ok []
  | Raise e => Raise e
  end.
Proof.
  intros Hid Hsize. rewrite jsonstat_to_dataframe_rowmajor.
  unfold rowmajor_decode, observation_at. rewrite Hid, Hsize. simpl.
  change (Z.of_nat 0 + 0) with 0.
  destruct (get_value_at _ 0) as [[v|]|e]; done.
Qed.

Lemma C5_no_dims_single_position_witness :
  jsonstat_to_dataframe (Bare no_dims_cube) =
  match get_value_at (js_value no_dims_cube) 0 with
  | Ok (Some v) => Ok [ {[ "value"%string := Num v ]} ]
  | Ok None => Ok []
  | Raise e => Raise e
  end.
Proof.
  apply (C5_no_dims_single_position (Bare no_dims_cube)); reflexivity.
Defined.

(** C6 (counterexample). The 2 x 3 cube whose value store is neither a list
    nor a dictionary decodes to no observation instead of failing, and the
    2 x 3 cube with seven dense values decodes to the six observations of
    the first six values. *)
Lemma C6_mismatch_counterexample :
  jsonstat_to_dataframe (Bare other_store_cube) = Ok [] ∧
  jsonstat_to_dataframe (Bare long_dense_cube) =
    Ok [obs "A" "2020" 1; obs "A" "2021" 2; obs "A" "2022" 3;
        obs "B" "2020" 4; obs "B" "2021" 5; obs "B" "2022" 6].
Proof. split; vm_compute; reflexivity. Qed.

(** C6 (amended). For every cube whose dimensions are well formed: a value
    store that is neither a list nor a dictionary gives no observation; a
    dense store shorter than the product of the sizes makes the decoder
    raise IndexError; the entries of a dense store beyond the product of the
    sizes are ignored. *)
Theorem C6_value_store_mismatch {V : Type} (ds : JsonStat V) :
  well_formed_dims ds = true →
  (js_value ds = JOther → jsonstat_to_dataframe (Bare ds) = Ok []) ∧
  (∀ l, js_value ds = JList l →
        Z.of_nat (length l) < product (js_size ds) →
        jsonstat_to_dataframe (Bare ds) = Raise IndexError) ∧
  (∀ l, js_value ds = JList l →
        product (js_size ds) ≤ Z.of_nat (length l) →
        jsonstat_to_dataframe (Bare ds) =
        jsonstat_to_dataframe
          (Bare (with_value ds
                   (JList (take (Z.to_nat (product (js_size ds))) l))))).
Proof.
  intros Hdims. split; [|split].
  - by apply (decode_other_store (Bare ds)).
  - intros l. by apply (decode_short_dense (Bare ds)).
  - intros l. apply decode_long_dense.
Qed.

Lemma C6_value_store_mismatch_witness :
  well_formed_dims long_dense_cube = true ∧
  (js_value long_dense_cube = JOther →
   jsonstat_to_dataframe (Bare long_dense_cube) = Ok []) ∧
  (∀ l, js_value long_dense_cube = JList l →
        Z.of_nat (length l) < product (js_size long_dense_cube) →
        jsonstat_to_dataframe (Bare long_dense_cube) = Raise IndexError) ∧
  (∀ l, js_value long_dense_cube = JList l →
        product (js_size long_dense_cube) ≤ Z.of_nat (length l) →
        jsonstat_to_dataframe (Bare long_dense_cube) =
        jsonstat_to_dataframe
          (Bare (with_value long_dense_cube
                   (JList (take (Z.to_nat (product (js_size long_dense_cube)))
                                l))))).
Proof.
  split; [vm_compute; reflexivity|].
  apply (C6_value_store_mismatch long_dense_cube). vm_compute. reflexivity.
Defined.

(** C7 (counterexample). The dimension unit supplies no categories. When
    its declared size is 2 the decoder still counts 4 flat positions and
    raises IndexError at the second one; when it is 0 the decoder returns no
    observation, while it returns two for the declared size 1. *)
Lemma C7_declared_size_counterexample :
  no_categories (js_dimension (unit_cube 2 [])) "unit" = true ∧
  compute_n_obs (js_size (unit_cube 2 [Some 1; Some 2; Some 3; Some 4])) = 4 ∧
  jsonstat_to_dataframe (Bare (unit_cube 2 [Some 1; Some 2; Some 3; Some 4]))
    = Raise IndexError ∧
  jsonstat_to_dataframe (Bare (unit_cube 0 [Some 1; Some 2])) = Ok [] ∧
  jsonstat_to_dataframe (Bare (unit_cube 1 [Some 1; Some 2])) =
    Ok [ {[ "geo"%string := Code "A"%string;
            "unit"%string := Code "_missing_"%string;
            "value"%string := Num 1 ]};
         {[ "geo"%string := Code "B"%string;
            "unit"%string := Code "_missing_"%string;
            "value"%string := Num 2 ]} ].
Proof. repeat split; vm_compute; reflexivity. Qed.

(** C7 (amended). For every cube with a dimension that supplies no
    categories the decoder takes the one-element placeholder list for it,
    and the declared size of that axis stays in use. When that declared
    size is 1, decoding ends as decoding the cube without that dimension
    does: with the same exception, or with as many rows, each with the same
    code for every other dimension and the placeholder code for this one.
    When it is 0, the decoder returns no observation once the category
    lists are built. *)
Theorem C7_placeholder_of_size_one {V : Type} (ds : JsonStat V) (k : nat)
    (d : string) :
  js_id ds !! k = Some d →
  no_categories (js_dimension ds) d = true →
  categories_of (js_dimension ds) d = Ok ["_missing_"%string] ∧
  (js_size ds !! k = Some 1 →
   result_rel (Forall2 (row_with_placeholder d))
     (jsonstat_to_dataframe (Bare ds))
     (jsonstat_to_dataframe (Bare (without_dimension k ds)))) ∧
  (js_size ds !! k = Some 0 →
   jsonstat_to_dataframe (Bare ds) =
   build_dim_categories (js_dimension ds) (js_id ds) ≫= λ _, Ok []).
Proof.
  intros Hid Hno. split; [|split].
  - by apply no_categories_placeholder.
  - intros Hsize. by apply decode_without_placeholder.
  - apply decode_size_zero.
Qed.

Lemma C7_placeholder_of_size_one_witness :
  categories_of (js_dimension (unit_cube 1 [Some 1; Some 2])) "unit"
    = Ok ["_missing_"%string] ∧
  result_rel (Forall2 (row_with_placeholder "unit"))
    (jsonstat_to_dataframe (Bare (unit_cube 1 [Some 1; Some 2])))
    (jsonstat_to_dataframe
       (Bare (without_dimension 1 (unit_cube 1 [Some 1; Some 2])))).
Proof.
  destruct (C7_placeholder_of_size_one (unit_cube 1 [Some 1; Some 2]) 1 "unit")
    as (Hcat & Hone & _); [reflexivity | reflexivity |].
  split; [exact Hcat | apply Hone; reflexivity].
Defined.

(** C8 (counterexample). In the cube with the sizes -2 and -3 the stride
    arithmetic gives flat position 1 the coordinates -1 and -2, outside the
    bounds of both category lists, and the decoder does not fail: Python's
    indexing reads the lists from their ends. *)
Lemma C8_negative_coordinate_counterexample :
  successive_divmod 1 (compute_strides (js_size negative_sizes_cube))
    = [-1; -2] ∧
  jsonstat_to_dataframe (Bare negative_sizes_cube) =
    Ok [obs "A" "2020" 1; obs "B" "2021" 2; obs "B" "2022" 3;
        obs "B" "2020" 4; obs "A" "2021" 5; obs "A" "2022" 6].
Proof. split; vm_compute; reflexivity. Qed.

(** C8 (amended). For every cube whose category lists resolve and every
    flat position: if the stride arithmetic gives a dimension a coordinate
    that is at least the length of its category list, or below minus that
    length, the decoder raises IndexError and returns no observation. When
    no size is negative every coordinate is non-negative, so that every
    coordinate outside its category list makes the decoder raise. *)
Theorem C8_coordinate_outside_raises {V : Type} (js : Json V)
    (cats : gmap string (list string)) (flat : Z) :
  build_dim_categories (js_dimension (unwrap js)) (js_id (unwrap js)) = Ok cats →
  0 ≤ flat < compute_n_obs (js_size (unwrap js)) →
  (∀ (k : nat) name c cl,
     successive_divmod flat (compute_strides (js_size (unwrap js))) !! k
       = Some c →
     js_id (unwrap js) !! k = Some name →
     cats !! name = Some cl →
     Z.of_nat (length cl) ≤ c ∨ c < - Z.of_nat (length cl) →
     jsonstat_to_dataframe js = Raise IndexError) ∧
  (Forall (λ s, 0 ≤ s) (js_size (unwrap js)) →
   Forall (λ c, 0 ≤ c)
     (successive_divmod flat (compute_strides (js_size (unwrap js))))).
Proof.
  intros Hb Hflat. split.
  - intros k name c cl. by apply decode_coordinate_outside.
  - intros Hs. rewrite compute_strides_rowmajor.
    apply successive_divmod_nonneg; [done|].
    by rewrite <- compute_n_obs_product.
Qed.

Lemma C8_coordinate_outside_raises_witness :
  jsonstat_to_dataframe (Bare short_geo_cube) = Raise IndexError.
Proof.
  refine (proj1 (C8_coordinate_outside_raises (Bare short_geo_cube)
                   {[ "geo"%string := ["A"%string];
                      "time"%string := ["2020"; "2021"; "2022"]%string ]} 3 _ _)
                0%nat "geo"%string 1 ["A"%string] _ _ _ _).
  - vm_compute. reflexivity.
  - vm_compute. split; [discriminate | reflexivity].
  - vm_compute. reflexivity.
  - reflexivity.
  - vm_compute. reflexivity.
  - left. simpl. lia.
Defined.

(** C9. The decoder is deterministic and has no side effect. Let [a] lead
    to a cube in a heap [h] and [a'] to the same cube in a heap [h'],
    whatever else the two heaps hold. A run of the function leaves every
    object that was in the heap as it was: the heap it leaves is the old one
    followed by the objects that the run made, so [a] still leads to the
    cube, and a second decoding is such a run again. Both runs end as
    [jsonstat_to_dataframe] gives for the cube alone: with the same
    exception, or with lists that hold the same rows in the same order, and
    a list holds no other sequence of rows. *)
Theorem C9_deterministic_and_pure {V : Type} (h h' : list (Obj V))
    (a a' : Val V) (js : Json V) :
  represents h a js → represents h' a' js →
  ∃ r new r' new',
    h_jsonstat_to_dataframe a h = Some (r, h ++ new) ∧
    h_jsonstat_to_dataframe a' h' = Some (r', h' ++ new') ∧
    represents (h ++ new) a js ∧
    ends_as (h ++ new) r (jsonstat_to_dataframe js) ∧
    ends_as (h' ++ new') r' (jsonstat_to_dataframe js) ∧
    ∀ v rows, r = Ok v → holds_rows (h ++ new) v rows →
              jsonstat_to_dataframe js = Ok rows.
Proof.
  intros Hjs Hjs'.
  destruct (h_jsonstat_to_dataframe_cube h a js Hjs)
    as (r & new & Hrun & Hres & Hkeep).
  destruct (h_jsonstat_to_dataframe_cube h' a' js Hjs')
    as (r' & new' & Hrun' & Hres' & _).
  exists r, new, r', new'. repeat split; try done.
  intros v rows -> Hrows. by eapply ends_as_rows.
Qed.

Lemma C9_deterministic_and_pure_witness :
  ∃ r new r' new',
    h_jsonstat_to_dataframe (VRef 11%nat) dense_heap
    = Some (r, dense_heap ++ new) ∧
    h_jsonstat_to_dataframe (VRef 11%nat) (dense_heap ++ [OList [VInt 5]])
    = Some (r', (dense_heap ++ [OList [VInt 5]]) ++ new') ∧
    represents (dense_heap ++ new) (VRef 11%nat) (Bare dense_cube) ∧
    ends_as (dense_heap ++ new) r (jsonstat_to_dataframe (Bare dense_cube)) ∧
    ends_as ((dense_heap ++ [OList [VInt 5]]) ++ new') r'
      (jsonstat_to_dataframe (Bare dense_cube)) ∧
    ∀ v rows, r = Ok v → holds_rows (dense_heap ++ new) v rows →
              jsonstat_to_dataframe (Bare dense_cube) = Ok rows.
Proof.
  apply (C9_deterministic_and_pure dense_heap (dense_heap ++ [OList [VInt 5]])
           (VRef 11%nat) (VRef 11%nat) (Bare dense_cube)).
  - apply dense_heap_represents.
  - eapply represents_keep; [|apply dense_heap_represents].
    intros l o. apply lookup_app_l_Some.
Defined.

(** C10. For every cube with a sparse value store, removing every entry
    whose key is not the decimal string of an integer from 0 up to, and
    excluding, the product of the sizes leaves the result of the decoder
    unchanged. *)
Theorem C10_only_flat_keys_read {V : Type} (ds : JsonStat V)
    (d : gmap string (option V)) :
  (∀ k v, flat_keys_only (product (js_size ds)) d !! k = Some v ↔
          d !! k = Some v ∧ ∃ i, 0 ≤ i < product (js_size ds) ∧ k = str i) ∧
  jsonstat_to_dataframe
    (Bare (with_value ds (JDict (flat_keys_only (product (js_size ds)) d)))) =
  jsonstat_to_dataframe (Bare (with_value ds (JDict d))).
Proof.
  split; [|apply decode_flat_keys_only].
  intros k v. unfold flat_keys_only. rewrite map_lookup_filter_Some. simpl.
  by rewrite is_flat_key_str.
Qed.

(** * Further properties of the code *)

(** ** The exceptions of the decoder *)

Lemma mapM_Raise_inv {A B : Type} (f : A → result B) (l : list A) (e : PyExc) :
  mapM f l = Raise e → ∃ x, x ∈ l ∧ f x = Raise e.
Proof.
  induction l as [|x l IH]; simpl; [done|].
  destruct (f x) as [b|e'] eqn:Hx; simpl.
  - destruct (mapM f l) as [bs|e']; simpl; [done|].
    intros [= ->]. destruct IH as (y & Hy & Hfy); [done|].
    exists y. split; [by right | done].
  - intros [= ->]. exists x. split; [by left | done].
Qed.

Lemma foldM_Raise_inv {S A : Type} (f : S → A → result S) (s : S) (l : list A)
    (e : PyExc) :
  foldM f s l = Raise e → ∃ s' x, x ∈ l ∧ f s' x = Raise e.
Proof.
  revert s. induction l as [|x l IH]; intros s; simpl; [done|].
  destruct (f s x) as [s'|e'] eqn:Hx; simpl.
  - intros (s'' & y & Hy & Hfy)%IH. exists s'', y. split; [by right | done].
  - intros [= ->]. exists s, x. split; [by left | done].
Qed.

Lemma ordered_codes_of_raise (index : list (string * Z)) (e : PyExc) :
  ordered_codes_of index = Raise e → e = KeyError.
Proof.
  unfold ordered_codes_of.
  destruct ((map_to_list (pos_to_code_of index)).*1) as [|k ks]; [done|].
  intros (i & _ & Hi)%mapM_Raise_inv. unfold dict_getitem in Hi.
  destruct (pos_to_code_of index !! i); simpl in Hi; congruence.
Qed.

Lemma categories_of_raise (dim : gmap string Dimension) (name : string)
    (e : PyExc) :
  categories_of dim name = Raise e → e = KeyError.
Proof.
  unfold categories_of, dict_getitem.
  destruct (dim !! name) as [d|]; simpl; [|congruence].
  destruct (category d) as [cat|]; simpl; [|congruence].
  apply ordered_codes_of_raise.
Qed.

Lemma build_dim_categories_raise (dim : gmap string Dimension)
    (ids : list string) (e : PyExc) :
  build_dim_categories dim ids = Raise e → e = KeyError.
Proof.
  intros (cats & name & _ & Hn)%foldM_Raise_inv.
  destruct (categories_of dim name) as [codes|e'] eqn:Hc; simpl in Hn; [done|].
  injection Hn as <-. by apply categories_of_raise in Hc.
Qed.



(** ** The columns of a row *)

Lemma mapM_Ok_inv {A B : Type} (f : A → result B) (l : list A) (ys : list B) :
  mapM f l = Ok ys → Forall2 (λ x y, f x = Ok y) l ys.
Proof.
  revert ys. induction l as [|x l IH]; intros ys; simpl.
  - intros [= <-]. constructor.
  - destruct (f x) as [y|e] eqn:Hx; simpl; [|done].
    destruct (mapM f l) as [ys'|e]; simpl; [|done].
    intros [= <-]. constructor; [done | by apply IH].
Qed.

Lemma list_getitem_elem_of {A : Type} (l : list A) (i : Z) (a : A) :
  list_getitem l i = Ok a → a ∈ l.
Proof.
  unfold list_getitem. case_bool_decide; [done|].
  destruct (l !! _) as [a'|] eqn:Hl; simpl; [|done].
  intros [= <-]. by eapply list_elem_of_lookup_2.
Qed.

Lemma length_successive_divmod (r : Z) (strides : list Z) :
  length (successive_divmod r strides) = length strides.
Proof.
  revert r. induction strides as [|s strides IH]; intros r; simpl; [done|].
  by rewrite IH.
Qed.

Section columns.
Context {V : Type}.
Implicit Types (cats : gmap string (list string)) (codes : gmap string (Cell V)).

Lemma label_coords_columns cats (ids : list string) (coords : list Z)
    codes codes' :
  label_coords cats ids coords codes = Ok codes' →
  length coords = length ids →
  dom codes' = dom codes ∪ list_to_set ids ∧
  (∀ name, name ∉ ids → codes' !! name = codes !! name) ∧
  ∀ name, name ∈ ids →
    ∃ cl code, cats !! name = Some cl ∧ code ∈ cl ∧
               codes' !! name = Some (Code code).
Proof.
  revert ids codes. induction coords as [|c coords IH];
    intros [|name ids] codes Hrun Hlen; simplify_eq/=.
  - split; [set_solver|]. split; [done|]. by intros name ?%elem_of_nil.
  - unfold dict_getitem in Hrun.
    destruct (cats !! name) as [cl|] eqn:Hcl; simpl in Hrun; [|done].
    destruct (list_getitem cl c) as [code|e] eqn:Hc; simpl in Hrun; [|done].
    destruct (IH _ _ Hrun Hlen) as (Hdom & Hout & Hcodes).
    split; [|split].
    + rewrite Hdom, dom_insert_L. set_solver.
    + intros n Hn. rewrite Hout by set_solver.
      apply lookup_insert_ne. set_solver.
    + intros n Hn. destruct (decide (n ∈ ids)) as [Hin|Hin]; [by apply Hcodes|].
      apply elem_of_cons in Hn as [->|Hn]; [|done].
      exists cl, code. split; [done|]. split; [by eapply list_getitem_elem_of|].
      by rewrite Hout, lookup_insert_eq.
Qed.

(** The code that the dimension at place [k] leaves in the row: the one its
    coordinate selects, unless a later dimension has the same name. *)
Lemma label_coords_positions cats (ids : list string) (coords : list Z)
    codes codes' (k : nat) (name : string) :
  label_coords cats ids coords codes = Ok codes' →
  length coords = length ids →
  ids !! k = Some name → name ∉ drop (S k) ids →
  ∃ cl c code, cats !! name = Some cl ∧ coords !! k = Some c ∧
               list_getitem cl c = Ok code ∧
               codes' !! name = Some (Code code).
Proof.
  revert ids codes k. induction coords as [|c coords IH];
    intros [|name' ids] codes k Hrun Hlen Hk Hlast; simplify_eq/=.
  unfold dict_getitem in Hrun.
  destruct (cats !! name') as [cl|] eqn:Hcl; simpl in Hrun; [|done].
  destruct (list_getitem cl c) as [code|e] eqn:Hc; simpl in Hrun; [|done].
  destruct k as [|k]; simpl in *.
  - injection Hk as ->. exists cl, c, code. repeat split; try done.
    destruct (label_coords_columns _ _ _ _ _ Hrun Hlen) as (_ & Hout & _).
    by rewrite Hout, lookup_insert_eq.
  - by eapply IH.
Qed.

Lemma observation_at_columns cats (ds : JsonStat V) flat row :
  observation_at cats ds flat = Ok (Some row) →
  length (js_id ds) = length (js_size ds) →
  dom row = list_to_set (js_id ds) ∪ {["value"%string]} ∧
  ∃ v, get_value_at (js_value ds) flat = Ok (Some v) ∧
       row !! "value"%string = Some (Num v) ∧
       ∀ (k : nat) name,
         js_id ds !! k = Some name → name ≠ "value"%string →
         name ∉ drop (S k) (js_id ds) →
         ∃ cl c code,
           cats !! name = Some cl ∧
           successive_divmod flat (compute_strides (js_size ds)) !! k = Some c ∧
           list_getitem cl c = Ok code ∧
           row !! name = Some (Code code).
Proof.
  unfold observation_at. intros Hrun Hlen. rewrite compute_strides_rowmajor.
  destruct (label_coords _ _ _ _) as [codes|e] eqn:Hl; simpl in Hrun; [|done].
  destruct (get_value_at _ _) as [[v|]|e]; simplify_eq/=.
  assert (length (successive_divmod flat (rowmajor_strides (js_size ds)))
          = length (js_id ds)) as Hlen'.
  { by rewrite length_successive_divmod, length_rowmajor_strides. }
  split.
  - apply label_coords_columns in Hl as (Hdom & _ & _); [|done].
    rewrite dom_insert_L, Hdom, dom_empty_L. set_solver.
  - exists v. split; [done|]. split; [apply lookup_insert_eq|].
    intros k name Hk Hne Hlast.
    destruct (label_coords_positions _ _ _ _ _ k name Hl Hlen' Hk Hlast)
      as (cl & c & code & ? & ? & ? & ?).
    exists cl, c, code. by rewrite lookup_insert_ne.
Qed.

End columns.

(** X3. When the size vector is as long as the dimension list, every row
    that the decoder builds is the cell of one flat position below the
    product of the sizes. The row has one column per dimension and the
    column value, and no other; value holds the number that the value store
    has at that position, also when a dimension is called value; the column
    of a dimension holds the code that the coordinate of that position
    selects in its category list (for a name listed twice, the code of its
    last place). The rows are the row dicts handed to pandas, before any
    conversion of the column types. *)
Theorem X3_columns_of_a_row {V : Type} (js : Json V)
    (rows : list (gmap string (Cell V))) :
  let ds := unwrap js in
  jsonstat_to_dataframe js = Ok rows →
  length (js_id ds) = length (js_size ds) →
  ∃ cats,
    build_dim_categories (js_dimension ds) (js_id ds) = Ok cats ∧
    Forall (λ row,
      dom row = list_to_set (js_id ds) ∪ {["value"%string]} ∧
      ∃ flat v,
        0 ≤ flat < compute_n_obs (js_size ds) ∧
        get_value_at (js_value ds) flat = Ok (Some v) ∧
        row !! "value"%string = Some (Num v) ∧
        ∀ (k : nat) name,
          js_id ds !! k = Some name → name ≠ "value"%string →
          name ∉ drop (S k) (js_id ds) →
          ∃ cl c code,
            cats !! name = Some cl ∧
            successive_divmod flat (compute_strides (js_size ds)) !! k
              = Some c ∧
            list_getitem cl c = Ok code ∧
            row !! name = Some (Code code)) rows.
Proof.
  intros ds. rewrite jsonstat_to_dataframe_rowmajor. unfold rowmajor_decode.
  fold ds.
  destruct (build_dim_categories _ _) as [cats|e]; simpl; [|done].
  destruct (mapM _ _) as [os|e] eqn:Hm; simpl; [|done].
  intros [= <-] Hlen. exists cats. split; [done|].
  apply mapM_Ok_inv in Hm. apply Forall_forall. intros row Hrow.
  apply list_elem_of_omap in Hrow as (o & Ho & Hid). simpl in Hid. subst o.
  apply list_elem_of_lookup in Ho as (i & Hi).
  destruct (Forall2_lookup_r _ _ _ _ _ Hm Hi) as (flat & Hflat & Hobs).
  apply list_elem_of_lookup_2, elem_of_seqZ in Hflat.
  destruct (observation_at_columns _ _ _ _ Hobs Hlen) as (Hdom & v & Hrest).
  split; [done|]. exists flat, v. rewrite compute_n_obs_product.
  split; [lia|done].
Qed.

Lemma X3_columns_of_a_row_witness :
  ∃ cats,
    build_dim_categories (js_dimension dense_cube) (js_id dense_cube)
      = Ok cats ∧
    Forall (λ row,
      dom row = list_to_set (js_id dense_cube) ∪ {["value"%string]} ∧
      ∃ flat v,
        0 ≤ flat < compute_n_obs (js_size dense_cube) ∧
        get_value_at (js_value dense_cube) flat = Ok (Some v) ∧
        row !! "value"%string = Some (Num v) ∧
        ∀ (k : nat) name,
          js_id dense_cube !! k = Some name → name ≠ "value"%string →
          name ∉ drop (S k) (js_id dense_cube) →
          ∃ cl c code,
            cats !! name = Some cl ∧
            successive_divmod flat (compute_strides (js_size dense_cube)) !! k
              = Some c ∧
            list_getitem cl c = Ok code ∧
            row !! name = Some (Code code))
      [obs "A" "2020" 1; obs "A" "2021" 2; obs "A" "2022" 3;
       obs "B" "2020" 4; obs "B" "2021" 5; obs "B" "2022" 6].
Proof.
  apply (X3_columns_of_a_row (Bare dense_cube)).
  - vm_compute. reflexivity.
  - reflexivity.
Defined.

(** ** Coordinates and flat positions *)

Lemma successive_divmod_ravel (sizes : list Z) (flat : Z) :
  Forall (λ s, 0 ≤ s) sizes → 0 ≤ flat < product sizes →
  Forall2 (λ c s, 0 ≤ c < s)
    (successive_divmod flat (rowmajor_strides sizes)) sizes ∧
  ravel (successive_divmod flat (rowmajor_strides sizes))
        (rowmajor_strides sizes) = flat.
Proof.
  intros Hs. revert flat. induction Hs as [|s sizes Hs0 Hs IH]; intros flat Hf.
  - simpl in *. split; [constructor|]. unfold ravel. simpl. lia.
  - rewrite rowmajor_strides_cons. simpl in *.
    assert (0 ≤ product sizes) as Hp.
    { clear -Hs. induction Hs; simpl; lia. }
    assert (0 < product sizes) as Hp' by nia.
    destruct (IH (flat mod product sizes)) as [Hbounds Hravel].
    { by apply Z.mod_pos_bound. }
    split.
    + constructor; [|done]. split; [apply Z.div_pos; lia|].
      apply Z.div_lt_upper_bound; lia.
    + unfold ravel in *. simpl. rewrite Hravel.
      rewrite (Z.div_mod flat (product sizes)) at 3 by lia. lia.
Qed.

(** X4. In a cube without negative sizes the coordinates that the stride
    arithmetic gives a flat position below the product of the sizes are the
    ones the inner loop reads the category lists at, each lies from 0 up to,
    and excluding, the size of its dimension, and their sum weighted by the
    strides is the flat position again: two flat positions with the same
    coordinates are the same. *)
Theorem X4_coordinates_round_trip {V : Type} (sizes : list Z) (flat : Z) :
  Forall (λ s, 0 ≤ s) sizes → 0 ≤ flat < compute_n_obs sizes →
  (∀ ids cats,
     decode_coords (V:=V) ids sizes cats (compute_strides sizes) flat =
     label_coords cats ids
       (successive_divmod flat (compute_strides sizes)) ∅) ∧
  Forall2 (λ c s, 0 ≤ c < s)
    (successive_divmod flat (compute_strides sizes)) sizes ∧
  ravel (successive_divmod flat (compute_strides sizes))
        (compute_strides sizes) = flat ∧
  (∀ flat', 0 ≤ flat' < compute_n_obs sizes →
     successive_divmod flat' (compute_strides sizes) =
     successive_divmod flat (compute_strides sizes) → flat' = flat).
Proof.
  rewrite compute_n_obs_product. intros Hs Hflat.
  destruct (successive_divmod_ravel sizes flat Hs Hflat) as [Hbounds Hravel].
  split; [|split; [|split]].
  - intros ids cats. rewrite decode_coords_label by lia.
    by rewrite compute_strides_rowmajor.
  - by rewrite compute_strides_rowmajor.
  - by rewrite compute_strides_rowmajor.
  - intros flat' Hflat' Heq. rewrite compute_strides_rowmajor in Heq.
    destruct (successive_divmod_ravel sizes flat' Hs Hflat') as [_ Hravel'].
    congruence.
Qed.

Lemma X4_coordinates_round_trip_witness :
  Forall2 (λ c s, 0 ≤ c < s)
    (successive_divmod 4 (compute_strides [2; 3])) [2; 3] ∧
  ravel (successive_divmod 4 (compute_strides [2; 3]))
        (compute_strides [2; 3]) = 4.
Proof.
  destruct (X4_coordinates_round_trip (V:=Z) [2; 3] 4) as (_ & Hb & Hr & _).
  - repeat constructor; lia.
  - vm_compute. split; [discriminate | reflexivity].
  - split; [exact Hb | exact Hr].
Defined.

(** ** A dense store and its sparse form *)

Section dense_sparse.
Context {V : Type}.

Lemma sparse_of_dense_from_lookup (l : list (option V)) (i flat : Z) :
  default None (sparse_of_dense_from i l !! str flat) =
  if bool_decide (i ≤ flat) then default None (l !! Z.to_nat (flat - i))
  else None.
Proof.
  revert i. induction l as [|v l IH]; intros i; simpl.
  - rewrite lookup_empty. by case_bool_decide.
  - assert (default None (sparse_of_dense_from (i + 1) l !! str flat) =
            if bool_decide (i < flat)
            then default None (l !! Z.to_nat (flat - (i + 1))) else None) as IH'.
    { rewrite IH. repeat case_bool_decide; try done; lia. }
    destruct (decide (flat = i)) as [->|Hne].
    + rewrite Z.sub_diag. rewrite bool_decide_eq_true_2 by lia. simpl.
      rewrite bool_decide_eq_false_2 in IH' by lia.
      destruct v as [v|]; [by rewrite lookup_insert_eq | done].
    + assert (sparse_of_dense_from i (v :: l) !! str flat =
              sparse_of_dense_from (i + 1) l !! str flat) as Hskip.
      { destruct v as [v|]; simpl; [|done].
        apply lookup_insert_ne. unfold str. intros ?%(inj pretty). done. }
      simpl in Hskip. rewrite Hskip, IH'.
      repeat case_bool_decide; try done; try lia.
      replace (Z.to_nat (flat - i)) with (S (Z.to_nat (flat - (i + 1)))) by lia.
      done.
Qed.

Lemma get_value_at_sparse_of_dense (l : list (option V)) (flat : Z) :
  0 ≤ flat < Z.of_nat (length l) →
  get_value_at (JDict (sparse_of_dense l)) flat = get_value_at (JList l) flat.
Proof.
  intros Hflat. simpl. unfold sparse_of_dense.
  rewrite sparse_of_dense_from_lookup, bool_decide_eq_true_2 by lia.
  rewrite Z.sub_0_r.
  destruct (list_getitem_inside l flat Hflat) as (v & -> & ->). done.
Qed.

(** X5. A dense store that has at least as many entries as the product of
    the sizes and the sparse store of its entries that are not null decode
    to the same result. *)
Theorem X5_dense_and_sparse_agree (ds : JsonStat V) (l : list (option V)) :
  product (js_size ds) ≤ Z.of_nat (length l) →
  jsonstat_to_dataframe (Bare (with_value ds (JDict (sparse_of_dense l)))) =
  jsonstat_to_dataframe (Bare (with_value ds (JList l))).
Proof.
  intros Hlen. rewrite !jsonstat_to_dataframe_rowmajor.
  unfold rowmajor_decode. simpl.
  destruct (build_dim_categories _ _) as [cats|e]; simpl; [|done].
  f_equal. apply mapM_ext_in. intros flat Hflat%elem_of_seqZ.
  unfold observation_at.
  change (js_id (with_value ds ?v)) with (js_id ds).
  change (js_size (with_value ds ?v)) with (js_size ds).
  change (js_value (with_value ds ?v)) with v.
  rewrite get_value_at_sparse_of_dense by lia. done.
Qed.

End dense_sparse.

Lemma X5_dense_and_sparse_agree_witness :
  jsonstat_to_dataframe
    (Bare (with_value dense_cube
             (JDict (sparse_of_dense [Some 1; None; Some 3; None; None; Some 6]))))
  = jsonstat_to_dataframe
      (Bare (with_value dense_cube
               (JList [Some 1; None; Some 3; None; None; Some 6]))).
Proof.
  apply (X5_dense_and_sparse_agree dense_cube
           [Some 1; None; Some 3; None; None; Some 6]).
  vm_compute. discriminate.
Defined.

(** ** The category list of an index *)

Lemma pos_to_code_from_keeps (index : list (string * Z)) (acc : gmap Z string)
    (i : Z) :
  i ∉ index.*2 →
  foldl (λ m '(code, pos), <[pos := code]> m) acc index !! i = acc !! i.
Proof.
  revert acc. induction index as [|[code pos] index IH]; intros acc Hi; simpl;
    [done|].
  rewrite IH by (intros ?; apply Hi; by right).
  apply lookup_insert_ne. intros ->. apply Hi. by left.
Qed.

Lemma pos_to_code_of_last (l1 l2 : list (string * Z)) (code : string) (i : Z) :
  i ∉ l2.*2 → pos_to_code_of (l1 ++ (code, i) :: l2) !! i = Some code.
Proof.
  intros Hi. unfold pos_to_code_of. rewrite foldl_app. simpl.
  rewrite pos_to_code_from_keeps by done. apply lookup_insert_eq.
Qed.

Lemma pos_to_code_of_None (index : list (string * Z)) (i : Z) :
  i ∉ index.*2 → pos_to_code_of index !! i = None.
Proof.
  intros Hi. unfold pos_to_code_of. by rewrite pos_to_code_from_keeps.
Qed.

Lemma pos_to_code_of_is_Some (index : list (string * Z)) (i : Z) :
  i ∈ index.*2 → is_Some (pos_to_code_of index !! i).
Proof.
  induction index as [|[code pos] index IH] using rev_ind;
    [by intros ?%elem_of_nil|].
  rewrite fmap_app, elem_of_app. simpl. intros Hi.
  destruct (decide (i = pos)) as [->|Hne].
  - exists code. apply pos_to_code_of_last. by intros ?%elem_of_nil.
  - unfold pos_to_code_of in *. rewrite foldl_app. simpl.
    rewrite lookup_insert_ne by done. apply IH.
    destruct Hi as [Hi|Hi]; [done|].
    by apply list_elem_of_singleton in Hi.
Qed.

(** The largest position of a non-empty index bounds its positions, and
    the category list is read at the positions up to it. *)
Lemma ordered_codes_of_range (index : list (string * Z)) :
  index ≠ [] →
  ∃ max_pos,
    max_pos ∈ index.*2 ∧ (∀ p, p ∈ index.*2 → p ≤ max_pos) ∧
    ordered_codes_of index =
    mapM (λ i, dict_getitem (pos_to_code_of index) i) (range (max_pos + 1)).
Proof.
  intros Hne. unfold ordered_codes_of.
  assert (∀ p, p ∈ (map_to_list (pos_to_code_of index)).*1 ↔ p ∈ index.*2)
    as Hkeys.
  { intros p. rewrite list_elem_of_fmap. split.
    - intros ([p' code] & -> & Hp%elem_of_map_to_list). simpl.
      destruct (decide (p' ∈ index.*2)) as [|Hn]; [done|].
      by rewrite pos_to_code_of_None in Hp.
    - intros [code Hp]%pos_to_code_of_is_Some.
      exists (p, code). split; [done|]. by apply elem_of_map_to_list. }
  destruct ((map_to_list (pos_to_code_of index)).*1) as [|k ks] eqn:Hks.
  - destruct index as [|[code pos] index]; [done|].
    assert (pos ∈ ([] : list Z)) as Hin; [|by apply elem_of_nil in Hin].
    apply Hkeys. simpl. by left.
  - destruct (foldl_max_bound k ks) as [Hle Hin].
    exists (foldl Z.max k ks). split; [by apply Hkeys|]. split; [|done].
    intros p Hp. by apply Hle, Hkeys.
Qed.

Lemma mapM_dict_getitem_seqZ (m : gmap Z string) (codes : list string) (k : Z) :
  (∀ i : nat, (i < length codes)%nat → m !! (k + Z.of_nat i) = codes !! i) →
  mapM (λ i, dict_getitem m i) (seqZ k (Z.of_nat (length codes))) = Ok codes.
Proof.
  revert k. induction codes as [|code codes IH]; intros k Hm.
  - by rewrite seqZ_nil.
  - rewrite seqZ_cons by (simpl; lia).
    replace (Z.pred (Z.of_nat (length (code :: codes))))
      with (Z.of_nat (length codes)) by (simpl; lia).
    simpl.
    assert (dict_getitem m k = Ok code) as ->.
    { unfold dict_getitem. specialize (Hm 0%nat) as H0.
      rewrite Z.add_0_r in H0. by rewrite H0 by (simpl; lia). }
    simpl. rewrite IH; [done|]. intros i Hi.
    replace (Z.succ k + Z.of_nat i) with (k + Z.of_nat (S i)) by lia.
    apply (Hm (S i)). simpl. lia.
Qed.

(** X6. When the index of a category gives the codes of a non-empty list
    the positions 0, 1, 2, ... of that list, in whatever order the items
    come, the category list that the decoder builds is that list. *)
Theorem X6_category_list_of_an_index (codes : list string)
    (index : list (string * Z)) :
  codes ≠ [] →
  index ≡ₚ zip codes (seqZ 0 (Z.of_nat (length codes))) →
  ordered_codes_of index = Ok codes.
Proof.
  intros Hcodes Hperm.
  assert (index.*2 ≡ₚ seqZ 0 (Z.of_nat (length codes))) as Hpos.
  { rewrite Hperm, snd_zip; [done|]. rewrite length_seqZ. lia. }
  assert (∀ i : nat, (i < length codes)%nat →
            pos_to_code_of index !! (0 + Z.of_nat i) = codes !! i) as Hm.
  { intros i Hi. destruct (lookup_lt_is_Some_2 codes i Hi) as [code Hc].
    rewrite Hc, Z.add_0_l.
    assert ((code, Z.of_nat i) ∈ index) as Hin.
    { rewrite Hperm. apply (list_elem_of_lookup_2 _ i).
      apply lookup_zip_with_Some. exists code, (Z.of_nat i).
      split; [done|]. split; [done|]. rewrite lookup_seqZ_lt by lia. f_equal. }
    apply list_elem_of_split in Hin as (l1 & l2 & ->).
    apply pos_to_code_of_last.
    assert (NoDup ((l1 ++ (code, Z.of_nat i) :: l2).*2)) as Hnd.
    { rewrite Hpos. apply NoDup_seqZ. }
    rewrite fmap_app in Hnd. simpl in Hnd.
    apply NoDup_app in Hnd as (_ & _ & Hnd). by apply NoDup_cons in Hnd as []. }
  destruct (ordered_codes_of_range index) as (max_pos & Hin & Hmax & ->).
  { intros ->. apply Permutation_nil_l in Hperm.
    destruct codes; [done|]. rewrite seqZ_cons in Hperm by (simpl; lia). done. }
  assert (max_pos + 1 = Z.of_nat (length codes)) as ->.
  { rewrite Hpos in Hin. apply elem_of_seqZ in Hin.
    assert (Z.of_nat (length codes) - 1 ≤ max_pos); [|lia].
    apply Hmax. rewrite Hpos. apply elem_of_seqZ.
    destruct codes; [done|]. simpl. lia. }
  by apply mapM_dict_getitem_seqZ.
Qed.

Lemma X6_category_list_of_an_index_witness :
  ordered_codes_of [("2021"%string, 1); ("2020"%string, 0); ("2022"%string, 2)]
  = Ok ["2020"; "2021"; "2022"]%string.
Proof.
  apply X6_category_list_of_an_index; [discriminate|].
  change (seqZ 0 (Z.of_nat (length ["2020"; "2021"; "2022"]%string)))
    with [0; 1; 2]. simpl. apply Permutation_swap.
Defined.

(** ** Category lists that cannot be built *)

Lemma ordered_codes_of_gap (index : list (string * Z)) (code : string)
    (p i : Z) :
  (code, p) ∈ index → 0 ≤ i < p → i ∉ index.*2 →
  ordered_codes_of index = Raise KeyError.
Proof.
  intros Hp Hi Hgap.
  destruct (ordered_codes_of_range index) as (max_pos & _ & Hmax & ->).
  { intros ->. by apply elem_of_nil in Hp. }
  assert (p ≤ max_pos) as Hle.
  { apply Hmax, list_elem_of_fmap. by exists (code, p). }
  apply (mapM_raise_all _ _ i).
  - intros y e _ Hy. unfold dict_getitem in Hy.
    destruct (pos_to_code_of index !! y); simpl in Hy; congruence.
  - apply elem_of_seqZ. lia.
  - unfold dict_getitem. by rewrite pos_to_code_of_None.
Qed.

Lemma build_dim_categories_KeyError (dim : gmap string Dimension)
    (ids : list string) (name : string) (e : PyExc) :
  name ∈ ids → categories_of dim name = Raise e →
  build_dim_categories dim ids = Raise KeyError.
Proof.
  intros Hin Hname. unfold build_dim_categories.
  generalize (∅ : gmap string (list string)).
  induction ids as [|x ids IH]; intros acc; [by apply elem_of_nil in Hin|].
  simpl. destruct (categories_of dim x) as [codes|e'] eqn:Hx; simpl.
  - apply IH. apply elem_of_cons in Hin as [->|Hin]; [congruence|done].
  - by apply categories_of_raise in Hx as ->.
Qed.

(** X7. When the index of a listed dimension uses a position and leaves a
    smaller non-negative position without a code, the decoder raises
    KeyError, whatever the sizes and the value store are. *)
Theorem X7_position_gap_raises_KeyError {V : Type} (js : Json V)
    (name : string) (d : Dimension) (cat : Category)
    (idx : list (string * Z)) (code : string) (p i : Z) :
  name ∈ js_id (unwrap js) →
  js_dimension (unwrap js) !! name = Some d →
  category d = Some cat → index cat = Some idx →
  (code, p) ∈ idx → 0 ≤ i < p → i ∉ idx.*2 →
  jsonstat_to_dataframe js = Raise KeyError.
Proof.
  intros Hin Hd Hcat Hidx Hp Hi Hgap. unfold jsonstat_to_dataframe.
  rewrite (build_dim_categories_KeyError _ _ name KeyError Hin); [done|].
  unfold categories_of, dict_getitem. rewrite Hd. simpl. rewrite Hcat. simpl.
  rewrite Hidx. simpl. by eapply ordered_codes_of_gap.
Qed.

Lemma X7_position_gap_raises_KeyError_witness :
  jsonstat_to_dataframe
    (Bare {| js_dimension :=
               {[ "geo"%string :=
                    index_dimension [("A"%string, 0); ("C"%string, 2)] ]};
             js_value := JList [Some 1; Some 2; Some 3];
             js_id := ["geo"%string];
             js_size := [3] |})
  = Raise KeyError.
Proof.
  apply (X7_position_gap_raises_KeyError
           (Bare {| js_dimension :=
                      {[ "geo"%string :=
                           index_dimension [("A"%string, 0); ("C"%string, 2)] ]};
                    js_value := JList [Some 1; Some 2; Some 3];
                    js_id := ["geo"%string];
                    js_size := [3] |})
           "geo" (index_dimension [("A"%string, 0); ("C"%string, 2)])
           {| index := Some [("A"%string, 0); ("C"%string, 2)] |}
           [("A"%string, 0); ("C"%string, 2)] "C" 2 1).
  - simpl. by left.
  - reflexivity.
  - reflexivity.
  - reflexivity.
  - right. by left.
  - lia.
  - simpl. intros Hin. repeat (apply elem_of_cons in Hin as [Hin|Hin]; [lia|]).
    by apply elem_of_nil in Hin.
Defined.

(** X8. When a listed dimension is missing from the dimension object, or
    has no category, the decoder raises KeyError, also when the product of
    the sizes is 0 and no flat position would be decoded. *)
Theorem X8_missing_dimension_raises_KeyError {V : Type} (js : Json V)
    (name : string) :
  name ∈ js_id (unwrap js) →
  js_dimension (unwrap js) !! name = None ∨
    (∃ d, js_dimension (unwrap js) !! name = Some d ∧ category d = None) →
  jsonstat_to_dataframe js = Raise KeyError.
Proof.
  intros Hin Hmiss. unfold jsonstat_to_dataframe.
  rewrite (build_dim_categories_KeyError _ _ name KeyError Hin); [done|].
  unfold categories_of, dict_getitem.
  destruct Hmiss as [->|(d & -> & Hcat)]; simpl; [done|]. by rewrite Hcat.
Qed.

Lemma X8_missing_dimension_raises_KeyError_witness :
  jsonstat_to_dataframe
    (Bare {| js_dimension := geo_time;
             js_value := JList ([] : list (option Z));
             js_id := ["geo"; "unit"]%string;
             js_size := [2; 0] |})
  = Raise KeyError.
Proof.
  apply (X8_missing_dimension_raises_KeyError
           (Bare {| js_dimension := geo_time;
                    js_value := JList ([] : list (option Z));
                    js_id := ["geo"; "unit"]%string;
                    js_size := [2; 0] |}) "unit").
  - simpl. right. by left.
  - left. reflexivity.
Defined.

(** ** The loop of the crawl *)

Section crawl_loop.
Context {V : Type}.
Implicit Types (datasets : list (string * Response V))
  (frames : list (list (gmap string (Cell V)))).

Lemma crawl_dataset_rows frames (dataset : string * Response V) :
  crawl_dataset frames dataset =
  dataset_rows dataset ≫= λ df,
    Ok (frames ++ kept_frames [(dataset.1, df)]).
Proof.
  destruct dataset as [code resp]. unfold crawl_dataset, dataset_rows. simpl.
  destruct (fetch_eurostat_json_response resp) as [js|]; simpl.
  - destruct (jsonstat_to_dataframe js) as [[|row df]|e]; simpl; [|done..].
    by rewrite app_nil_r.
  - by rewrite app_nil_r.
Qed.

Lemma kept_frames_app (l1 l2 : list (string * list (gmap string (Cell V)))) :
  kept_frames (l1 ++ l2) = kept_frames l1 ++ kept_frames l2.
Proof. unfold kept_frames. apply omap_app. Qed.

Lemma crawl_loop datasets frames :
  foldM crawl_dataset frames datasets =
  mapM dataset_rows datasets ≫= λ dfs,
    Ok (frames ++ kept_frames (zip datasets.*1 dfs)).
Proof.
  revert frames. induction datasets as [|dataset datasets IH]; intros frames.
  - simpl. by rewrite app_nil_r.
  - simpl. rewrite crawl_dataset_rows.
    destruct (dataset_rows dataset) as [df|e]; simpl; [|done].
    rewrite IH. destruct (mapM dataset_rows datasets) as [dfs|e]; simpl; [|done].
    rewrite <- app_assoc. do 2 f_equal.
    by destruct df.
Qed.

End crawl_loop.

Section crawl_compose.
Context {V : Type}.
Implicit Types (datasets : list (string * Response V)).

Lemma crawl_eurostat_datasets_frames datasets :
  crawl_eurostat_datasets datasets =
  foldM crawl_dataset [] datasets ≫= λ frames,
    match frames with
    | [] => Ok {| df_columns := []; df_rows := [] |}
    | _ :: _ =>
        Ok {| df_columns :=
                filter (λ col, col ∈ (⋃ (dom <$> mjoin frames) : gset string))
                       desired_order;
              df_rows :=
                (λ row, filter (λ kv, kv.1 ∈
                   filter (λ col, col ∈ (⋃ (dom <$> mjoin frames)
                                         : gset string)) desired_order) row)
                  <$> mjoin frames |}
    end.
Proof. done. Qed.

(** X9. A dataset that the server answers with a status from 400 to 599,
    or whose answer decodes to no row, leaves no trace in the crawl: the
    result is that of the crawl without it. *)
Theorem X9_crawl_skips_dataset datasets1 datasets2
    (code : string) (resp : Response V) :
  400 ≤ status_code resp < 600 ∨ jsonstat_to_dataframe (json resp) = Ok [] →
  crawl_eurostat_datasets (datasets1 ++ (code, resp) :: datasets2) =
  crawl_eurostat_datasets (datasets1 ++ datasets2).
Proof.
  intros Hskip. rewrite !crawl_eurostat_datasets_frames, !foldM_app.
  destruct (foldM crawl_dataset [] datasets1) as [frames|e]; [|done].
  change (Ok frames ≫= λ s', foldM crawl_dataset s' ((code, resp) :: datasets2))
    with (crawl_dataset frames (code, resp) ≫= λ s,
          foldM crawl_dataset s datasets2).
  assert (crawl_dataset frames (code, resp) = Ok frames) as ->; [|done].
  unfold crawl_dataset, fetch_eurostat_json_response.
  repeat case_bool_decide; try done; try lia.
  destruct Hskip as [? | ->]; [lia|done].
Qed.

(** X10. When the crawl of the first datasets succeeds and the next one is
    answered with a status outside 400 to 599 but the decoder raises on the
    answer, the whole crawl raises that exception, whatever datasets
    follow: no frame is returned. *)
Theorem X10_crawl_raises_with_decoder datasets1 datasets2
    (code : string) (resp : Response V) (df : DataFrame V) (e : PyExc) :
  crawl_eurostat_datasets datasets1 = Ok df →
  ¬ 400 ≤ status_code resp < 600 →
  jsonstat_to_dataframe (json resp) = Raise e →
  crawl_eurostat_datasets (datasets1 ++ (code, resp) :: datasets2) = Raise e.
Proof.
  intros Hfirst Hstatus Hraise.
  rewrite crawl_eurostat_datasets_frames in Hfirst.
  rewrite crawl_eurostat_datasets_frames, foldM_app.
  destruct (foldM crawl_dataset [] datasets1) as [frames|e']; [|done].
  change (Ok frames ≫= λ s', foldM crawl_dataset s' ((code, resp) :: datasets2))
    with (crawl_dataset frames (code, resp) ≫= λ s,
          foldM crawl_dataset s datasets2).
  assert (crawl_dataset frames (code, resp) = Raise e) as ->; [|done].
  unfold crawl_dataset, fetch_eurostat_json_response.
  repeat case_bool_decide; try lia. by rewrite Hraise.
Qed.

End crawl_compose.

Lemma X9_crawl_skips_dataset_witness :
  crawl_eurostat_datasets
    ([("a"%string, {| status_code := 200; json := Bare dense_cube |})] ++
     ("b"%string, {| status_code := 503; json := Bare dense_cube |}) :: []) =
  crawl_eurostat_datasets
    ([("a"%string, {| status_code := 200; json := Bare dense_cube |})] ++ []).
Proof.
  apply (X9_crawl_skips_dataset
           [("a"%string, {| status_code := 200; json := Bare dense_cube |})] []
           "b" {| status_code := 503; json := Bare dense_cube |}).
  left. simpl. lia.
Defined.

Lemma X10_crawl_raises_with_decoder_witness :
  crawl_eurostat_datasets
    ([] ++ ("a"%string, {| status_code := 200; json := Bare short_geo_cube |})
        :: [("b"%string, {| status_code := 200; json := Bare dense_cube |})])
  = Raise IndexError.
Proof.
  apply (X10_crawl_raises_with_decoder [] _ "a"
           {| status_code := 200; json := Bare short_geo_cube |}
           {| df_columns := []; df_rows := [] |} IndexError).
  - reflexivity.
  - simpl. lia.
  - vm_compute. reflexivity.
Defined.

(** ** The rows of the crawl *)

Section crawl_rows.
Context {V : Type}.
Implicit Types (row : gmap string (Cell V)) (df : list (gmap string (Cell V)))
  (decoded : list (string * list (gmap string (Cell V)))).

Lemma decode_rows_have_value (js : Json V) df :
  jsonstat_to_dataframe js = Ok df →
  Forall (λ row, ∃ v, row !! "value"%string = Some (Num v)) df.
Proof.
  rewrite jsonstat_to_dataframe_rowmajor. unfold rowmajor_decode.
  destruct (build_dim_categories _ _) as [cats|e]; simpl; [|done].
  destruct (mapM _ _) as [os|e] eqn:Hm; simpl; [|done].
  intros [= <-]. apply mapM_Ok_inv in Hm. apply Forall_forall. intros row Hrow.
  apply list_elem_of_omap in Hrow as (o & Ho & Hid). simpl in Hid. subst o.
  apply list_elem_of_lookup in Ho as (i & Hi).
  destruct (Forall2_lookup_r _ _ _ _ _ Hm Hi) as (flat & _ & Hflat).
  unfold observation_at in Hflat.
  destruct (label_coords _ _ _ _) as [codes|e]; simpl in Hflat; [|done].
  destruct (get_value_at _ _) as [[v|]|e]; simplify_eq/=.
  exists v. apply lookup_insert_eq.
Qed.

Lemma dataset_rows_have_value (dataset : string * Response V) df :
  dataset_rows dataset = Ok df →
  Forall (λ row, ∃ v, row !! "value"%string = Some (Num v)) df.
Proof.
  unfold dataset_rows.
  destruct (fetch_eurostat_json_response _) as [js|].
  - apply decode_rows_have_value.
  - intros [= <-]. constructor.
Qed.

Lemma enumerate_lookup {A : Type} (l : list A) (i : nat) :
  enumerate l !! i = (λ x, (Z.of_nat i, x)) <$> l !! i.
Proof.
  unfold enumerate. destruct (l !! i) as [x|] eqn:Hl; simpl.
  - apply lookup_zip_with_Some. exists (Z.of_nat i), x.
    split; [done|]. split; [|done].
    rewrite lookup_seqZ_lt; [done|]. apply lookup_lt_Some in Hl. lia.
  - apply lookup_zip_with_None. by right.
Qed.

Lemma with_ids_lookup (code : string) df (i : nat) :
  with_ids code df !! i =
  (λ row, <["OpenKIWAS_ID"%string := Code (openkiwas_id code (Z.of_nat i))]>
            (<["dataset_code"%string := Code code]> row)) <$> df !! i.
Proof.
  unfold with_ids. rewrite list_lookup_fmap, enumerate_lookup, list_lookup_fmap.
  by destruct (df !! i).
Qed.

Lemma length_with_ids (code : string) df :
  length (with_ids code df) = length df.
Proof.
  unfold with_ids, enumerate.
  rewrite length_fmap, length_zip_with, length_seqZ, length_fmap. lia.
Qed.

Lemma with_ids_column (code : string) df :
  (λ row, row !! "OpenKIWAS_ID"%string) <$> with_ids code df =
  (λ id, Some (Code id)) <$>
    (openkiwas_id code <$> seqZ 0 (Z.of_nat (length df))).
Proof.
  apply list_eq. intros i.
  rewrite !list_lookup_fmap, with_ids_lookup.
  destruct (df !! i) as [row|] eqn:Hi; simpl.
  - rewrite lookup_seqZ_lt by (apply lookup_lt_Some in Hi; lia). simpl.
    by rewrite lookup_insert_eq.
  - rewrite lookup_seqZ_ge; [done|]. apply lookup_ge_None in Hi. lia.
Qed.

Lemma frame_ids_cons (code : string) df decoded :
  frame_ids ((code, df) :: decoded) =
  (openkiwas_id code <$> seqZ 0 (Z.of_nat (length df))) ++ frame_ids decoded.
Proof. done. Qed.

Lemma kept_frames_cons (code : string) df decoded :
  kept_frames ((code, df) :: decoded) =
  match df with
  | [] => kept_frames decoded
  | _ :: _ => with_ids code df :: kept_frames decoded
  end.
Proof. by destruct df. Qed.

Lemma kept_frames_ids decoded :
  (λ row, row !! "OpenKIWAS_ID"%string) <$> mjoin (kept_frames decoded) =
  (λ id, Some (Code id)) <$> frame_ids decoded.
Proof.
  induction decoded as [|[code df] decoded IH]; [done|].
  rewrite frame_ids_cons, kept_frames_cons, fmap_app, <- IH.
  destruct df as [|row df]; [done|].
  change (mjoin (?x :: ?l)) with (x ++ mjoin l).
  rewrite fmap_app. f_equal. apply with_ids_column.
Qed.

Lemma kept_frames_rows decoded row :
  row ∈ mjoin (kept_frames decoded) →
  ∃ code df (i : nat) row0,
    (code, df) ∈ decoded ∧ df !! i = Some row0 ∧
    row = <["OpenKIWAS_ID"%string := Code (openkiwas_id code (Z.of_nat i))]>
            (<["dataset_code"%string := Code code]> row0).
Proof.
  intros (frame & Hrow & Hframe)%list_elem_of_join.
  apply list_elem_of_omap in Hframe as ([code df] & Hin & Hkept).
  destruct df as [|r df]; simplify_eq/=.
  apply list_elem_of_lookup in Hrow as (i & Hi).
  rewrite with_ids_lookup in Hi.
  destruct ((r :: df) !! i) as [row0|] eqn:Hrow0; simplify_eq/=.
  by exists code, (r :: df), i, row0.
Qed.

End crawl_rows.

Section crawl_result.
Context {V : Type}.
Implicit Types (datasets : list (string * Response V)) (df : DataFrame V).

Lemma crawl_eurostat_datasets_Ok datasets df :
  crawl_eurostat_datasets datasets = Ok df →
  ∃ dfs,
    mapM dataset_rows datasets = Ok dfs ∧
    df_columns df =
      filter (λ col, col ∈ (⋃ (dom <$> mjoin (kept_frames (zip datasets.*1 dfs)))
                            : gset string)) desired_order ∧
    df_rows df =
      (λ row, filter (λ kv, kv.1 ∈ df_columns df) row)
        <$> mjoin (kept_frames (zip datasets.*1 dfs)).
Proof.
  rewrite crawl_eurostat_datasets_frames, crawl_loop.
  destruct (mapM dataset_rows datasets) as [dfs|e]; simpl; [|done].
  intros Hdf. exists dfs. split; [done|].
  destruct (kept_frames (zip datasets.*1 dfs)) as [|frame frames];
    injection Hdf as <-; done.
Qed.

Lemma crawl_column_kept datasets df dfs (name : string)
    (row : gmap string (Cell V)) :
  df_columns df =
    filter (λ col, col ∈ (⋃ (dom <$> mjoin (kept_frames (zip datasets.*1 dfs)))
                          : gset string)) desired_order →
  row ∈ mjoin (kept_frames (zip datasets.*1 dfs)) →
  name ∈ desired_order → is_Some (row !! name) →
  filter (λ kv, kv.1 ∈ df_columns df) row !! name = row !! name.
Proof.
  intros Hcols Hrow Hname [c Hc]. rewrite Hc.
  apply map_lookup_filter_Some. split; [done|]. simpl. rewrite Hcols.
  apply list_elem_of_filter. split; [|done].
  apply elem_of_union_list. exists (dom row). split.
  - apply list_elem_of_fmap. by exists row.
  - apply elem_of_dom. by exists c.
Qed.

(** X11. The frame that the crawl returns has its columns among the nine
    names of the fixed list, in the order of that list, and no row holds a
    cell outside these columns: a dimension of another name is dropped.
    Every row holds the code of one of the datasets, an identifier made of
    that code and a number from 1 on, and its value. *)
Theorem X11_columns_of_the_crawl datasets df :
  crawl_eurostat_datasets datasets = Ok df →
  df_columns df `sublist_of` desired_order ∧
  Forall (λ row, ∀ name, is_Some (row !! name) → name ∈ df_columns df)
         (df_rows df) ∧
  Forall (λ row, ∃ code i v,
            code ∈ datasets.*1 ∧ 0 ≤ i ∧
            row !! "dataset_code"%string = Some (Code code) ∧
            row !! "OpenKIWAS_ID"%string = Some (Code (openkiwas_id code i)) ∧
            row !! "value"%string = Some (Num v))
         (df_rows df).
Proof.
  intros (dfs & Hdfs & Hcols & Hrows)%crawl_eurostat_datasets_Ok.
  split; [|split].
  - rewrite Hcols. apply sublist_filter.
  - rewrite Hrows. apply Forall_fmap, Forall_forall. intros row _ name [c Hc].
    by apply map_lookup_filter_Some in Hc as [_ Hc].
  - rewrite Hrows. apply Forall_fmap, Forall_forall. intros row Hrow. simpl.
    pose proof Hrow as Hin.
    apply kept_frames_rows in Hin as (code & rows0 & i & row0 & Hin & Hi & ->).
    apply list_elem_of_lookup in Hin as (k & Hk).
    apply lookup_zip_with_Some in Hk as (code' & rows' & [= <- <-] & Hcode & Hk).
    apply mapM_Ok_inv in Hdfs.
    destruct (Forall2_lookup_r _ _ _ _ _ Hdfs Hk) as (dataset & _ & Hdataset).
    apply dataset_rows_have_value in Hdataset.
    destruct (proj1 (Forall_lookup _ _) Hdataset i row0 Hi) as [v Hv].
    exists code, (Z.of_nat i), v.
    split; [by eapply list_elem_of_lookup_2|]. split; [lia|].
    rewrite !(crawl_column_kept datasets df dfs) by
      (try done; try (by rewrite ?lookup_insert_ne, ?lookup_insert_eq by done);
       vm_compute; set_solver).
    by rewrite lookup_insert_ne, lookup_insert_eq, lookup_insert_eq,
      !lookup_insert_ne by done.
Qed.

Lemma crawl_identifiers datasets df :
  crawl_eurostat_datasets datasets = Ok df →
  ∃ dfs,
    mapM dataset_rows datasets = Ok dfs ∧
    (λ row, row !! "OpenKIWAS_ID"%string) <$> df_rows df =
    (λ id, Some (Code id)) <$> frame_ids (zip datasets.*1 dfs).
Proof.
  intros (dfs & Hdfs & Hcols & Hrows)%crawl_eurostat_datasets_Ok.
  exists dfs. split; [done|].
  rewrite <- kept_frames_ids, Hrows, <- list_fmap_compose.
  apply list_fmap_ext. intros k row Hk%list_elem_of_lookup_2. simpl.
  pose proof Hk as (code & ? & i & ? & _ & _ & ->)%kept_frames_rows.
  apply (crawl_column_kept datasets df dfs); [done..| |].
  - vm_compute. set_solver.
  - by rewrite lookup_insert_eq.
Qed.

(** X12. The identifiers of the rows of the returned frame are, dataset
    after dataset in the order of the crawl, the identifiers numbered 1,
    2, ... up to the number of rows decoded for that dataset: the numbering
    starts again with every dataset. *)
Theorem X12_identifiers_of_the_crawl datasets df :
  crawl_eurostat_datasets datasets = Ok df →
  ∃ dfs,
    mapM dataset_rows datasets = Ok dfs ∧
    (λ row, row !! "OpenKIWAS_ID"%string) <$> df_rows df =
    (λ id, Some (Code id)) <$> frame_ids (zip datasets.*1 dfs).
Proof. apply crawl_identifiers. Qed.

End crawl_result.

(** ** The identifiers are distinct *)

Lemma string_app_cons (c : ascii) (s t : string) :
  String c s +:+ t = String c (s +:+ t).
Proof. done. Qed.

Lemma string_app_nil_l (t : string) : EmptyString +:+ t = t.
Proof. done. Qed.

Lemma string_app_assoc (s t u : string) : (s +:+ t) +:+ u = s +:+ (t +:+ u).
Proof.
  induction s as [|c s IH]; [done|]. by rewrite !string_app_cons, IH.
Qed.

Lemma all_digits_app (s t : string) :
  all_digits (s +:+ t) = all_digits s && all_digits t.
Proof.
  induction s as [|c s IH]; [done|].
  rewrite string_app_cons. simpl. rewrite IH. by rewrite andb_assoc.
Qed.

Lemma is_digit_pretty_N_char (x : N) : is_digit (pretty_N_char x) = true.
Proof. unfold pretty_N_char. by repeat case_match. Qed.

Lemma pretty_N_go_digits (x : N) (s : string) :
  (0 < x)%N →
  ∃ c rest, pretty_N_go x s = String c (rest +:+ s) ∧
            is_digit c = true ∧ c ≠ "0"%char ∧ all_digits rest = true.
Proof.
  revert s. induction (N.lt_wf_0 x) as [x _ IH]; intros s Hx.
  rewrite pretty_N_go_step by done.
  destruct (decide (x `div` 10 = 0)%N) as [Hq|Hq].
  - rewrite Hq, pretty_N_go_0.
    exists (pretty_N_char (x `mod` 10)), EmptyString.
    split; [done|]. split; [apply is_digit_pretty_N_char|]. split; [|done].
    apply N.div_small_iff in Hq; [|done].
    rewrite N.mod_small by done. clear IH.
    destruct x as [|p]; [lia|]. unfold pretty_N_char.
    repeat case_match; first [discriminate | lia].
  - assert (x `div` 10 < x)%N as Hlt by by apply N.div_lt.
    assert (0 < x `div` 10)%N as Hpos by by apply N.neq_0_lt_0.
    destruct (IH _ Hlt (String (pretty_N_char (x `mod` 10)) s) Hpos)
      as (c & rest & -> & Hc & Hc0 & Hrest).
    exists c, (rest +:+ String (pretty_N_char (x `mod` 10)) EmptyString).
    split; [by rewrite string_app_assoc|]. split; [done|]. split; [done|].
    rewrite all_digits_app, Hrest. simpl.
    by rewrite is_digit_pretty_N_char.
Qed.

Lemma str_positive (z : Z) :
  0 < z →
  ∃ c rest, str z = String c rest ∧
            is_digit c = true ∧ c ≠ "0"%char ∧ all_digits rest = true.
Proof.
  intros Hz. destruct z as [|p|p]; try lia.
  unfold str, pretty, pretty_Z, pretty, pretty_positive, pretty, pretty_N.
  rewrite decide_False by done.
  destruct (pretty_N_go_digits (N.pos p) EmptyString) as (c & rest & -> & ?);
    [lia|].
  exists c, (rest +:+ EmptyString). split; [done|].
  by rewrite all_digits_app, andb_true_r.
Qed.

Lemma zfill_digits (width : nat) (c : ascii) (rest : string) :
  is_digit c = true →
  zfill width (String c rest) =
  zeros (width - String.length (String c rest)) +:+ String c rest.
Proof.
  intros Hc. unfold zfill. case_bool_decide as Hlen.
  - by replace (width - String.length (String c rest))%nat with 0%nat by lia.
  - case_bool_decide as Hsign; [|done].
    destruct Hsign as [-> | ->]; discriminate.
Qed.

Lemma all_digits_zeros (n : nat) : all_digits (zeros n) = true.
Proof. induction n as [|n IH]; [done|]. simpl. by rewrite IH. Qed.

Lemma zeros_app_inj (k1 k2 : nat) (c1 c2 : ascii) (r1 r2 : string) :
  c1 ≠ "0"%char → c2 ≠ "0"%char →
  zeros k1 +:+ String c1 r1 = zeros k2 +:+ String c2 r2 →
  String c1 r1 = String c2 r2.
Proof.
  intros H1 H2. revert k2. induction k1 as [|k1 IH]; intros [|k2]; simpl;
    rewrite ?string_app_cons, ?string_app_nil_l.
  - done.
  - intros [= -> _]. done.
  - intros [= <- _]. done.
  - intros [= Heq]. by apply (IH k2).
Qed.

Lemma dash_split_inj (c1 c2 z1 z2 : string) :
  all_digits z1 = true → all_digits z2 = true →
  c1 +:+ String "-"%char z1 = c2 +:+ String "-"%char z2 →
  c1 = c2 ∧ z1 = z2.
Proof.
  intros Hz1 Hz2. revert c2. induction c1 as [|a c1 IH]; intros [|b c2];
    rewrite ?string_app_cons, ?string_app_nil_l.
  - by intros [= ->].
  - intros [= <- ->]. rewrite all_digits_app in Hz1. simpl in Hz1.
    by rewrite andb_false_r in Hz1.
  - intros [= -> <-]. rewrite all_digits_app in Hz2. simpl in Hz2.
    by rewrite andb_false_r in Hz2.
  - intros [= -> Heq]. by destruct (IH c2 Heq) as [-> ->].
Qed.

Lemma zfill_str_digits (i : Z) :
  0 ≤ i →
  ∃ (k : nat) c rest,
    zfill 4 (str (i + 1)) = zeros k +:+ String c rest ∧
    str (i + 1) = String c rest ∧ c ≠ "0"%char ∧
    all_digits (zeros k +:+ String c rest) = true.
Proof.
  intros Hi. destruct (str_positive (i + 1)) as (c & rest & Hs & Hc & Hc0 & Hr);
    [lia|].
  exists (4 - String.length (String c rest))%nat, c, rest.
  rewrite Hs, zfill_digits by done. split; [done|]. split; [done|].
  split; [done|]. rewrite all_digits_app, all_digits_zeros. simpl.
  by rewrite Hc, Hr.
Qed.

Lemma openkiwas_id_inj (code1 code2 : string) (i j : Z) :
  0 ≤ i → 0 ≤ j →
  openkiwas_id code1 i = openkiwas_id code2 j → code1 = code2 ∧ i = j.
Proof.
  intros Hi Hj. unfold openkiwas_id. intros Heq%(inj (String.app _)).
  destruct (zfill_str_digits i Hi) as (k1 & c1 & r1 & Hz1 & Hs1 & Hc1 & Hd1).
  destruct (zfill_str_digits j Hj) as (k2 & c2 & r2 & Hz2 & Hs2 & Hc2 & Hd2).
  rewrite Hz1, Hz2 in Heq.
  change ("-" +:+ ?z) with (String "-"%char z) in Heq.
  apply dash_split_inj in Heq as [-> Heq]; [|done..].
  split; [done|]. apply zeros_app_inj in Heq; [|done..].
  rewrite <- Hs1, <- Hs2 in Heq. unfold str in Heq.
  apply (inj pretty) in Heq. lia.
Qed.

Lemma elem_of_frame_ids {V : Type} (id : string)
    (decoded : list (string * list (gmap string (Cell V)))) :
  id ∈ frame_ids decoded →
  ∃ code i, code ∈ decoded.*1 ∧ 0 ≤ i ∧ id = openkiwas_id code i.
Proof.
  unfold frame_ids. intros ([code df] & Hid & Hin)%list_elem_of_bind.
  apply list_elem_of_fmap in Hid as (i & -> & Hi%elem_of_seqZ).
  exists code, i. split; [|split; [lia|done]].
  apply list_elem_of_fmap. by exists (code, df).
Qed.

Lemma NoDup_frame_ids {V : Type}
    (decoded : list (string * list (gmap string (Cell V)))) :
  NoDup decoded.*1 → NoDup (frame_ids decoded).
Proof.
  induction decoded as [|[code df] decoded IH]; [constructor|].
  rewrite fmap_cons, NoDup_cons, frame_ids_cons. intros [Hcode Hnd].
  apply NoDup_app. split; [|split; [|by apply IH]].
  - apply NoDup_fmap_2_strong; [|apply NoDup_seqZ].
    intros i j Hi%elem_of_seqZ Hj%elem_of_seqZ Heq.
    apply openkiwas_id_inj in Heq as [_ ->]; [done|lia..].
  - intros id (i & -> & Hi%elem_of_seqZ)%list_elem_of_fmap
      (code' & j & Hin & Hj & Heq)%elem_of_frame_ids.
    apply openkiwas_id_inj in Heq as [-> _]; [done|lia..].
Qed.

(** X13. When no dataset code is listed twice, no two rows of the frame
    that the crawl returns have the same identifier. *)
Theorem X13_identifiers_are_distinct {V : Type}
    (datasets : list (string * Response V)) (df : DataFrame V) :
  NoDup datasets.*1 →
  crawl_eurostat_datasets datasets = Ok df →
  NoDup ((λ row, row !! "OpenKIWAS_ID"%string) <$> df_rows df).
Proof.
  intros Hnd (dfs & Hdfs & ->)%crawl_identifiers.
  apply NoDup_fmap_2; [by intros ?? [= ->]|].
  apply NoDup_frame_ids. apply mapM_Ok_inv, Forall2_length in Hdfs.
  rewrite fst_zip; [done|]. rewrite length_fmap. lia.
Qed.

Lemma X11_columns_of_the_crawl_witness :
  match crawl_eurostat_datasets two_datasets with
  | Ok df =>
      df_columns df `sublist_of` desired_order ∧
      Forall (λ row, ∀ name, is_Some (row !! name) → name ∈ df_columns df)
             (df_rows df) ∧
      Forall (λ row, ∃ code i v,
                code ∈ two_datasets.*1 ∧ 0 ≤ i ∧
                row !! "dataset_code"%string = Some (Code code) ∧
                row !! "OpenKIWAS_ID"%string
                  = Some (Code (openkiwas_id code i)) ∧
                row !! "value"%string = Some (Num v))
             (df_rows df)
  | Raise _ => False
  end.
Proof.
  destruct (crawl_eurostat_datasets two_datasets) as [df|e] eqn:Hrun.
  - exact (X11_columns_of_the_crawl two_datasets df Hrun).
  - vm_compute in Hrun. discriminate.
Defined.

Lemma X12_identifiers_of_the_crawl_witness :
  match crawl_eurostat_datasets two_datasets with
  | Ok df =>
      ∃ dfs,
        mapM dataset_rows two_datasets = Ok dfs ∧
        (λ row, row !! "OpenKIWAS_ID"%string) <$> df_rows df =
        (λ id, Some (Code id)) <$> frame_ids (zip two_datasets.*1 dfs)
  | Raise _ => False
  end.
Proof.
  destruct (crawl_eurostat_datasets two_datasets) as [df|e] eqn:Hrun.
  - exact (X12_identifiers_of_the_crawl two_datasets df Hrun).
  - vm_compute in Hrun. discriminate.
Defined.

Lemma X13_identifiers_are_distinct_witness :
  match crawl_eurostat_datasets two_datasets with
  | Ok df => NoDup ((λ row, row !! "OpenKIWAS_ID"%string) <$> df_rows df)
  | Raise _ => False
  end.
Proof.
  destruct (crawl_eurostat_datasets two_datasets) as [df|e] eqn:Hrun.
  - apply (X13_identifiers_are_distinct two_datasets df); [|exact Hrun].
    simpl. apply NoDup_cons. split; [|apply NoDup_singleton].
    intros Hin%list_elem_of_singleton. discriminate.
  - vm_compute in Hrun. discriminate.
Defined.

(** ** The query parameters *)

Lemma lstrip_idemp (s : string) : lstrip (lstrip s) = lstrip s.
Proof.
  induction s as [|c s IH]; [done|]. simpl.
  destruct (isspace c) eqn:Hc; [done|]. simpl. by rewrite Hc.
Qed.

Lemma rstrip_idemp (s : string) : rstrip (rstrip s) = rstrip s.
Proof.
  induction s as [|c s IH]; [done|]. simpl.
  destruct (rstrip s) as [|c' r] eqn:Hr.
  - destruct (isspace c) eqn:Hc; [done|]. simpl. by rewrite Hc.
  - simpl in *. by rewrite IH.
Qed.

(** Stripping on the right leaves a string that does not begin with a
    space as it is on the left. *)
Lemma lstrip_rstrip (s : string) : lstrip s = s → lstrip (rstrip s) = rstrip s.
Proof.
  destruct s as [|c s]; [done|]. simpl.
  destruct (isspace c) eqn:Hc.
  - intros Heq. exfalso.
    assert (String.length (lstrip s) ≤ String.length s)%nat as Hle.
    { clear. induction s as [|c s IH]; simpl; [done|].
      destruct (isspace c); simpl; lia. }
    rewrite Heq in Hle. simpl in Hle. lia.
  - intros _. destruct (rstrip s); simpl; by rewrite Hc.
Qed.

Lemma strip_idemp (s : string) : strip (strip s) = strip s.
Proof.
  unfold strip. rewrite (lstrip_rstrip (lstrip s)) by apply lstrip_idemp.
  apply rstrip_idemp.
Qed.

Lemma build_params_items (filters : option (list (string * FilterValues)))
    (lang : string) :
  build_params filters lang =
  ("lang"%string, lang) ::
    (default [] filters ≫= λ '(dim, values),
       (λ v, (dim, v)) <$>
         filter (λ v, v ≠ EmptyString) (filter_vals values)).
Proof.
  assert (∀ (dim : string) (vals : list string)
            (params : list (string * string)),
            foldl (λ params v, if bool_decide (v = EmptyString) then params
                               else params ++ [(dim, v)]) params vals
            = params ++ ((λ v : string, (dim, v)) <$>
                           filter (λ v, v ≠ EmptyString) vals)) as Hinner.
  { intros dim vals. induction vals as [|v vals IH]; intros params; simpl.
    - by rewrite app_nil_r.
    - rewrite IH, filter_cons. case_bool_decide as Hv.
      + by rewrite decide_False by (intros ?; done).
      + rewrite decide_True by done. by rewrite <- app_assoc. }
  assert (∀ (fs : list (string * FilterValues))
            (params : list (string * string)),
            foldl (λ params '(dim, values),
                     foldl (λ params v, if bool_decide (v = EmptyString)
                                        then params else params ++ [(dim, v)])
                           params (filter_vals values)) params fs
            = params ++ (fs ≫= λ '(dim, values),
                (λ v : string, (dim, v)) <$>
                  filter (λ v, v ≠ EmptyString) (filter_vals values))) as Houter.
  { induction fs as [|[dim values] fs IH]; intros params; simpl.
    - by rewrite app_nil_r.
    - rewrite IH, Hinner. by rewrite <- app_assoc. }
  unfold build_params. destruct filters as [[|f fs]|]; [done| |done].
  by rewrite Houter.
Qed.

(** X14. The query parameters begin with the language. Every other
    parameter belongs to a filter, and its value is not empty and has no
    white space at its ends: empty values, and values of white space alone,
    are not sent. *)
Theorem X14_query_parameters (filters : option (list (string * FilterValues)))
    (lang : string) :
  ∃ rest,
    build_params filters lang = ("lang"%string, lang) :: rest ∧
    Forall (λ '(dim, v),
              dim ∈ (default [] filters).*1 ∧ v ≠ EmptyString ∧ strip v = v)
           rest.
Proof.
  eexists. split; [apply build_params_items|].
  apply Forall_forall. intros [dim v] Hin.
  apply list_elem_of_bind in Hin as ([dim' values] & Hin & Hf).
  apply list_elem_of_fmap in Hin as (v' & [= -> ->] & Hv).
  apply list_elem_of_filter in Hv as [Hne Hv]. split; [|split; [done|]].
  - apply list_elem_of_fmap. by exists (dim', values).
  - destruct values as [s|l]; simpl in Hv;
      apply list_elem_of_fmap in Hv as (w & -> & _); apply strip_idemp.
Qed.

Lemma split_comma_no_comma (s : string) :
  no_comma s = true → split_comma s = [s].
Proof.
  induction s as [|c s IH]; [done|]. simpl.
  case_bool_decide; [done|]. simpl. intros Hs. by rewrite IH.
Qed.

Lemma split_comma_app (s t : string) :
  no_comma s = true →
  split_comma (s +:+ String ","%char t) = s :: split_comma t.
Proof.
  induction s as [|c s IH]; intros Hs.
  - by rewrite string_app_nil_l.
  - rewrite string_app_cons. simpl in *.
    case_bool_decide; [done|]. simpl in Hs. by rewrite IH.
Qed.

Lemma split_comma_join (l : list string) :
  l ≠ [] → Forall (λ w, no_comma w = true) l →
  split_comma (join_comma l) = l.
Proof.
  induction l as [|w l IH]; [done|]. intros _ Hl.
  apply Forall_cons in Hl as [Hw Hl]. destruct l as [|w' l].
  - by apply split_comma_no_comma.
  - change (join_comma (w :: w' :: l))
      with (w +:+ String ","%char (join_comma (w' :: l))).
    rewrite split_comma_app by done. by rewrite IH.
Qed.

(** X15. The values of a filter may be given as a list or as one string
    with commas between them: when no value holds a comma, both give the
    same query parameters. *)
Theorem X15_one_string_or_a_list
    (before after : list (string * FilterValues)) (dim lang : string)
    (l : list string) :
  Forall (λ w, no_comma w = true) l →
  build_params (Some (before ++ (dim, Single (join_comma l)) :: after)) lang
  = build_params (Some (before ++ (dim, Several l) :: after)) lang.
Proof.
  intros Hl. rewrite !build_params_items. f_equal. simpl.
  rewrite !bind_app, !bind_cons. do 2 f_equal. simpl.
  destruct l as [|w l]; [done|]. by rewrite split_comma_join.
Qed.

Lemma X15_one_string_or_a_list_witness :
  build_params (Some [("geo"%string, Single "AT, BE"%string)]) "EN"
  = build_params (Some [("geo"%string, Several ["AT"; " BE"]%string)]) "EN".
Proof.
  apply (X15_one_string_or_a_list [] [] "geo" "EN" ["AT"; " BE"]%string).
  repeat constructor.
Defined.

(** ** The dimensions that are read *)

(** X2. Of the object [dimension] only the entries of the names listed in
    [id] are read: a cube whose [dimension] differs in other entries, which
    the answers of the service hold beside the listed ones, decodes to the
    same result, rows and exceptions alike. *)
Theorem X2_only_listed_dimensions_read {V : Type} (ds : JsonStat V)
    (dim : gmap string Dimension) :
  (∀ name, name ∈ js_id ds → dim !! name = js_dimension ds !! name) →
  jsonstat_to_dataframe
    (Bare {| js_dimension := dim; js_value := js_value ds;
             js_id := js_id ds; js_size := js_size ds |})
  = jsonstat_to_dataframe (Bare ds).
Proof.
  intros Hdim. unfold jsonstat_to_dataframe. simpl.
  assert (build_dim_categories dim (js_id ds)
          = build_dim_categories (js_dimension ds) (js_id ds)) as ->; [|done].
  apply foldM_ext. intros cats name Hname.
  unfold categories_of, dict_getitem. by rewrite Hdim.
Qed.

Lemma X2_only_listed_dimensions_read_witness :
  jsonstat_to_dataframe
    (Bare {| js_dimension := <["note" := {| category := None |}]>
                               (js_dimension dense_cube);
             js_value := js_value dense_cube;
             js_id := js_id dense_cube; js_size := js_size dense_cube |})
  = jsonstat_to_dataframe (Bare dense_cube).
Proof.
  apply (X2_only_listed_dimensions_read dense_cube).
  intros name Hname. apply lookup_insert_ne. intros <-.
  simpl in Hname. rewrite !elem_of_cons, elem_of_nil in Hname.
  by destruct Hname as [|[|]].
Defined.

(** ** Category lists and rows without duplicates *)

Lemma assoc_unique {A B : Type} (l : list (A * B)) (x : A) (y1 y2 : B) :
  NoDup l.*1 → (x, y1) ∈ l → (x, y2) ∈ l → y1 = y2.
Proof.
  induction l as [|[x' y'] l IH]; [by intros _ ?%elem_of_nil|].
  rewrite fmap_cons. simpl. intros [Hx Hl]%NoDup_cons H1 H2.
  apply elem_of_cons in H1 as [H1|H1], H2 as [H2|H2].
  - congruence.
  - exfalso. apply Hx. apply list_elem_of_fmap. exists (x, y2).
    split; [simpl; congruence | done].
  - exfalso. apply Hx. apply list_elem_of_fmap. exists (x, y1).
    split; [simpl; congruence | done].
  - by apply IH.
Qed.

Lemma pos_to_code_of_elem (index : list (string * Z)) (i : Z) (code : string) :
  pos_to_code_of index !! i = Some code → (code, i) ∈ index.
Proof.
  induction index as [|[code' pos] index IH] using rev_ind; [done|].
  unfold pos_to_code_of in *. rewrite foldl_app. simpl.
  destruct (decide (pos = i)) as [->|Hne].
  - rewrite lookup_insert_eq. intros [= ->]. apply elem_of_app. right. by left.
  - rewrite lookup_insert_ne by done. intros Hi. apply elem_of_app. left. auto.
Qed.

Lemma ordered_codes_of_NoDup (index : list (string * Z)) (codes : list string) :
  NoDup index.*1 → ordered_codes_of index = Ok codes → NoDup codes.
Proof.
  intros Hkeys Hrun. destruct (decide (index = [])) as [->|Hne].
  { vm_compute in Hrun. injection Hrun as <-. apply NoDup_singleton. }
  destruct (ordered_codes_of_range index Hne) as (max_pos & _ & _ & Heq).
  rewrite Heq in Hrun. apply mapM_Ok_inv in Hrun.
  apply NoDup_alt. intros i j code Hi Hj.
  destruct (Forall2_lookup_r _ _ _ _ _ Hrun Hi) as (pi & Hpi & Hgi).
  destruct (Forall2_lookup_r _ _ _ _ _ Hrun Hj) as (pj & Hpj & Hgj).
  unfold dict_getitem in Hgi, Hgj.
  destruct (pos_to_code_of index !! pi) as [ci|] eqn:Hci; simplify_eq/=.
  destruct (pos_to_code_of index !! pj) as [cj|] eqn:Hcj; simplify_eq/=.
  apply pos_to_code_of_elem in Hci, Hcj.
  pose proof (assoc_unique _ _ _ _ Hkeys Hci Hcj) as ->.
  eapply NoDup_lookup; [apply (NoDup_seqZ 0 (max_pos + 1))|done..].
Qed.

Lemma categories_of_NoDup (dim : gmap string Dimension) (name : string)
    (codes : list string) :
  NoDup (index_of dim name).*1 → categories_of dim name = Ok codes →
  NoDup codes.
Proof.
  unfold index_of, categories_of, dict_getitem.
  destruct (dim !! name) as [d|]; simpl; [|done].
  destruct (category d) as [cat|]; simpl; [|done].
  apply ordered_codes_of_NoDup.
Qed.

(** X16. A category list holds no code twice: the index has one position
    per code, and the list takes one code per position. *)
Theorem X16_category_list_without_duplicates (dim : gmap string Dimension)
    (ids : list string) (cats : gmap string (list string)) (name : string) :
  NoDup (index_of dim name).*1 →
  build_dim_categories dim ids = Ok cats → name ∈ ids →
  ∃ codes, cats !! name = Some codes ∧ NoDup codes.
Proof.
  intros Hkeys Hb Hname.
  destruct (build_dim_categories_lookup _ _ _ _ Hb Hname) as (cl & Hcl & Hc).
  exists cl. split; [done|]. by eapply categories_of_NoDup.
Qed.

Lemma X16_category_list_without_duplicates_witness :
  ∃ codes, ({[ "geo" := ["AT"; "BE"] ]} : gmap string (list string)) !! "geo"
           = Some codes ∧ NoDup codes.
Proof.
  apply (X16_category_list_without_duplicates
           {[ "geo" := {| category :=
                Some {| index := Some [("BE", 1); ("AT", 0)] |} |} ]}
           ["geo"]); [|reflexivity|by left].
  vm_compute. apply (NoDup_cons_2 "BE"); [|apply NoDup_singleton].
  by intros ?%list_elem_of_singleton.
Defined.

Section distinct_rows.
Context {V : Type}.
Implicit Types (cats : gmap string (list string)) (codes : gmap string (Cell V)).

Lemma label_coords_keeps cats (ids : list string) (coords : list Z)
    codes codes' (name : string) :
  label_coords cats ids coords codes = Ok codes' → name ∉ ids →
  codes' !! name = codes !! name.
Proof.
  revert ids codes. induction coords as [|c coords IH];
    intros [|name' ids] codes Hrun Hname; simplify_eq/=; try done.
  destruct (dict_getitem cats name') as [cl|]; simpl in Hrun; [|done].
  destruct (list_getitem cl c) as [code|]; simpl in Hrun; [|done].
  rewrite (IH _ _ Hrun) by (intros ?; apply Hname; by right).
  apply lookup_insert_ne. intros ->. apply Hname. by left.
Qed.

Lemma list_getitem_nonneg_inj {A : Type} (l : list A) (i j : Z) (a : A) :
  NoDup l → 0 ≤ i → 0 ≤ j →
  list_getitem l i = Ok a → list_getitem l j = Ok a → i = j.
Proof.
  intros Hl Hi Hj. unfold list_getitem.
  repeat case_bool_decide; try lia.
  destruct (l !! Z.to_nat i) as [a1|] eqn:Hli; simpl; [|done].
  destruct (l !! Z.to_nat j) as [a2|] eqn:Hlj; simpl; [|done].
  intros [= ->] [= ->]. pose proof (NoDup_lookup _ _ _ _ Hl Hli Hlj). lia.
Qed.

(** Two coordinate vectors that select the same codes are the same. *)
Lemma label_coords_inj cats (ids : list string) (coords1 coords2 : list Z)
    codes1 codes2 codes1' codes2' :
  NoDup ids → length coords1 = length coords2 →
  Forall (λ c, 0 ≤ c) coords1 → Forall (λ c, 0 ≤ c) coords2 →
  (∀ name cl, name ∈ ids → cats !! name = Some cl → NoDup cl) →
  label_coords cats ids coords1 codes1 = Ok codes1' →
  label_coords cats ids coords2 codes2 = Ok codes2' →
  (∀ name, name ∈ ids → codes1' !! name = codes2' !! name) →
  coords1 = coords2.
Proof.
  revert ids coords2 codes1 codes2.
  induction coords1 as [|c1 coords1 IH];
    intros ids [|c2 coords2] codes1 codes2 Hids Hlen H1 H2 Hcats Hr1 Hr2 Heq;
    simplify_eq/=; [done|].
  destruct ids as [|name ids]; [done|].
  apply NoDup_cons in Hids as [Hname Hids].
  apply Forall_cons in H1 as [Hc1 H1]. apply Forall_cons in H2 as [Hc2 H2].
  unfold dict_getitem in Hr1, Hr2.
  destruct (cats !! name) as [cl|] eqn:Hcl; simpl in Hr1, Hr2; [|done].
  destruct (list_getitem cl c1) as [code1|] eqn:Hg1; simpl in Hr1; [|done].
  destruct (list_getitem cl c2) as [code2|] eqn:Hg2; simpl in Hr2; [|done].
  pose proof (label_coords_keeps _ _ _ _ _ name Hr1 Hname) as Hk1.
  pose proof (label_coords_keeps _ _ _ _ _ name Hr2 Hname) as Hk2.
  rewrite lookup_insert_eq in Hk1, Hk2.
  pose proof (Heq name (list_elem_of_here _ _)) as Hsame.
  rewrite Hk1, Hk2 in Hsame. injection Hsame as <-.
  assert (c1 = c2) as <-.
  { eapply list_getitem_nonneg_inj; [|done..]. eapply Hcats; [by left|done]. }
  f_equal. eapply (IH ids); try done.
  - intros name' cl' Hin. apply Hcats. by right.
  - intros name' Hin. apply Heq. by right.
Qed.

Lemma mapM_omap_sublist {A B : Type} (f : A → result (option B))
    (l : list A) (os : list (option B)) :
  mapM f l = Ok os →
  ∃ l', l' `sublist_of` l ∧ Forall2 (λ x y, f x = Ok (Some y)) l' (omap id os).
Proof.
  revert os. induction l as [|x l IH]; intros os; simpl.
  - intros [= <-]. exists []. split; [done|constructor].
  - destruct (f x) as [o|e] eqn:Hx; simpl; [|done].
    destruct (mapM f l) as [os'|e]; simpl; [|done].
    intros [= <-]. destruct (IH os' eq_refl) as (l' & Hsub & Hall).
    destruct o as [y|]; simpl.
    + exists (x :: l'). split; [by apply sublist_skip|by constructor].
    + exists l'. split; [by apply sublist_cons|done].
Qed.

End distinct_rows.

(** X17. No two rows stand for the same cell of the cube: when the listed
    dimensions are distinct, none of them is called [value], no size is
    negative and each index has one item per code, two rows that agree on
    the code of every dimension are the same row. *)
Theorem X17_rows_are_distinct {V : Type} (ds : JsonStat V)
    (rows : list (gmap string (Cell V))) :
  NoDup (js_id ds) → "value"%string ∉ js_id ds →
  Forall (λ s, 0 ≤ s) (js_size ds) →
  (∀ name, name ∈ js_id ds → NoDup (index_of (js_dimension ds) name).*1) →
  jsonstat_to_dataframe (Bare ds) = Ok rows →
  ∀ (i j : nat) r1 r2,
    rows !! i = Some r1 → rows !! j = Some r2 →
    (∀ name, name ∈ js_id ds → r1 !! name = r2 !! name) → i = j.
Proof.
  intros Hids Hvalue Hsizes Hkeys Hrun i j r1 r2 Hi Hj Hsame.
  rewrite jsonstat_to_dataframe_rowmajor in Hrun.
  unfold rowmajor_decode in Hrun. simpl in Hrun.
  destruct (build_dim_categories _ _) as [cats|] eqn:Hb; simpl in Hrun; [|done].
  destruct (mapM _ _) as [os|] eqn:Hos; simpl in Hrun; [|done].
  injection Hrun as <-.
  apply mapM_omap_sublist in Hos as (flats & Hsub & Hall).
  destruct (Forall2_lookup_r _ _ _ _ _ Hall Hi) as (flat1 & Hf1 & Ho1).
  destruct (Forall2_lookup_r _ _ _ _ _ Hall Hj) as (flat2 & Hf2 & Ho2).
  assert (∀ flat, flat ∈ flats → 0 ≤ flat < product (js_size ds)) as Hrange.
  { intros flat Hin. apply (elem_of_sublist _ _ _ Hin) in Hsub.
    apply elem_of_seqZ in Hsub. lia. }
  assert (flat1 = flat2) as <-.
  { pose proof (Hrange _ (list_elem_of_lookup_2 _ _ _ Hf1)) as Hr1.
    pose proof (Hrange _ (list_elem_of_lookup_2 _ _ _ Hf2)) as Hr2.
    destruct (successive_divmod_ravel _ _ Hsizes Hr1) as [Hb1 Hravel1].
    destruct (successive_divmod_ravel _ _ Hsizes Hr2) as [Hb2 Hravel2].
    rewrite <- Hravel1, <- Hravel2. f_equal.
    unfold observation_at in Ho1, Ho2.
    destruct (label_coords _ _ (successive_divmod flat1 _) _) as [codes1|]
      eqn:Hl1; simpl in Ho1; [|done].
    destruct (label_coords _ _ (successive_divmod flat2 _) _) as [codes2|]
      eqn:Hl2; simpl in Ho2; [|done].
    destruct (get_value_at _ flat1) as [[v1|]|]; simplify_eq/=.
    destruct (get_value_at _ flat2) as [[v2|]|]; simplify_eq/=.
    eapply (label_coords_inj cats (js_id ds)); [done| | | | |done|done|].
    - by rewrite !length_successive_divmod.
    - eapply Forall2_Forall_l; [exact Hb1|].
      apply Forall_forall. intros; lia.
    - eapply Forall2_Forall_l; [exact Hb2|].
      apply Forall_forall. intros; lia.
    - intros name cl Hname Hcl.
      destruct (build_dim_categories_lookup _ _ _ _ Hb Hname)
        as (cl' & Hcat & Hcl').
      rewrite Hcl in Hcl'. injection Hcl' as <-.
      eapply categories_of_NoDup; [by apply Hkeys|done].
    - intros name Hname. specialize (Hsame name Hname).
      assert (name ≠ "value"%string) as Hne by (by intros ->).
      by rewrite !lookup_insert_ne in Hsame. }
  eapply NoDup_lookup; [|exact Hf1|exact Hf2].
  eapply sublist_NoDup; [apply NoDup_seqZ|exact Hsub].
Qed.

Lemma X17_rows_are_distinct_witness :
  match jsonstat_to_dataframe (Bare dense_cube) with
  | Ok rows =>
      ∀ (i j : nat) r1 r2,
        rows !! i = Some r1 → rows !! j = Some r2 →
        (∀ name, name ∈ js_id dense_cube → r1 !! name = r2 !! name) → i = j
  | Raise _ => False
  end.
Proof.
  destruct (jsonstat_to_dataframe (Bare dense_cube)) as [rows|e] eqn:Hrun.
  - apply (X17_rows_are_distinct dense_cube rows); [| | | |exact Hrun].
    + simpl. apply (NoDup_cons_2 "geo"%string); [|apply NoDup_singleton].
      by intros ?%list_elem_of_singleton.
    + simpl. rewrite !elem_of_cons, elem_of_nil. by intros [|[|]].
    + simpl. repeat constructor; lia.
    + intros name. simpl. rewrite !elem_of_cons, elem_of_nil.
      intros [->|[->|[]]]; vm_compute; repeat constructor;
        rewrite ?elem_of_cons, ?elem_of_nil; intuition discriminate.
  - vm_compute in Hrun. discriminate.
Defined.
